(** * Local-workgroup-shared tiled matmul programs of the WebGPU backend

    A shallow embedding of [matmul_lws_webgpu.ts] (the plain matmul program
    and the kernel template [makeMatMulLWSSource]) and of the convolution
    program [Conv2DMMLWSProgram] that reuses the same template, followed by
    the properties of the tile planner, the dispatch geometry, the shader key
    and the emitted kernel text.

    Conventions.
    - A JavaScript [number] that holds a tensor dimension is a [Z]; [%] is
      [Z.rem] (truncating, as in JS) and NaN on a zero divisor;
      [Math.ceil (a / b)] rounds the exact rational quotient up.  A
      [number] is a double: sums, products and printed digits of integers
      are those of [Z] as long as every value stays below 2^53 in magnitude,
      and the properties that speak of a computed product or of printed
      dimensions of either sign are stated within that bound.
    - A template literal is a list of chunks, literal text and substituted
      values, rendered by concatenation.
    - A constructor that may [throw] returns a [result]. *)

From Stdlib Require Import ZArith QArith Qround List String Ascii Bool Lia.
From Stdlib Require Import DecimalString DecimalPos DecimalZ.
Import ListNotations.

Local Open Scope string_scope.
Local Open Scope list_scope.
Local Open Scope Z_scope.

(** ** JavaScript values and template literals *)

Module JS.

(** [new C(...)] either yields the object or throws [new Error(msg)]. *)
Inductive result (A : Type) : Type :=
| Ok (a : A)
| Throw (msg : string).
Arguments Ok {A} a.
Arguments Throw {A} msg.

(** [a % b] on integers: the sign follows the dividend, and a zero divisor
    yields NaN, here [None]. *)
Definition rem (a b : Z) : option Z :=
  if b =? 0 then None else Some (Z.rem a b).

(** [x === 0]; NaN is not 0, so [x !== 0] is [negb (is_0 x)]. *)
Definition is_0 (x : option Z) : bool :=
  match x with
  | Some v => v =? 0
  | None => false
  end.

(** [a / b] on integer-valued numbers, as an exact rational.  The divisor
    is not zero wherever the programs divide dimensions of a non-empty
    tensor; the infinities and NaN of a zero divisor are not modelled. *)
Definition quot (a b : Z) : Q := (inject_Z a / inject_Z b)%Q.

Definition Math_ceil (q : Q) : Z := Qceiling q.

(** [`${n}`] for an integer-valued number (below 1e21 in magnitude, where
    JS prints no exponent): decimal digits, with a leading minus sign below
    zero. *)
Definition num (n : Z) : string := NilZero.string_of_int (Z.to_int n).

(** [`${b}`] for a boolean. *)
Definition flag (b : bool) : string :=
  if b then "true" else "false".

(** One piece of a template literal: [Lit] is text written in the source
    file itself (the characters between substitutions, and string constants
    picked by a conditional); [Val] is the string that a substitution
    [${e}] computes from an argument or from an imported snippet. *)
Inductive chunk : Type :=
| Lit (text : string)
| Val (value : string).

Definition chunk_text (c : chunk) : string :=
  match c with Lit s => s | Val s => s end.

Fixpoint render (t : list chunk) : string :=
  match t with
  | [] => ""
  | c :: t' => (chunk_text c ++ render t')%string
  end.

(** [for (let i = 0; i < n; i++) acc += body(i)] on template chunks. *)
Definition for_upto (n : Z) (body : Z -> list chunk) : list chunk :=
  flat_map (fun i => body (Z.of_nat i)) (seq 0 (Z.to_nat n)).

End JS.

Import JS.

(** ** Types of tfjs-core that the programs mention *)

(** Modelled from the spec: [backend_util.Activation] is declared in
    tfjs-core, outside the sources at hand; section 3 of the specification
    gives it as an enumeration (ReLU, ReLU6, PReLU, Sigmoid, ...).  At run
    time a value is its lower-case name, and [null] stands for none. *)
Inductive Activation : Type :=
| linear | relu | prelu | elu | relu6 | leakyrelu | sigmoid.

Definition Activation_name (a : Activation) : string :=
  match a with
  | linear => "linear"
  | relu => "relu"
  | prelu => "prelu"
  | elu => "elu"
  | relu6 => "relu6"
  | leakyrelu => "leakyrelu"
  | sigmoid => "sigmoid"
  end.

(** [`${activation}`], where the field may be [null]. *)
Definition show_activation (a : option Activation) : string :=
  match a with
  | None => "null"
  | Some a => Activation_name a
  end.

(** A tensor handle; the programs only compare it against [null]. *)
Record TensorInfo : Type := { shape : list Z; dtype : string }.

Inductive DataFormat : Type := channelsFirst | channelsLast.

(** The two fields of [backend_util.Conv2DInfo] that the convolution program
    reads. *)
Record Conv2DInfo : Type := {
  dataFormat : DataFormat;
  outShape : Z * Z * Z * Z
}.

Record DispatchLayout : Type := {
  x : list Z;
  y : list Z;
  z : list Z
}.

(** The snippet functions the programs import from sibling files
    ([webgpu_program.ts], [activation_util.ts], [matmul_packed_webgpu.ts],
    [conv2d_mm_webgpu.ts]).  Their sources are not part of this development:
    they are an interface, and the statements below quantify over its
    implementations. *)
Class Snippets : Type := {
  typeSnippet : Z -> string;
  main : string;
  activationFnSnippet :
    option Activation -> bool -> bool -> string;
  matMulReadWriteFnSource :
    bool -> option Activation -> bool -> bool ->
    bool -> bool -> bool -> Z -> Z -> string;
  conv2dCommonSnippet :
    bool -> bool -> bool -> bool ->
    bool -> option Activation -> bool -> Z -> Z -> Z ->
    string
}.

(** ** matmul_lws_webgpu.ts *)

Module MatMulLWS.

(** *** The kernel template *)

Section Kernel.
Context {lib : Snippets}.
Variables (workgroupSize outputNumber components aComponents : Z).
Variables (tileM tileN tileK : Z).
Variable isConv : bool.

Definition aValueType : string := typeSnippet aComponents.
Definition bValueType : string := typeSnippet components.
Definition outValueType : string := typeSnippet components.

(** The inner closure [calcResult]: the string it accumulates, as the
    chunks appended in order. *)
Definition calcResult_chunks : list chunk :=
  [Lit "var aData: "; Val aValueType; Lit ";"]
  ++ for_upto aComponents (fun i =>
       [Lit "
            let bData"; Val (num i); Lit " = mm_Bsub[k + "; Val (num i);
        Lit "][localCol];"])
  ++ for_upto outputNumber (fun i =>
       [Lit "aData = mm_Asub[localRow + "; Val (num i); Lit "][k / ";
        Val (num aComponents); Lit "];"]
       ++ for_upto aComponents (fun j =>
            [Lit "
          values["; Val (num i); Lit "] = fma("; Val bValueType;
             Lit "(aData"]
            ++ (if aComponents =? 1 then [Lit ""]
                else [Lit "["; Val (num j); Lit "]"])
            ++ [Lit "), bData"; Val (num j); Lit ", values[";
                Val (num i); Lit "]);
"])).

Definition calcResult : string := render calcResult_chunks.

(** The two workgroup-shared tiles. *)
Definition shared_A : list chunk :=
  [Lit "
  var<workgroup> mm_Asub: array<array<"; Val aValueType; Lit ", ";
   Val (num (tileK / aComponents)); Lit ">, "; Val (num tileM);
   Lit ">;"].

Definition shared_B : list chunk :=
  [Lit "
  var<workgroup> mm_Bsub: array<array<"; Val bValueType; Lit ", ";
   Val (num (tileN / components)); Lit ">, "; Val (num tileK);
   Lit ">;"].

Definition shared_decls : list chunk := shared_A ++ shared_B.

(** Entry point and recovery of the tile origin from the linear
    workgroup index. *)
Definition tile_indices : list chunk :=
  [Lit "
  "; Val main; Lit " {
    let virtualGlobalId = workgroupId.z * numWorkgroups.x * numWorkgroups.y +
        workgroupId.y * numWorkgroups.x + workgroupId.x;
    let stride0 = (u32(uniforms.dimBOuter) - 1u) / "; Val (num tileN);
   Lit "u + 1u;
    let tileColStart = (virtualGlobalId % stride0) * "; Val (num tileN);
   Lit "u;
    var index1 = virtualGlobalId / stride0;
    let stride1 = (u32(uniforms.dimAOuter) - 1u) / "; Val (num tileM);
   Lit "u + 1u;
    let tileRowStart = (index1 % stride1) * "; Val (num tileM); Lit "u;
    "].

(** The batch index and the batch each operand is read from. *)
Definition batch_indices : list chunk :=
  [Lit "let batch = index1 / stride1;
    let batchA = ";
   Lit (if isConv then "i32(batch)"
        else "i32(batch) % uniforms.aShape[0]"); Lit ";
    let batchB = ";
   Lit (if isConv then "0i" else "i32(batch) % uniforms.bShape[0]");
   Lit ";"].

(** Accumulators, up to the loop over the shared dimension. *)
Definition accumulators : list chunk :=
  [Lit "

    var values: array<"; Val outValueType; Lit ", "; Val (num outputNumber);
   Lit ">;
    let numTiles = (u32(uniforms.dimInner) - 1u) / "; Val (num tileK);
   Lit " + 1u;
    var kStart = 0u;
    // Loop over shared dimension.
    "].

Definition loop_header : chunk :=
  Lit "for (var t = 0u; t < numTiles; t = t + 1u) {".

Definition loop_close : chunk := Lit "}".

Definition prologue : list chunk :=
  tile_indices ++ batch_indices ++ accumulators.

(** First half of the loop body: both cooperative tile loads. *)
Definition load_phase : list chunk :=
  [Lit "
      // Load one tile of A into local memory.
      for (var tIndex = localIndex; tIndex < ";
   Val (num (tileM * tileK / aComponents)); Lit "; tIndex += ";
   Val (num workgroupSize); Lit ") {
          let inputRow = tIndex / "; Val (num (tileK / aComponents)); Lit ";
          let inputCol = tIndex % "; Val (num (tileK / aComponents)); Lit ";

          mm_Asub[inputRow][inputCol] = mm_readA(batchA, i32(tileRowStart + inputRow), i32(kStart + inputCol * ";
   Val (num aComponents); Lit "));
      }

      // Load one tile of B into local memory.
      for (var tIndex = localIndex; tIndex < ";
   Val (num (tileK * tileN / components)); Lit "; tIndex += ";
   Val (num workgroupSize); Lit ") {
          let inputRow = tIndex / "; Val (num (tileN / components)); Lit ";
          let inputCol = tIndex % "; Val (num (tileN / components)); Lit ";
          mm_Bsub[inputRow][inputCol] = mm_readB(batchB, i32(kStart + inputRow), i32(tileColStart + inputCol * ";
   Val (num components); Lit "));
      }
      kStart = kStart + "; Val (num tileK); Lit ";
      "].

Definition barrier : chunk := Lit "workgroupBarrier();".

(** Second half of the loop body: the accumulation. *)
Definition compute_phase : list chunk :=
  [Lit "

      // Compute values for a single thread.
      for (var k = 0; k < "; Val (num tileK); Lit "; k = k + ";
   Val (num aComponents); Lit ") {
        for (var tIndex = localIndex; tIndex < ";
   Val (num ((tileM / outputNumber) * (tileN / components)));
   Lit "; tIndex += "; Val (num workgroupSize); Lit ") {
          let localRow = tIndex / "; Val (num (tileN / components));
   Lit " * "; Val (num outputNumber); Lit ";
          let localCol = tIndex % "; Val (num (tileN / components)); Lit ";
        "]
  ++ calcResult_chunks
  ++ [Lit "
      }
      }
      "].

Definition loop_body : list chunk :=
  load_phase ++ [barrier] ++ compute_phase ++ [barrier] ++ [Lit "
    "].

(** The write-back of the accumulators, after the loop. *)
Definition epilogue : list chunk :=
  [Lit "

    for (var tIndex = localIndex; tIndex < ";
   Val (num ((tileM / outputNumber) * (tileN / components)));
   Lit "; tIndex += "; Val (num workgroupSize); Lit ") {
      let localRow = tIndex / "; Val (num (tileN / components)); Lit " * ";
   Val (num outputNumber); Lit ";
      let localCol = tIndex % "; Val (num (tileN / components)); Lit ";
      let globalCol = tileColStart + localCol * "; Val (num components);
   Lit ";
      let globalRow = tileRowStart + localRow;
      for (var i = 0u; i < "; Val (num outputNumber); Lit "u; i++) {
        mm_write(i32(batch), i32(globalRow + i), i32(globalCol), values[i]);
      }
    }
  }
  "].

(** The whole template of [makeMatMulLWSSource], cut at the boundaries
    named above.  A quotient such as [tileK / aComponents] is printed as
    an integer: it is one in every configuration the constructors below
    accept. *)
Definition kernel_chunks : list chunk :=
  shared_decls ++ prologue ++ [loop_header] ++ loop_body
  ++ [loop_close] ++ epilogue.

Definition makeMatMulLWSSource : string := render kernel_chunks.

End Kernel.

(** *** The program object *)

Definition getMaxComponents (size : Z) : Z :=
  if is_0 (rem size 4) then 4
  else if is_0 (rem size 2) then 2
  else 1.

Record MatMulLWSProgram : Type := {
  outputShape : Z * Z * Z;
  shaderKey : string;
  dispatchLayout : DispatchLayout;
  dispatch : Z * Z * Z;
  variableNames : list string;
  variableComponents : list Z;
  outputComponent : Z;
  uniforms : string;
  workgroupSize : Z * Z * Z;
  transposeA : bool;
  transposeB : bool;
  addBias : bool;
  activation : option Activation;
  hasPreluActivationWeights : bool;
  components : Z;
  aComponents : Z;
  outputNumber : Z;
  fitAOuter : bool;
  fitBOuter : bool;
  fitInner : bool;
  tileN : Z;
  tileM : Z;
  tileK : Z
}.

(** [x != null] on an optional tensor. *)
Definition not_null (t : option TensorInfo) : bool :=
  match t with Some _ => true | None => false end.

(** [array.push(v)] when [cond] holds. *)
Definition push_if {A : Type} (cond : bool) (v : A) (l : list A) : list A :=
  if cond then l ++ [v] else l.

(** The constructor.  [numWorkgroups] is the product of doubles in the
    code, which is the product of the integers as long as it stays below
    2^53. *)
Definition constructor (outputShape : Z * Z * Z) (sharedDim : Z)
    (transposeA transposeB : bool) (bias : option TensorInfo)
    (activation : option Activation)
    (preluActivationWeights : option TensorInfo)
    : result MatMulLWSProgram :=
  let '(batch, M, N) := outputShape in
  let K := sharedDim in
  let components := if is_0 (rem N 4) then 4 else 1 in
  let aComponents := getMaxComponents K in
  let tileN := if N <? 32 then N else 32 in
  let tileM := if M <? 32 then M else 32 in
  let tileK := if K <? 32 then K else (if K >? 1000 then 32 else 16) in
  let outputNumber :=
    if tileM <? 4 then tileM else getMaxComponents tileM in
  if negb (is_0 (rem tileN components))
     || negb (is_0 (rem tileM outputNumber))
     || negb (is_0 (rem tileK aComponents))
  then
    Throw (render
      [Lit "tileN("; Val (num tileN);
       Lit ") must be divisible by components("; Val (num components);
       Lit "), tileM("; Val (num tileM);
       Lit ") must be divisible by outputNumber("; Val (num outputNumber);
       Lit "), tileK("; Val (num tileK);
       Lit ") must be divisible by aComponents("; Val (num aComponents);
       Lit ")"])
  else
    let numWorkgroups :=
      batch * Math_ceil (quot M tileM) * Math_ceil (quot N tileN) in
    let addBias := not_null bias in
    let hasPreluActivationWeights := not_null preluActivationWeights in
    let fitAOuter := is_0 (rem M tileM) in
    let fitBOuter := is_0 (rem N tileN) in
    let fitInner := is_0 (rem K tileK) in
    Ok {|
      outputShape := outputShape;
      dispatchLayout := {| x := []; y := [1; 2]; z := [0] |};
      dispatch := (numWorkgroups, 1, 1);
      outputComponent := components;
      variableNames :=
        push_if hasPreluActivationWeights "preluActivationWeights"
          (push_if addBias "bias" ["A"; "B"]);
      variableComponents :=
        push_if hasPreluActivationWeights components
          (push_if addBias components [aComponents; components]);
      uniforms := "dimAOuter : i32, dimBOuter : i32, dimInner : i32,";
      workgroupSize := (64, 1, 1);
      transposeA := transposeA;
      transposeB := transposeB;
      addBias := addBias;
      activation := activation;
      hasPreluActivationWeights := hasPreluActivationWeights;
      components := components;
      aComponents := aComponents;
      outputNumber := outputNumber;
      fitAOuter := fitAOuter;
      fitBOuter := fitBOuter;
      fitInner := fitInner;
      tileN := tileN;
      tileM := tileM;
      tileK := tileK;
      shaderKey := render
        [Lit "matMulLWS_"; Val (show_activation activation);
         Lit "_"; Val (flag transposeA);
         Lit "_"; Val (flag transposeB);
         Lit "_"; Val (flag fitAOuter);
         Lit "_"; Val (flag fitBOuter);
         Lit "_"; Val (flag fitInner);
         Lit "_"; Val (num tileK);
         Lit "_"; Val (num tileM);
         Lit "_"; Val (num tileN);
         Lit "_"; Val (num components);
         Lit "_"; Val (num aComponents);
         Lit "_"; Val (num outputNumber)]
    |}.

Definition getUserCode {lib : Snippets} (this : MatMulLWSProgram) : string :=
  render
    [Lit "
      ";
     Val (activationFnSnippet this.(activation)
            this.(hasPreluActivationWeights) (this.(components) =? 4));
     Lit "
      ";
     Val (matMulReadWriteFnSource this.(addBias) this.(activation)
            this.(transposeA) this.(transposeB) this.(fitAOuter)
            this.(fitBOuter) this.(fitInner) this.(components)
            this.(aComponents));
     Lit "
      ";
     Val (makeMatMulLWSSource (fst (fst this.(workgroupSize)))
            this.(outputNumber) this.(components) this.(aComponents)
            this.(tileM) this.(tileN) this.(tileK) false);
     Lit "
    "].

End MatMulLWS.

(** ** The convolution program (lowered to the same tiled matmul) *)

Module Conv2DMMLWS.

Definition getMaxComponents (size : Z) : Z :=
  if is_0 (rem size 4) then 4
  else if is_0 (rem size 3) then 3
  else if is_0 (rem size 2) then 2
  else 1.

Record Conv2DMMLWSProgram : Type := {
  outputShape : Z * Z * Z * Z;
  shaderKey : string;
  dispatchLayout : DispatchLayout;
  dispatch : Z * Z * Z;
  variableNames : list string;
  variableComponents : list Z;
  outputComponent : Z;
  uniforms : string;
  workgroupSize : Z * Z * Z;
  addBias : bool;
  activation : option Activation;
  hasPreluActivationWeights : bool;
  isChannelsLast : bool;
  fitAOuter : bool;
  fitBOuter : bool;
  fitInner : bool;
  components : Z;
  aComponents : Z;
  outputNumber : Z;
  tileN : Z;
  tileM : Z;
  tileK : Z
}.

Definition is_channelsLast (f : DataFormat) : bool :=
  match f with channelsLast => true | channelsFirst => false end.

(** The constructor.  As in the matmul program, [numWorkgroups] is the
    integer product, exact for the doubles of the code below 2^53. *)
Definition constructor (convInfo : Conv2DInfo) (M N K : Z)
    (addBias : bool) (activation : option Activation)
    (hasPreluActivationWeights : bool) : result Conv2DMMLWSProgram :=
  let outputShape := convInfo.(outShape) in
  let isChannelsLast := is_channelsLast convInfo.(dataFormat) in
  let batch := fst (fst (fst outputShape)) in
  let components := if is_0 (rem N 4) then 4 else 1 in
  let aComponents := getMaxComponents K in
  let tileN := if N <? 32 then N else 32 in
  let tileM := if M <? 32 then M else 32 in
  let tileK :=
    if K <? 32 then K
    else (if K >? 1000
          then Math_ceil (quot 32 aComponents) * aComponents
          else Math_ceil (quot 16 aComponents) * aComponents) in
  let outputNumber :=
    if tileM <? 4 then tileM else getMaxComponents tileM in
  if negb (is_0 (rem tileN components))
     || negb (is_0 (rem tileM outputNumber))
     || negb (is_0 (rem tileK aComponents))
  then
    Throw (render
      [Lit "tileN("; Val (num tileN);
       Lit ") must be divisible by components("; Val (num components);
       Lit "), tileM("; Val (num tileM);
       Lit ") must be divisible by outputNumber("; Val (num outputNumber);
       Lit "), tileK("; Val (num tileK);
       Lit ") must be divisible by aComponents("; Val (num aComponents);
       Lit ")"])
  else
    let numWorkgroups :=
      batch * Math_ceil (quot M tileM) * Math_ceil (quot N tileN) in
    let fitAOuter := is_0 (rem M tileM) in
    let fitBOuter := is_0 (rem N tileN) in
    let fitInner := is_0 (rem K tileK) in
    Ok {|
      outputShape := outputShape;
      isChannelsLast := isChannelsLast;
      dispatchLayout := {| x := [3]; y := [1; 2]; z := [0] |};
      dispatch := (numWorkgroups, 1, 1);
      outputComponent := components;
      variableNames :=
        MatMulLWS.push_if hasPreluActivationWeights "preluActivationWeights"
          (MatMulLWS.push_if addBias "bias" ["x"; "W"]);
      variableComponents :=
        MatMulLWS.push_if hasPreluActivationWeights components
          (MatMulLWS.push_if addBias components
             [if aComponents =? 3 then 1 else aComponents; components]);
      uniforms := "filterDims : vec2<i32>, pads : vec2<i32>, strides : vec2<i32>, dilations : vec2<i32>, dimAOuter : i32, dimBOuter : i32, dimInner : i32,";
      workgroupSize := (64, 1, 1);
      addBias := addBias;
      activation := activation;
      hasPreluActivationWeights := hasPreluActivationWeights;
      fitAOuter := fitAOuter;
      fitBOuter := fitBOuter;
      fitInner := fitInner;
      components := components;
      aComponents := aComponents;
      outputNumber := outputNumber;
      tileN := tileN;
      tileM := tileM;
      tileK := tileK;
      shaderKey := render
        [Lit "conv2DMMLWS_"; Val (show_activation activation);
         Lit "}_"; Val (flag fitAOuter);
         Lit "_"; Val (flag fitBOuter);
         Lit "_"; Val (flag fitInner);
         Lit "_"; Val (num tileK);
         Lit "_"; Val (num tileM);
         Lit "_"; Val (num tileN);
         Lit "_"; Val (num components);
         Lit "_"; Val (num aComponents);
         Lit "_"; Val (num outputNumber)]
    |}.

Definition getUserCode {lib : Snippets} (this : Conv2DMMLWSProgram)
    : string :=
  render
    [Lit "
    ";
     Val (conv2dCommonSnippet this.(isChannelsLast) this.(fitAOuter)
            this.(fitBOuter) this.(fitInner) this.(addBias)
            this.(activation) this.(hasPreluActivationWeights)
            this.(aComponents) this.(components) this.(components));
     Lit "
    ";
     Val (MatMulLWS.makeMatMulLWSSource (fst (fst this.(workgroupSize)))
            this.(outputNumber) this.(components) this.(aComponents)
            this.(tileM) this.(tileN) this.(tileK) true);
     Lit "
  "].

End Conv2DMMLWS.

(** ** The specification's vocabulary *)

(** Section 4.1, in the specification's words: the first candidate, in the
    order given, that evenly divides [size]; 1 if none does. *)
Fixpoint select_width (size : Z) (candidates : list Z) : Z :=
  match candidates with
  | [] => 1
  | c :: rest => if size mod c =? 0 then c else select_width size rest
  end.

(** [c] is the ceiling of the rational [a / b], for a positive [b]. *)
Definition is_ceiling (c a b : Z) : Prop := b * (c - 1) < a <= b * c.

(** The three divisibility invariants of a tile configuration (section 3),
    as the guard of both constructors tests them: [tileN % components],
    [tileM % outputNumber] and [tileK % aComponents] are each [=== 0].  A
    remainder by 0 is NaN, which is not 0: a zero width satisfies none of
    them. *)
Definition tile_invariants (tileM tileN tileK : Z)
    (components aComponents outputNumber : Z) : Prop :=
  is_0 (rem tileN components) = true /\
  is_0 (rem tileM outputNumber) = true /\
  is_0 (rem tileK aComponents) = true.

(** ** Counting occurrences in emitted text *)

Module Text.

(** [starts_with p s]: the string [s] begins with [p]. *)
Fixpoint starts_with (p s : string) : bool :=
  match p, s with
  | EmptyString, _ => true
  | String _ _, EmptyString => false
  | String c p', String d s' =>
      if Ascii.eqb c d then starts_with p' s' else false
  end.

(** Number of positions of [s] at which an occurrence of [pat] starts. *)
Fixpoint occ (pat s : string) : nat :=
  match s with
  | EmptyString => 0%nat
  | String _ s' => ((if starts_with pat s then 1 else 0) + occ pat s')%nat
  end.

(** [clash a b]: [a] and [b] differ at a position that both have. *)
Fixpoint clash (a b : string) : bool :=
  match a, b with
  | String c a', String d b' =>
      if Ascii.eqb c d then clash a' b' else true
  | _, _ => false
  end.

(** [pat] clashes with every non-empty suffix of [h]. *)
Fixpoint clash_tails (pat h : string) : bool :=
  match h with
  | EmptyString => true
  | String _ h' => clash pat h && clash_tails pat h'
  end.

(** Every non-empty suffix of [pat] clashes with [h]. *)
Fixpoint tails_clash (pat h : string) : bool :=
  match pat with
  | EmptyString => true
  | String _ pat' => clash pat h && tails_clash pat' h
  end.

(** [separates pat h]: however [h] is laid against [pat], the two differ
    somewhere on their overlap.  No occurrence of [pat] can then touch a
    copy of [h] embedded in a longer text. *)
Definition separates (pat h : string) : bool :=
  match pat with
  | EmptyString => false
  | String _ _ => clash_tails pat h && tails_clash pat h
  end.

(** [lacks c s]: the character [c] does not occur in [s]. *)
Fixpoint lacks (c : ascii) (s : string) : bool :=
  match s with
  | EmptyString => true
  | String d s' => negb (Ascii.eqb d c) && lacks c s'
  end.

Fixpoint all_chars (f : ascii -> bool) (s : string) : bool :=
  match s with
  | EmptyString => true
  | String c s' => f c && all_chars f s'
  end.

(** The characters [num] can print. *)
Definition numeric (c : ascii) : bool :=
  match c with
  | "0" | "1" | "2" | "3" | "4" | "5" | "6" | "7" | "8" | "9" | "-" => true
  | _ => false
  end%char.

Definition non_numeric (s : string) : bool :=
  all_chars (fun c => negb (numeric c)) s.

(** What a chunk list contributes to a count: either it is literal text
    throughout ([Flat]), or it has substituted values, and then only the
    literal text before the first one, the occurrences between the first
    and the last, and the literal text after the last one matter. *)
Inductive summary : Type :=
| Flat (s : string)
| Cut (l : string) (n : nat) (r : string).

Definition join (pat : string) (a b : summary) : summary :=
  match a, b with
  | Flat s, Flat s' => Flat (s ++ s')
  | Flat s, Cut l n r => Cut (s ++ l) n r
  | Cut l n r, Flat s => Cut l n (r ++ s)
  | Cut l n r, Cut l' n' r' => Cut l (n + occ pat (r ++ l') + n') r'
  end%string.

Definition summarize_chunk (c : chunk) : summary :=
  match c with
  | Lit s => Flat s
  | Val _ => Cut "" 0 ""
  end.

Fixpoint summarize (pat : string) (t : list chunk) : summary :=
  match t with
  | [] => Flat ""
  | c :: t' => join pat (summarize_chunk c) (summarize pat t')
  end.

Definition total (pat : string) (s : summary) : nat :=
  match s with
  | Flat s => occ pat s
  | Cut l n r => (occ pat l + n + occ pat r)%nat
  end.

(** Occurrences of [pat] in the template's own text: those inside the
    literal runs between substituted values. *)
Definition own_count (pat : string) (t : list chunk) : nat :=
  total pat (summarize pat t).

(** Every substituted value of the template keeps clear of [pat]. *)
Definition clear_of (pat : string) (c : chunk) : Prop :=
  match c with
  | Lit _ => True
  | Val v => separates pat v = true
  end.

End Text.

Import Text.

(** The imported snippets that reach the kernel template keep clear of
    [pat]: the two value types and the entry-point header. *)
Definition snippets_clear {lib : Snippets} (pat : string)
    (aComponents components : Z) : bool :=
  separates pat (typeSnippet aComponents)
  && separates pat (typeSnippet components)
  && separates pat main.

(** A tile configuration the kernel template is meant for: positive widths
    and the three divisibility invariants. *)
Definition valid_tile (tileM tileN tileK : Z)
    (components aComponents outputNumber : Z) : Prop :=
  0 < components /\ 0 < aComponents /\ 0 < outputNumber /\
  tile_invariants tileM tileN tileK components aComponents outputNumber.

(** ** The shader-key templates *)

(** The key templates of the two constructors, as functions of the
    fields they print. *)
Definition matmul_key (act : option Activation) (tA tB fA fB fI : bool)
    (tK tM tN c a o : Z) : string :=
  render
    [Lit "matMulLWS_"; Val (show_activation act);
     Lit "_"; Val (flag tA); Lit "_"; Val (flag tB);
     Lit "_"; Val (flag fA); Lit "_"; Val (flag fB);
     Lit "_"; Val (flag fI);
     Lit "_"; Val (num tK); Lit "_"; Val (num tM); Lit "_"; Val (num tN);
     Lit "_"; Val (num c); Lit "_"; Val (num a); Lit "_"; Val (num o)].

Definition conv_key (act : option Activation) (fA fB fI : bool)
    (tK tM tN c a o : Z) : string :=
  render
    [Lit "conv2DMMLWS_"; Val (show_activation act);
     Lit "}_"; Val (flag fA); Lit "_"; Val (flag fB);
     Lit "_"; Val (flag fI);
     Lit "_"; Val (num tK); Lit "_"; Val (num tM); Lit "_"; Val (num tN);
     Lit "_"; Val (num c); Lit "_"; Val (num a); Lit "_"; Val (num o)].

(** ** A small snippet library

    Modelled from the spec: the read/write and activation snippets live in
    files outside the sources at hand.  Section 4.4 of the specification
    says of them that the write function applies the bias addition and the
    fused activation, PReLU weights included, if configured; the texts below
    mark exactly that and nothing more.  The library serves to run the
    programs on concrete requests. *)
Definition demo_snippets : Snippets := {|
  typeSnippet c :=
    match c with
    | 1 => "f32"
    | 2 => "vec2<f32>"
    | 3 => "vec3<f32>"
    | _ => "vec4<f32>"
    end;
  main := "fn main()";
  activationFnSnippet act prelu packed :=
    match act with
    | None => ""
    | Some a =>
        ("fn activation(a, coords) { return " ++ Activation_name a
         ++ (if prelu then "(a, getPreluActivationWeightsByOutputCoords(coords))"
             else "(a)") ++ "; }")%string
    end;
  matMulReadWriteFnSource bias act tA tB fA fB fI c a :=
    ("fn mm_write(...) { " ++ (if bias then "value = value + getBiasByOutputCoords(coords); " else "")
     ++ (match act with Some _ => "value = activation(value, coords); " | None => "" end)
     ++ "setOutputAtCoords(coords, value); }")%string;
  conv2dCommonSnippet cl fA fB fI bias act prelu a c c' :=
    ("fn mm_write(...) { " ++ (if bias then "value = value + getBiasByOutputCoords(coords); " else "")
     ++ (match act with Some _ => "value = activation(value, coords); " | None => "" end)
     ++ "setOutputAtCoords(coords, value); }")%string
|}.

(** ** The index arithmetic of the emitted kernel

    What the lines of the kernel template compute once the tile sizes are
    substituted: WGSL [u32] arithmetic wraps modulo 2^32, [/] and [%] are
    quotient and remainder of values that are not negative. *)

Module Wgsl.

Definition u32 (x : Z) : Z := x mod 2 ^ 32.

(** [let virtualGlobalId = workgroupId.z * numWorkgroups.x * numWorkgroups.y
    + workgroupId.y * numWorkgroups.x + workgroupId.x;] *)
Definition virtualGlobalId (workgroupId numWorkgroups : Z * Z * Z) : Z :=
  let '(x, y, z) := workgroupId in
  let '(nx, ny, _) := numWorkgroups in
  u32 (u32 (u32 (u32 (z * nx) * ny) + u32 (y * nx)) + x).

(** [(u32(uniforms.dim) - 1u) / ${tile}u + 1u], the right-hand side of
    [stride0] and [stride1]. *)
Definition stride (dim tile : Z) : Z :=
  u32 (u32 (u32 dim - 1) / tile + 1).

Record origin : Type := {
  batch : Z;
  tileRowStart : Z;
  tileColStart : Z
}.

(** The lines from [let stride0] to [let batch], for the uniforms
    [dimAOuter] and [dimBOuter]. *)
Definition tile_origin (tileM tileN dimAOuter dimBOuter : Z)
    (virtualGlobalId : Z) : origin :=
  let stride0 := stride dimBOuter tileN in
  let tileColStart := u32 ((virtualGlobalId mod stride0) * tileN) in
  let index1 := virtualGlobalId / stride0 in
  let stride1 := stride dimAOuter tileM in
  let tileRowStart := u32 ((index1 mod stride1) * tileM) in
  let batch := index1 / stride1 in
  {| batch := batch;
     tileRowStart := tileRowStart;
     tileColStart := tileColStart |}.

(** The values that [tIndex] takes in
    [for (var tIndex = localIndex; tIndex < bound; tIndex += step)],
    and [k] in [for (var k = 0; k < tileK; k = k + aComponents)].  The loop
    is run with fuel; [bound] rounds are enough for a positive step. *)
Fixpoint strided (fuel : nat) (tIndex bound step : Z) : list Z :=
  match fuel with
  | O => []
  | S fuel' =>
      if tIndex <? bound
      then tIndex :: strided fuel' (u32 (tIndex + step)) bound step
      else []
  end.

Definition loop_indices (start bound step : Z) : list Z :=
  strided (Z.to_nat bound) start bound step.

(** [let inputRow = tIndex / cols; let inputCol = tIndex % cols;] *)
Definition input_cell (cols tIndex : Z) : Z * Z :=
  (tIndex / cols, tIndex mod cols).

(** [let localRow = tIndex / cols * outputNumber;
     let localCol = tIndex % cols;] *)
Definition local_cell (cols outputNumber tIndex : Z) : Z * Z :=
  (u32 (tIndex / cols * outputNumber), tIndex mod cols).

End Wgsl.

(** * Properties *)

(** ** Arithmetic of the JavaScript operators *)

Section Arith.

(** [a % b === 0] for a divisor other than zero. *)
Lemma is_0_rem (a b : Z) : b <> 0 -> is_0 (rem a b) = (Z.rem a b =? 0).
Proof.
  intros Hb. unfold is_0, rem.
  destruct (Z.eqb_spec b 0); [contradiction | reflexivity].
Qed.

Lemma is_0_rem_true (a b : Z) :
  is_0 (rem a b) = true <-> b <> 0 /\ Z.rem a b = 0.
Proof.
  unfold is_0, rem. destruct (Z.eqb_spec b 0) as [->|Hb].
  - split; [discriminate | tauto].
  - rewrite Z.eqb_eq. tauto.
Qed.

Lemma is_0_rem_mod (a b : Z) :
  0 <= a -> 0 < b -> is_0 (rem a b) = (a mod b =? 0).
Proof.
  intros Ha Hb. rewrite is_0_rem by lia. now rewrite Z.rem_mod_nonneg.
Qed.

Lemma is_0_rem_self (a : Z) : 0 < a -> is_0 (rem a a) = true.
Proof.
  intros Ha. apply is_0_rem_true. split; [lia|]. apply Z.rem_same. lia.
Qed.

Lemma is_0_rem_one (a : Z) : is_0 (rem a 1) = true.
Proof. apply is_0_rem_true. split; [lia|]. apply Z.rem_1_r. Qed.

(** [Math.ceil (a / b)] in integer arithmetic. *)
Lemma Math_ceil_quot (a b : Z) :
  0 < b -> Math_ceil (quot a b) = - (- a / b).
Proof.
  intros Hb. destruct b as [|pb|pb]; try lia.
  unfold Math_ceil, quot, Qceiling, Qfloor, Qdiv, Qinv, Qmult, Qopp,
    inject_Z; simpl.
  rewrite Z.mul_1_r. reflexivity.
Qed.

Lemma Math_ceil_is_ceiling (a b : Z) :
  0 < b -> is_ceiling (Math_ceil (quot a b)) a b.
Proof.
  intros Hb. rewrite Math_ceil_quot by assumption. unfold is_ceiling.
  pose proof (Z.div_mod (- a) b ltac:(lia)) as E.
  pose proof (Z.mod_pos_bound (- a) b Hb) as B.
  nia.
Qed.

Lemma is_ceiling_unique (c c' a b : Z) :
  0 < b -> is_ceiling c a b -> is_ceiling c' a b -> c = c'.
Proof. unfold is_ceiling. intros Hb H H'. nia. Qed.

End Arith.

(** ** The vector-width selectors *)

Section Widths.

Lemma matmul_getMaxComponents_cases (n : Z) :
  let w := MatMulLWS.getMaxComponents n in
  (w = 4 /\ Z.rem n 4 = 0) \/
  (w = 2 /\ Z.rem n 4 <> 0 /\ Z.rem n 2 = 0) \/
  (w = 1 /\ Z.rem n 4 <> 0 /\ Z.rem n 2 <> 0).
Proof.
  unfold MatMulLWS.getMaxComponents. rewrite !is_0_rem by lia. cbv zeta.
  destruct (Z.eqb_spec (Z.rem n 4) 0); [now left|].
  destruct (Z.eqb_spec (Z.rem n 2) 0); [right; left | right; right]; auto.
Qed.

Lemma conv_getMaxComponents_cases (n : Z) :
  let w := Conv2DMMLWS.getMaxComponents n in
  (w = 4 /\ Z.rem n 4 = 0) \/
  (w = 3 /\ Z.rem n 4 <> 0 /\ Z.rem n 3 = 0) \/
  (w = 2 /\ Z.rem n 4 <> 0 /\ Z.rem n 3 <> 0 /\ Z.rem n 2 = 0) \/
  (w = 1 /\ Z.rem n 4 <> 0 /\ Z.rem n 3 <> 0 /\ Z.rem n 2 <> 0).
Proof.
  unfold Conv2DMMLWS.getMaxComponents. rewrite !is_0_rem by lia. cbv zeta.
  destruct (Z.eqb_spec (Z.rem n 4) 0); [now left|].
  destruct (Z.eqb_spec (Z.rem n 3) 0); [right; left; auto|].
  destruct (Z.eqb_spec (Z.rem n 2) 0);
    [right; right; left | right; right; right]; auto.
Qed.

Lemma matmul_getMaxComponents_rem (n : Z) :
  Z.rem n (MatMulLWS.getMaxComponents n) = 0.
Proof.
  destruct (matmul_getMaxComponents_cases n) as [[-> H]|[[-> [_ H]]|[-> _]]];
    auto using Z.rem_1_r.
Qed.

Lemma conv_getMaxComponents_rem (n : Z) :
  Z.rem n (Conv2DMMLWS.getMaxComponents n) = 0.
Proof.
  destruct (conv_getMaxComponents_cases n)
    as [[-> H]|[[-> [_ H]]|[[-> [_ [_ H]]]|[-> _]]]];
    auto using Z.rem_1_r.
Qed.

Lemma matmul_getMaxComponents_range (n : Z) :
  1 <= MatMulLWS.getMaxComponents n <= 4.
Proof.
  destruct (matmul_getMaxComponents_cases n) as [[-> _]|[[-> _]|[-> _]]];
    lia.
Qed.

Lemma conv_getMaxComponents_range (n : Z) :
  1 <= Conv2DMMLWS.getMaxComponents n <= 4.
Proof.
  destruct (conv_getMaxComponents_cases n)
    as [[-> _]|[[-> _]|[[-> _]|[-> _]]]]; lia.
Qed.

(** On sizes that are not negative each selector is [select_width] on its
    own list. *)
Lemma matmul_getMaxComponents_select (n : Z) :
  0 <= n -> MatMulLWS.getMaxComponents n = select_width n [4; 2; 1].
Proof.
  intros Hn. unfold MatMulLWS.getMaxComponents, select_width.
  rewrite !is_0_rem_mod by lia.
  destruct (n mod 4 =? 0); [reflexivity|].
  destruct (n mod 2 =? 0); [reflexivity|].
  now rewrite Z.mod_1_r.
Qed.

Lemma conv_getMaxComponents_select (n : Z) :
  0 <= n -> Conv2DMMLWS.getMaxComponents n = select_width n [4; 3; 2; 1].
Proof.
  intros Hn. unfold Conv2DMMLWS.getMaxComponents, select_width.
  rewrite !is_0_rem_mod by lia.
  destruct (n mod 4 =? 0); [reflexivity|].
  destruct (n mod 3 =? 0); [reflexivity|].
  destruct (n mod 2 =? 0); [reflexivity|].
  now rewrite Z.mod_1_r.
Qed.

Lemma rem_divides (n c : Z) : c <> 0 -> Z.rem n c = 0 <-> (c | n).
Proof. intros Hc. now apply Z.rem_divide. Qed.

End Widths.

(** C5. For every positive K, the width chosen for the reduction dimension
    (by the selector of either file) is the first candidate of its list, in
    descending order, that divides K: it belongs to the list, divides K
    exactly, no larger candidate of the list divides K, and it is 1 when no
    larger candidate divides K. *)
Theorem getMaxComponents_divides_and_maximal (K : Z) (HK : 0 < K) :
  (let w := Conv2DMMLWS.getMaxComponents K in
   w = select_width K [4; 3; 2; 1] /\
   In w [4; 3; 2; 1] /\
   (w | K) /\
   (forall c, In c [4; 3; 2; 1] -> w < c -> ~ (c | K)) /\
   ((forall c, In c [4; 3; 2] -> ~ (c | K)) -> w = 1))
  /\
  (let w := MatMulLWS.getMaxComponents K in
   w = select_width K [4; 2; 1] /\
   In w [4; 2; 1] /\
   (w | K) /\
   (forall c, In c [4; 2; 1] -> w < c -> ~ (c | K)) /\
   ((forall c, In c [4; 2] -> ~ (c | K)) -> w = 1)).
Proof.
  split; cbv zeta.
  - split; [apply conv_getMaxComponents_select; lia|].
    pose proof (conv_getMaxComponents_rem K) as D.
    destruct (conv_getMaxComponents_cases K)
      as [[E H]|[[E H]|[[E H]|[E H]]]]; rewrite E in *;
      (split; [simpl; tauto|]);
      (split; [apply rem_divides; [lia|assumption]|]);
      (split;
       [intros c Hc Hlt; simpl in Hc;
        destruct Hc as [<-|[<-|[<-|[<-|[]]]]]; try lia;
        rewrite <- rem_divides by lia; tauto
       |intros Hno; try reflexivity; exfalso]).
    + apply (Hno 4); [simpl; tauto|]. apply rem_divides; [lia|tauto].
    + apply (Hno 3); [simpl; tauto|]. apply rem_divides; [lia|tauto].
    + apply (Hno 2); [simpl; tauto|]. apply rem_divides; [lia|tauto].
  - split; [apply matmul_getMaxComponents_select; lia|].
    pose proof (matmul_getMaxComponents_rem K) as D.
    destruct (matmul_getMaxComponents_cases K)
      as [[E H]|[[E H]|[E H]]]; rewrite E in *;
      (split; [simpl; tauto|]);
      (split; [apply rem_divides; [lia|assumption]|]);
      (split;
       [intros c Hc Hlt; simpl in Hc;
        destruct Hc as [<-|[<-|[<-|[]]]]; try lia;
        rewrite <- rem_divides by lia; tauto
       |intros Hno; try reflexivity; exfalso]).
    + apply (Hno 4); [simpl; tauto|]. apply rem_divides; [lia|tauto].
    + apply (Hno 2); [simpl; tauto|]. apply rem_divides; [lia|tauto].
Qed.

Lemma getMaxComponents_divides_and_maximal_witness :
  0 < 9 /\
  Conv2DMMLWS.getMaxComponents 9 = 3 /\ MatMulLWS.getMaxComponents 9 = 1 /\
  (3 | 9) /\ ~ (4 | 9).
Proof.
  split; [lia|].
  split; [reflexivity|]. split; [reflexivity|].
  destruct (getMaxComponents_divides_and_maximal 9 ltac:(lia))
    as [[_ [_ [D [M _]]]] _].
  split; [exact D|].
  apply M; [simpl; tauto|reflexivity].
Defined.

(** ** The tile planner inside the constructors *)

Section Planner.

Lemma tileN_rem (N : Z) :
  1 <= N ->
  is_0 (rem (if N <? 32 then N else 32) (if is_0 (rem N 4) then 4 else 1))
  = true.
Proof.
  intros HN. rewrite (is_0_rem N 4) by lia.
  destruct (Z.eqb_spec (Z.rem N 4) 0) as [E|E].
  - apply is_0_rem_true. split; [lia|].
    destruct (N <? 32); [exact E | reflexivity].
  - apply is_0_rem_one.
Qed.

(** What a passed guard [a % b === 0] says in arithmetic. *)
Lemma guard_mod (a b : Z) : is_0 (rem a b) = true -> a mod b = 0.
Proof.
  intros H. apply is_0_rem_true in H as [Hb H].
  now apply Z.rem_mod_eq_0.
Qed.

Lemma tile_pos (d : Z) : 1 <= d -> 1 <= (if d <? 32 then d else 32) <= d.
Proof. intros Hd. destruct (Z.ltb_spec d 32); lia. Qed.

Lemma matmul_outputNumber_rem (t : Z) :
  1 <= t ->
  is_0 (rem t (if t <? 4 then t else MatMulLWS.getMaxComponents t)) = true.
Proof.
  intros Ht. destruct (t <? 4).
  - apply is_0_rem_self. lia.
  - apply is_0_rem_true. pose proof (matmul_getMaxComponents_range t).
    split; [lia | apply matmul_getMaxComponents_rem].
Qed.

Lemma conv_outputNumber_rem (t : Z) :
  1 <= t ->
  is_0 (rem t (if t <? 4 then t else Conv2DMMLWS.getMaxComponents t)) = true.
Proof.
  intros Ht. destruct (t <? 4).
  - apply is_0_rem_self. lia.
  - apply is_0_rem_true. pose proof (conv_getMaxComponents_range t).
    split; [lia | apply conv_getMaxComponents_rem].
Qed.

Lemma matmul_tileK_rem (K : Z) :
  is_0 (rem (if K <? 32 then K else (if K >? 1000 then 32 else 16))
            (MatMulLWS.getMaxComponents K)) = true.
Proof.
  apply is_0_rem_true. pose proof (matmul_getMaxComponents_range K).
  split; [lia|].
  destruct (K <? 32); [apply matmul_getMaxComponents_rem|].
  destruct (matmul_getMaxComponents_cases K) as [[-> _]|[[-> _]|[-> _]]];
    destruct (K >? 1000); reflexivity.
Qed.

Lemma conv_tileK_rem (K : Z) :
  let a := Conv2DMMLWS.getMaxComponents K in
  is_0 (rem (if K <? 32 then K
             else (if K >? 1000 then Math_ceil (quot 32 a) * a
                   else Math_ceil (quot 16 a) * a)) a) = true.
Proof.
  cbv zeta. apply is_0_rem_true.
  pose proof (conv_getMaxComponents_range K).
  split; [lia|].
  destruct (K <? 32); [apply conv_getMaxComponents_rem|].
  destruct (conv_getMaxComponents_cases K)
    as [[-> _]|[[-> _]|[[-> _]|[-> _]]]];
    destruct (K >? 1000); reflexivity.
Qed.

(** The branch that throws is not taken on positive dimensions. *)
Lemma matmul_constructor_total batch M N K tA tB bias act prelu :
  1 <= M -> 1 <= N -> 1 <= K ->
  exists p,
    MatMulLWS.constructor (batch, M, N) K tA tB bias act prelu = Ok p.
Proof.
  intros HM HN HK. unfold MatMulLWS.constructor. cbv beta iota zeta.
  rewrite (tileN_rem N HN).
  rewrite (matmul_outputNumber_rem _ (proj1 (tile_pos M HM))).
  rewrite (matmul_tileK_rem K).
  simpl. eexists. reflexivity.
Qed.

Lemma conv_constructor_total info M N K addBias act prelu :
  1 <= M -> 1 <= N -> 1 <= K ->
  exists q, Conv2DMMLWS.constructor info M N K addBias act prelu = Ok q.
Proof.
  intros HM HN HK. unfold Conv2DMMLWS.constructor. cbv beta iota zeta.
  rewrite (tileN_rem N HN).
  rewrite (conv_outputNumber_rem _ (proj1 (tile_pos M HM))).
  rewrite (conv_tileK_rem K).
  simpl. eexists. reflexivity.
Qed.

(** What a successfully built matmul program holds. *)
Lemma matmul_constructor_fields batch M N K tA tB bias act prelu p :
  MatMulLWS.constructor (batch, M, N) K tA tB bias act prelu = Ok p ->
  let tM := if M <? 32 then M else 32 in
  let tN := if N <? 32 then N else 32 in
  MatMulLWS.tileM p = tM /\
  MatMulLWS.tileN p = tN /\
  MatMulLWS.tileK p
    = (if K <? 32 then K else (if K >? 1000 then 32 else 16)) /\
  MatMulLWS.components p = (if is_0 (rem N 4) then 4 else 1) /\
  MatMulLWS.aComponents p = MatMulLWS.getMaxComponents K /\
  MatMulLWS.outputNumber p
    = (if tM <? 4 then tM else MatMulLWS.getMaxComponents tM) /\
  MatMulLWS.dispatch p
    = (batch * Math_ceil (quot M tM) * Math_ceil (quot N tN), 1, 1) /\
  MatMulLWS.addBias p = MatMulLWS.not_null bias /\
  MatMulLWS.hasPreluActivationWeights p = MatMulLWS.not_null prelu /\
  MatMulLWS.activation p = act /\
  MatMulLWS.transposeA p = tA /\
  MatMulLWS.transposeB p = tB /\
  MatMulLWS.workgroupSize p = (64, 1, 1).
Proof.
  unfold MatMulLWS.constructor. cbv beta iota zeta.
  match goal with |- (if ?g then _ else _) = _ -> _ => destruct g end;
    [discriminate|].
  intros H. injection H as <-. simpl. repeat split.
Qed.

(** What a successfully built convolution program holds. *)
Lemma conv_constructor_fields info M N K addBias act prelu q :
  Conv2DMMLWS.constructor info M N K addBias act prelu = Ok q ->
  let tM := if M <? 32 then M else 32 in
  let tN := if N <? 32 then N else 32 in
  let a := Conv2DMMLWS.getMaxComponents K in
  Conv2DMMLWS.tileM q = tM /\
  Conv2DMMLWS.tileN q = tN /\
  Conv2DMMLWS.tileK q
    = (if K <? 32 then K
       else (if K >? 1000 then Math_ceil (quot 32 a) * a
             else Math_ceil (quot 16 a) * a)) /\
  Conv2DMMLWS.components q = (if is_0 (rem N 4) then 4 else 1) /\
  Conv2DMMLWS.aComponents q = a /\
  Conv2DMMLWS.outputNumber q
    = (if tM <? 4 then tM else Conv2DMMLWS.getMaxComponents tM) /\
  Conv2DMMLWS.dispatch q
    = (fst (fst (fst (outShape info))) * Math_ceil (quot M tM)
       * Math_ceil (quot N tN), 1, 1) /\
  Conv2DMMLWS.addBias q = addBias /\
  Conv2DMMLWS.hasPreluActivationWeights q = prelu /\
  Conv2DMMLWS.activation q = act /\
  Conv2DMMLWS.isChannelsLast q
    = Conv2DMMLWS.is_channelsLast (dataFormat info) /\
  Conv2DMMLWS.workgroupSize q = (64, 1, 1).
Proof.
  unfold Conv2DMMLWS.constructor. cbv beta iota zeta.
  match goal with |- (if ?g then _ else _) = _ -> _ => destruct g end;
    [discriminate|].
  intros H. injection H as <-. simpl. repeat split.
Qed.

End Planner.

Section Operands.

(** Operand names and declared widths of a built matmul program. *)
Lemma matmul_constructor_operands batch M N K tA tB bias act prelu p :
  MatMulLWS.constructor (batch, M, N) K tA tB bias act prelu = Ok p ->
  let c := MatMulLWS.components p in
  MatMulLWS.variableNames p
    = MatMulLWS.push_if (MatMulLWS.not_null prelu) "preluActivationWeights"
        (MatMulLWS.push_if (MatMulLWS.not_null bias) "bias" ["A"; "B"]) /\
  MatMulLWS.variableComponents p
    = MatMulLWS.push_if (MatMulLWS.not_null prelu) c
        (MatMulLWS.push_if (MatMulLWS.not_null bias) c
           [MatMulLWS.aComponents p; c]).
Proof.
  unfold MatMulLWS.constructor. cbv beta iota zeta.
  match goal with |- (if ?g then _ else _) = _ -> _ => destruct g end;
    [discriminate|].
  intros H. injection H as <-. simpl. split; reflexivity.
Qed.

Lemma conv_constructor_operands info M N K addBias act prelu q :
  Conv2DMMLWS.constructor info M N K addBias act prelu = Ok q ->
  let c := Conv2DMMLWS.components q in
  let a := Conv2DMMLWS.aComponents q in
  Conv2DMMLWS.variableNames q
    = MatMulLWS.push_if prelu "preluActivationWeights"
        (MatMulLWS.push_if addBias "bias" ["x"; "W"]) /\
  Conv2DMMLWS.variableComponents q
    = MatMulLWS.push_if prelu c
        (MatMulLWS.push_if addBias c [if a =? 3 then 1 else a; c]).
Proof.
  unfold Conv2DMMLWS.constructor. cbv beta iota zeta.
  match goal with |- (if ?g then _ else _) = _ -> _ => destruct g end;
    [discriminate|].
  intros H. injection H as <-. simpl. split; reflexivity.
Qed.

End Operands.

(** C1. For every batch >= 1 and all M, N, K >= 1, both constructors build
    their program instead of throwing, and the tile configuration they derive
    is valid: the tiles and the widths components, aComponents and
    outputNumber are positive, and the three tests of the guard pass, that
    is components divides tileN, outputNumber divides tileM and aComponents
    divides tileK. *)
Theorem constructors_satisfy_invariants
    (batch M N K : Z) (tA tB : bool) (bias prelu : option TensorInfo)
    (act : option Activation) (info : Conv2DInfo) (addBias hasPrelu : bool) :
  1 <= batch -> 1 <= M -> 1 <= N -> 1 <= K ->
  fst (fst (fst (outShape info))) = batch ->
  (exists p,
     MatMulLWS.constructor (batch, M, N) K tA tB bias act prelu = Ok p /\
     (forall msg,
        MatMulLWS.constructor (batch, M, N) K tA tB bias act prelu
        <> Throw msg) /\
     valid_tile (MatMulLWS.tileM p) (MatMulLWS.tileN p)
       (MatMulLWS.tileK p) (MatMulLWS.components p)
       (MatMulLWS.aComponents p) (MatMulLWS.outputNumber p) /\
     0 < MatMulLWS.tileM p /\ 0 < MatMulLWS.tileN p /\
     0 < MatMulLWS.tileK p /\
     MatMulLWS.tileN p mod MatMulLWS.components p = 0 /\
     MatMulLWS.tileM p mod MatMulLWS.outputNumber p = 0 /\
     MatMulLWS.tileK p mod MatMulLWS.aComponents p = 0)
  /\
  (exists q,
     Conv2DMMLWS.constructor info M N K addBias act hasPrelu = Ok q /\
     (forall msg,
        Conv2DMMLWS.constructor info M N K addBias act hasPrelu
        <> Throw msg) /\
     valid_tile (Conv2DMMLWS.tileM q) (Conv2DMMLWS.tileN q)
       (Conv2DMMLWS.tileK q) (Conv2DMMLWS.components q)
       (Conv2DMMLWS.aComponents q) (Conv2DMMLWS.outputNumber q) /\
     0 < Conv2DMMLWS.tileM q /\ 0 < Conv2DMMLWS.tileN q /\
     0 < Conv2DMMLWS.tileK q /\
     Conv2DMMLWS.tileN q mod Conv2DMMLWS.components q = 0 /\
     Conv2DMMLWS.tileM q mod Conv2DMMLWS.outputNumber q = 0 /\
     Conv2DMMLWS.tileK q mod Conv2DMMLWS.aComponents q = 0).
Proof.
  intros Hb HM HN HK Hinfo.
  pose proof (tile_pos M HM) as PM. pose proof (tile_pos N HN) as PN.
  split.
  - destruct (matmul_constructor_total batch M N K tA tB bias act prelu
                HM HN HK) as [p Hp].
    exists p. split; [exact Hp|]. split; [intros msg; rewrite Hp; discriminate|].
    destruct (matmul_constructor_fields _ _ _ _ _ _ _ _ _ _ Hp)
      as (-> & -> & -> & -> & -> & -> & _).
    pose proof (tileN_rem N HN) as GN.
    pose proof (matmul_outputNumber_rem _ (proj1 PM)) as GM.
    pose proof (matmul_tileK_rem K) as GK.
    pose proof (matmul_getMaxComponents_range K) as RK.
    pose proof (matmul_getMaxComponents_range (if M <? 32 then M else 32))
      as RM.
    assert (Pc : 0 < (if is_0 (rem N 4) then 4 else 1))
      by (destruct (is_0 (rem N 4)); lia).
    assert (Po : 0 < (if (if M <? 32 then M else 32) <? 4
                      then if M <? 32 then M else 32
                      else MatMulLWS.getMaxComponents
                             (if M <? 32 then M else 32)))
      by (destruct ((if M <? 32 then M else 32) <? 4); lia).
    assert (Pk : 0 < (if K <? 32 then K
                      else if K >? 1000 then 32 else 16))
      by (destruct (K <? 32); [lia | destruct (K >? 1000); lia]).
    split; [|split; [lia | split; [lia | split; [exact Pk|]]]].
    + unfold valid_tile, tile_invariants.
      split; [exact Pc|]. split; [lia|]. split; [exact Po|].
      split; [exact GN|]. split; [exact GM | exact GK].
    + split; [exact (guard_mod _ _ GN)|].
      split; [exact (guard_mod _ _ GM) | exact (guard_mod _ _ GK)].
  - destruct (conv_constructor_total info M N K addBias act hasPrelu
                HM HN HK) as [q Hq].
    exists q. split; [exact Hq|]. split; [intros msg; rewrite Hq; discriminate|].
    destruct (conv_constructor_fields _ _ _ _ _ _ _ _ Hq)
      as (-> & -> & -> & -> & -> & -> & _).
    pose proof (tileN_rem N HN) as GN.
    pose proof (conv_outputNumber_rem _ (proj1 PM)) as GM.
    pose proof (conv_tileK_rem K) as GK. cbv zeta in GK.
    pose proof (conv_getMaxComponents_range K) as RK.
    pose proof (conv_getMaxComponents_range (if M <? 32 then M else 32))
      as RM.
    assert (Pc : 0 < (if is_0 (rem N 4) then 4 else 1))
      by (destruct (is_0 (rem N 4)); lia).
    assert (Po : 0 < (if (if M <? 32 then M else 32) <? 4
                      then if M <? 32 then M else 32
                      else Conv2DMMLWS.getMaxComponents
                             (if M <? 32 then M else 32)))
      by (destruct ((if M <? 32 then M else 32) <? 4); lia).
    assert (Pk : 0 < (if K <? 32 then K
                      else if K >? 1000
                           then Math_ceil
                                  (quot 32 (Conv2DMMLWS.getMaxComponents K))
                                * Conv2DMMLWS.getMaxComponents K
                           else Math_ceil
                                  (quot 16 (Conv2DMMLWS.getMaxComponents K))
                                * Conv2DMMLWS.getMaxComponents K)).
    { destruct (Z.ltb_spec K 32); [lia|].
      destruct (conv_getMaxComponents_cases K)
        as [[-> _]|[[-> _]|[[-> _]|[-> _]]]];
        destruct (K >? 1000); reflexivity. }
    split; [|split; [lia | split; [lia | split; [exact Pk|]]]].
    + unfold valid_tile, tile_invariants.
      split; [exact Pc|]. split; [lia|]. split; [exact Po|].
      split; [exact GN|]. split; [exact GM | exact GK].
    + split; [exact (guard_mod _ _ GN)|].
      split; [exact (guard_mod _ _ GM) | exact (guard_mod _ _ GK)].
Qed.

Lemma constructors_satisfy_invariants_witness :
  exists p q,
    MatMulLWS.constructor (2, 33, 31) 1002 true false None (Some relu) None
      = Ok p /\
    Conv2DMMLWS.constructor
      {| dataFormat := channelsLast; outShape := (2, 3, 11, 31) |}
      33 31 1002 true (Some relu) false = Ok q /\
    valid_tile (MatMulLWS.tileM p) (MatMulLWS.tileN p)
      (MatMulLWS.tileK p) (MatMulLWS.components p)
      (MatMulLWS.aComponents p) (MatMulLWS.outputNumber p) /\
    valid_tile (Conv2DMMLWS.tileM q) (Conv2DMMLWS.tileN q)
      (Conv2DMMLWS.tileK q) (Conv2DMMLWS.components q)
      (Conv2DMMLWS.aComponents q) (Conv2DMMLWS.outputNumber q) /\
    (MatMulLWS.tileM p, MatMulLWS.tileN p, MatMulLWS.tileK p) = (32, 31, 32) /\
    (Conv2DMMLWS.tileM q, Conv2DMMLWS.tileN q, Conv2DMMLWS.tileK q)
    = (32, 31, 33).
Proof.
  destruct (constructors_satisfy_invariants 2 33 31 1002 true false None None
              (Some relu)
              {| dataFormat := channelsLast; outShape := (2, 3, 11, 31) |}
              true false
              ltac:(lia) ltac:(lia) ltac:(lia) ltac:(lia) eq_refl)
    as [[p [Hp [_ [Ip _]]]] [q [Hq [_ [Iq _]]]]].
  exists p, q. split; [exact Hp|]. split; [exact Hq|].
  split; [exact Ip|]. split; [exact Iq|].
  injection Hp as <-. injection Hq as <-. split; reflexivity.
Defined.

(** C3 (as the code has it). A matmul program built for output shape
    (batch = 1, M = 64, N = 64) and shared dimension K = 64 has components 4,
    aComponents 4, tileM 32, tileN 32, outputNumber 4 and tileK 16 (K is at
    least 32 and not above 1000), and dispatches 1 * 2 * 2 = 4 workgroups on
    the X axis. *)
Theorem matmul_64_64_64_configuration
    (tA tB : bool) (bias prelu : option TensorInfo)
    (act : option Activation) :
  exists p,
    MatMulLWS.constructor (1, 64, 64) 64 tA tB bias act prelu = Ok p /\
    MatMulLWS.components p = 4 /\
    MatMulLWS.aComponents p = 4 /\
    MatMulLWS.tileM p = 32 /\
    MatMulLWS.tileN p = 32 /\
    MatMulLWS.tileK p = 16 /\
    MatMulLWS.outputNumber p = 4 /\
    MatMulLWS.dispatch p = (1 * 2 * 2, 1, 1) /\
    MatMulLWS.dispatch p = (4, 1, 1).
Proof.
  eexists. split; [reflexivity|]. simpl. repeat split.
Qed.

(** C3 fails as stated: the program built for M = N = K = 64 has tileK 16,
    not 32. *)
Lemma matmul_64_64_64_tileK_is_not_32 :
  ~ exists p,
      MatMulLWS.constructor (1, 64, 64) 64 false false None None None = Ok p /\
      MatMulLWS.components p = 4 /\
      MatMulLWS.aComponents p = 4 /\
      MatMulLWS.tileM p = 32 /\
      MatMulLWS.tileN p = 32 /\
      MatMulLWS.tileK p = 32 /\
      MatMulLWS.outputNumber p = 4 /\
      MatMulLWS.dispatch p = (4, 1, 1).
Proof.
  intros [p [Hp [_ [_ [_ [_ [HK _]]]]]]].
  injection Hp as <-. simpl in HK. discriminate HK.
Qed.

(** C4 (as the code has it). In a built program, outputNumber is tileM when
    tileM < 4; otherwise it is the first width that divides tileM, taken from
    4, 2, 1 in the matmul program and from 4, 3, 2, 1 in the convolution
    program. *)
Theorem outputNumber_from_tileM
    (batch M N K : Z) (tA tB : bool) (bias prelu : option TensorInfo)
    (act : option Activation) (info : Conv2DInfo) (addBias hasPrelu : bool)
    (p : MatMulLWS.MatMulLWSProgram) (q : Conv2DMMLWS.Conv2DMMLWSProgram) :
  MatMulLWS.constructor (batch, M, N) K tA tB bias act prelu = Ok p ->
  Conv2DMMLWS.constructor info M N K addBias act hasPrelu = Ok q ->
  MatMulLWS.outputNumber p
    = (if MatMulLWS.tileM p <? 4 then MatMulLWS.tileM p
       else select_width (MatMulLWS.tileM p) [4; 2; 1])
  /\
  Conv2DMMLWS.outputNumber q
    = (if Conv2DMMLWS.tileM q <? 4 then Conv2DMMLWS.tileM q
       else select_width (Conv2DMMLWS.tileM q) [4; 3; 2; 1]).
Proof.
  intros Hp Hq.
  destruct (matmul_constructor_fields _ _ _ _ _ _ _ _ _ _ Hp)
    as (-> & _ & _ & _ & _ & -> & _).
  destruct (conv_constructor_fields _ _ _ _ _ _ _ _ Hq)
    as (-> & _ & _ & _ & _ & -> & _).
  destruct (Z.ltb_spec (if M <? 32 then M else 32) 4) as [Hlt|Hge].
  - split; reflexivity.
  - rewrite matmul_getMaxComponents_select by lia.
    rewrite conv_getMaxComponents_select by lia.
    split; reflexivity.
Qed.

Lemma outputNumber_from_tileM_witness :
  exists p q,
    MatMulLWS.constructor (1, 9, 5) 7 false false None None None = Ok p /\
    Conv2DMMLWS.constructor
      {| dataFormat := channelsLast; outShape := (1, 3, 3, 5) |}
      9 5 7 false None false = Ok q /\
    MatMulLWS.outputNumber p = 1 /\ Conv2DMMLWS.outputNumber q = 3.
Proof.
  eexists. eexists.
  split; [reflexivity|]. split; [reflexivity|].
  destruct (outputNumber_from_tileM 1 9 5 7 false false None None None
              {| dataFormat := channelsLast; outShape := (1, 3, 3, 5) |}
              false false _ _ eq_refl eq_refl) as [Hp Hq].
  split; [exact Hp | exact Hq].
Defined.

(** C4 fails as stated for the convolution program: with M = 9 the tile has
    tileM = 9, not below 4, and outputNumber is 3, while the largest of 4, 2,
    1 that divides 9 is 1. *)
Lemma conv_outputNumber_is_3_for_tileM_9 :
  exists q,
    Conv2DMMLWS.constructor
      {| dataFormat := channelsLast; outShape := (1, 3, 3, 5) |}
      9 5 7 false None false = Ok q /\
    Conv2DMMLWS.tileM q = 9 /\
    (Conv2DMMLWS.tileM q <? 4) = false /\
    Conv2DMMLWS.outputNumber q = 3 /\
    select_width (Conv2DMMLWS.tileM q) [4; 2; 1] = 1 /\
    Conv2DMMLWS.outputNumber q
      <> (if Conv2DMMLWS.tileM q <? 4 then Conv2DMMLWS.tileM q
          else select_width (Conv2DMMLWS.tileM q) [4; 2; 1]).
Proof.
  eexists. split; [reflexivity|]. simpl.
  repeat split; discriminate.
Qed.

(** C6. For every batch >= 1 and all M, N, K >= 1 whose output has fewer
    than 2^53 elements, in both programs the dispatch is
    [batch * ceil(M / tileM) * ceil(N / tileN), 1, 1]: the whole workgroup
    count is on the X axis, Y and Z are 1.  The count does not exceed the
    number of output elements, so it stays below 2^53, where the product
    of JavaScript numbers is the product of the integers. *)
Theorem dispatch_is_linear_workgroup_count
    (batch M N K : Z) (tA tB : bool) (bias prelu : option TensorInfo)
    (act : option Activation) (info : Conv2DInfo) (addBias hasPrelu : bool) :
  1 <= batch -> 1 <= M -> 1 <= N -> 1 <= K ->
  batch * M * N < 2 ^ 53 ->
  fst (fst (fst (outShape info))) = batch ->
  (exists p cM cN,
     MatMulLWS.constructor (batch, M, N) K tA tB bias act prelu = Ok p /\
     is_ceiling cM M (MatMulLWS.tileM p) /\
     is_ceiling cN N (MatMulLWS.tileN p) /\
     MatMulLWS.dispatch p = (batch * cM * cN, 1, 1) /\
     1 <= batch * cM <= batch * cM * cN /\
     batch * cM * cN <= batch * M * N < 2 ^ 53)
  /\
  (exists q cM cN,
     Conv2DMMLWS.constructor info M N K addBias act hasPrelu = Ok q /\
     is_ceiling cM M (Conv2DMMLWS.tileM q) /\
     is_ceiling cN N (Conv2DMMLWS.tileN q) /\
     Conv2DMMLWS.dispatch q = (batch * cM * cN, 1, 1) /\
     1 <= batch * cM <= batch * cM * cN /\
     batch * cM * cN <= batch * M * N < 2 ^ 53).
Proof.
  intros Hb HM HN HK Hsafe Hinfo.
  pose proof (tile_pos M HM) as PM. pose proof (tile_pos N HN) as PN.
  assert (Bound : forall cM cN,
            is_ceiling cM M (if M <? 32 then M else 32) ->
            is_ceiling cN N (if N <? 32 then N else 32) ->
            1 <= batch * cM <= batch * cM * cN /\
            batch * cM * cN <= batch * M * N < 2 ^ 53).
  { intros cM cN [M1 M2] [N1 N2].
    revert M1 M2 N1 N2 PM PN.
    generalize (if M <? 32 then M else 32) as tM.
    generalize (if N <? 32 then N else 32) as tN.
    intros tN tM M1 M2 N1 N2 PM PN.
    assert (CM : 1 <= cM <= M) by nia.
    assert (CN : 1 <= cN <= N) by nia.
    assert (B1 : 1 * 1 <= batch * cM)
      by (apply Z.mul_le_mono_nonneg; lia).
    assert (B2 : batch * cM * 1 <= batch * cM * cN)
      by (apply Z.mul_le_mono_nonneg_l; lia).
    assert (B3 : batch * cM <= batch * M)
      by (apply Z.mul_le_mono_nonneg_l; lia).
    assert (B4 : batch * cM * cN <= batch * M * N)
      by (apply Z.mul_le_mono_nonneg; lia).
    lia. }
  split.
  - destruct (matmul_constructor_total batch M N K tA tB bias act prelu
                HM HN HK) as [p Hp].
    exists p.
    destruct (matmul_constructor_fields _ _ _ _ _ _ _ _ _ _ Hp)
      as (-> & -> & _ & _ & _ & _ & -> & _).
    do 2 eexists. split; [exact Hp|].
    split; [apply Math_ceil_is_ceiling; lia|].
    split; [apply Math_ceil_is_ceiling; lia|].
    split; [reflexivity|].
    apply Bound; apply Math_ceil_is_ceiling; lia.
  - destruct (conv_constructor_total info M N K addBias act hasPrelu
                HM HN HK) as [q Hq].
    exists q.
    destruct (conv_constructor_fields _ _ _ _ _ _ _ _ Hq)
      as (-> & -> & _ & _ & _ & _ & -> & _).
    rewrite Hinfo.
    do 2 eexists. split; [exact Hq|].
    split; [apply Math_ceil_is_ceiling; lia|].
    split; [apply Math_ceil_is_ceiling; lia|].
    split; [reflexivity|].
    apply Bound; apply Math_ceil_is_ceiling; lia.
Qed.

Lemma dispatch_is_linear_workgroup_count_witness :
  exists p q,
    MatMulLWS.constructor (3, 70, 33) 5 false false None None None = Ok p /\
    Conv2DMMLWS.constructor
      {| dataFormat := channelsFirst; outShape := (3, 7, 10, 33) |}
      70 33 5 false None false = Ok q /\
    MatMulLWS.dispatch p = (3 * 3 * 2, 1, 1) /\
    Conv2DMMLWS.dispatch q = (3 * 3 * 2, 1, 1).
Proof.
  destruct (dispatch_is_linear_workgroup_count 3 70 33 5 false false None None
              None {| dataFormat := channelsFirst; outShape := (3, 7, 10, 33) |}
              false false
              ltac:(lia) ltac:(lia) ltac:(lia) ltac:(lia)
              ltac:(reflexivity) eq_refl)
    as [[p [cM [cN [Hp [HcM [HcN [Dp _]]]]]]]
        [q [cM' [cN' [Hq [HcM' [HcN' [Dq _]]]]]]]].
  exists p, q. split; [exact Hp|]. split; [exact Hq|].
  injection Hp as <-. injection Hq as <-. simpl. split; reflexivity.
Defined.

(** ** Strings, rendering and counting *)

Section Strings.

Local Open Scope string_scope.

Lemma append_assoc (a b c : string) : (a ++ b) ++ c = a ++ (b ++ c).
Proof. induction a as [|x a IH]; simpl; [reflexivity | now rewrite IH]. Qed.

Lemma append_nil_r (a : string) : a ++ "" = a.
Proof. induction a as [|x a IH]; simpl; [reflexivity | now rewrite IH]. Qed.

Lemma render_app (t u : list chunk) :
  render (t ++ u)%list = render t ++ render u.
Proof.
  induction t as [|c t IH]; simpl; [reflexivity|].
  now rewrite IH, append_assoc.
Qed.

Lemma starts_with_clash (p t b : string) :
  clash p t = true -> starts_with p (t ++ b) = false.
Proof.
  revert t. induction p as [|c p IH]; intros [|d t]; simpl;
    try discriminate.
  destruct (Ascii.eqb c d); [apply IH | reflexivity].
Qed.

(** A text that [pat] clashes with at every offset hosts no occurrence. *)
Lemma occ_skip (pat t b : string) :
  clash_tails pat t = true -> occ pat (t ++ b) = occ pat b.
Proof.
  induction t as [|d t IH]; simpl; [reflexivity|].
  intros H. apply andb_prop in H as [H1 H2].
  change (String d (t ++ b)) with (String d t ++ b).
  rewrite (starts_with_clash _ _ _ H1). simpl. now apply IH.
Qed.

Lemma starts_with_through (q u h b : string) :
  tails_clash q h = true ->
  starts_with q (u ++ (h ++ b)) = starts_with q u.
Proof.
  revert q. induction u as [|d u IH]; intros [|c q]; simpl;
    try reflexivity.
  - intros H. apply andb_prop in H as [H1 _].
    now apply (starts_with_clash (String c q)).
  - intros H. apply andb_prop in H as [_ H2].
    destruct (Ascii.eqb c d); [now apply IH | reflexivity].
Qed.

Lemma occ_app_left (pat a h b : string) :
  tails_clash pat h = true ->
  occ pat (a ++ (h ++ b)) = (occ pat a + occ pat (h ++ b))%nat.
Proof.
  intros H. induction a as [|c a IH]; [reflexivity|].
  change (String c a ++ (h ++ b)) with (String c (a ++ (h ++ b))).
  cbn [occ].
  change (String c (a ++ (h ++ b))) with (String c a ++ (h ++ b)).
  rewrite (starts_with_through _ _ _ _ H), IH. lia.
Qed.

(** The defining property of a separator: occurrences of [pat] around it
    are counted on each side independently. *)
Lemma occ_separated (pat a h b : string) :
  separates pat h = true ->
  occ pat (a ++ (h ++ b)) = (occ pat a + occ pat b)%nat.
Proof.
  unfold separates. destruct pat as [|c pat]; [discriminate|].
  intros H. apply andb_prop in H as [H1 H2].
  now rewrite (occ_app_left _ _ _ _ H2), (occ_skip _ _ _ H1).
Qed.

Lemma join_Flat_Flat (pat a s : string) (x : summary) :
  join pat (Flat a) (join pat (Flat s) x) = join pat (Flat (a ++ s)) x.
Proof. destruct x; simpl; now rewrite append_assoc. Qed.

Lemma join_assoc (pat : string) (x y w : summary) :
  join pat (join pat x y) w = join pat x (join pat y w).
Proof.
  destruct x, y, w; simpl; rewrite ?append_assoc; try reflexivity;
    f_equal; lia.
Qed.

Lemma join_nil_l (pat : string) (x : summary) : join pat (Flat "") x = x.
Proof. destruct x; reflexivity. Qed.

Lemma join_nil_r (pat : string) (x : summary) : join pat x (Flat "") = x.
Proof. destruct x; simpl; now rewrite append_nil_r. Qed.

Lemma summarize_app (pat : string) (t u : list chunk) :
  summarize pat (t ++ u)%list
  = join pat (summarize pat t) (summarize pat u).
Proof.
  induction t as [|c t IH].
  - symmetry. apply join_nil_l.
  - cbn [app summarize]. now rewrite IH, join_assoc.
Qed.

Lemma occ_render_from (pat : string) (t : list chunk) :
  Forall (clear_of pat) t ->
  forall a,
    occ pat (a ++ render t)
    = total pat (join pat (Flat a) (summarize pat t)).
Proof.
  induction 1 as [|c t Hc Ht IH]; intros a.
  - reflexivity.
  - destruct c as [s|h]; cbn [render chunk_text summarize summarize_chunk].
    + rewrite join_Flat_Flat, <- IH. now rewrite append_assoc.
    + cbn [clear_of] in Hc. rewrite (occ_separated _ _ _ _ Hc).
      pose proof (IH "") as E. cbn [append] in E.
      rewrite join_nil_l in E. rewrite E.
      destruct (summarize pat t); cbn [join total append];
        rewrite append_nil_r; lia.
Qed.

(** Counting in a rendered template reduces to counting in its literal
    text, as long as the substituted values keep clear of the pattern. *)
Theorem occ_render (pat : string) (t : list chunk) :
  Forall (clear_of pat) t ->
  occ pat (render t) = own_count pat t.
Proof.
  intros H. unfold own_count. change (render t) with ("" ++ render t).
  now rewrite (occ_render_from pat t H), join_nil_l.
Qed.

(** A loop whose every round has the same literal frame. *)
Lemma summarize_flat_map (pat l r : string) (f : nat -> list chunk) :
  (forall i, summarize pat (f i) = Cut l 0 r) ->
  occ pat (r ++ l) = 0%nat ->
  forall xs, xs <> [] -> summarize pat (flat_map f xs) = Cut l 0 r.
Proof.
  intros Hf Hrl. induction xs as [|i xs IH]; [contradiction|].
  intros _. simpl. rewrite summarize_app, Hf.
  destruct xs as [|j xs].
  - simpl. now rewrite append_nil_r.
  - rewrite IH by discriminate. simpl. now rewrite Hrl.
Qed.

Lemma summarize_for_upto (pat l r : string) (n : Z)
    (body : Z -> list chunk) :
  0 < n ->
  (forall i, summarize pat (body i) = Cut l 0 r) ->
  occ pat (r ++ l) = 0%nat ->
  summarize pat (for_upto n body) = Cut l 0 r.
Proof.
  intros Hn Hb Hrl. unfold for_upto.
  apply summarize_flat_map; auto.
  destruct (Z.to_nat n) eqn:E; [lia | discriminate].
Qed.

Lemma clear_for_upto (pat : string) (n : Z) (body : Z -> list chunk) :
  (forall i, Forall (clear_of pat) (body i)) ->
  Forall (clear_of pat) (for_upto n body).
Proof.
  intros Hb. unfold for_upto.
  induction (seq 0 (Z.to_nat n)) as [|i xs IH]; simpl.
  - constructor.
  - apply Forall_app. split; [apply Hb | exact IH].
Qed.

(** *** Printed numbers keep clear of patterns without digits *)

Lemma uint_numeric (d : Decimal.uint) :
  all_chars numeric (NilEmpty.string_of_uint d) = true.
Proof. induction d; simpl; auto. Qed.

Lemma num_numeric (n : Z) : all_chars numeric (num n) = true.
Proof.
  unfold num, NilZero.string_of_int, NilZero.string_of_uint.
  destruct (Z.to_int n) as [d|d]; destruct d; simpl;
    auto using uint_numeric.
Qed.

Lemma num_nonempty (n : Z) : num n <> "".
Proof.
  unfold num, NilZero.string_of_int, NilZero.string_of_uint.
  destruct (Z.to_int n) as [d|d]; destruct d; simpl; discriminate.
Qed.

Lemma clash_heads (c d : ascii) (p h : string) :
  numeric c = false -> numeric d = true ->
  clash (String c p) (String d h) = true.
Proof.
  intros Hc Hd. simpl. destruct (Ascii.eqb_spec c d) as [->|_];
    [congruence | reflexivity].
Qed.

Lemma clash_tails_numeric (c : ascii) (p h : string) :
  numeric c = false -> all_chars numeric h = true ->
  clash_tails (String c p) h = true.
Proof.
  intros Hc. induction h as [|d h IH]; [reflexivity|].
  intros H. cbn [all_chars] in H. apply andb_prop in H as [Hd Hh].
  cbn [clash_tails]. rewrite (clash_heads _ _ _ _ Hc Hd). now apply IH.
Qed.

Lemma tails_clash_numeric (pat : string) (d : ascii) (h : string) :
  non_numeric pat = true -> numeric d = true ->
  tails_clash pat (String d h) = true.
Proof.
  intros Hp Hd. induction pat as [|c p IH]; [reflexivity|].
  unfold non_numeric in Hp. cbn [all_chars] in Hp.
  apply andb_prop in Hp as [Hc Hp]. apply negb_true_iff in Hc.
  cbn [tails_clash]. rewrite (clash_heads _ _ _ _ Hc Hd). now apply IH.
Qed.

Lemma separates_num (pat : string) (n : Z) :
  pat <> "" -> non_numeric pat = true -> separates pat (num n) = true.
Proof.
  intros Hne Hp. pose proof (num_numeric n) as Hn.
  pose proof (num_nonempty n) as Hnn.
  destruct (num n) as [|d h]; [contradiction|].
  destruct pat as [|c p]; [contradiction|].
  unfold separates. apply andb_true_intro. split.
  - apply clash_tails_numeric; [|exact Hn].
    unfold non_numeric in Hp. cbn [all_chars] in Hp.
    apply andb_prop in Hp as [Hc _]. now apply negb_true_iff in Hc.
  - cbn [all_chars] in Hn. apply andb_prop in Hn as [Hd _].
    now apply tails_clash_numeric.
Qed.

End Strings.

(** ** The emitted kernel text *)

Ltac split_clear H :=
  unfold snippets_clear in H;
  apply andb_prop in H as [H ?]; apply andb_prop in H as [? ?].

Ltac frame_loop n round :=
  erewrite (summarize_for_upto _ _ _ n);
  [ | assumption | intros ?; round | vm_compute; reflexivity ].

Section KernelText.

Context {lib : Snippets}.
Variables (workgroupSize outputNumber components aComponents : Z).
Variables (tileM tileN tileK : Z).
Variable isConv : bool.
Hypothesis Ha : 0 < aComponents.
Hypothesis Ho : 0 < outputNumber.

Let calc := MatMulLWS.calcResult_chunks outputNumber components aComponents.
Let decls := MatMulLWS.shared_decls components aComponents tileM tileN tileK.
Let tiles := MatMulLWS.tile_indices tileM tileN.
Let batches := MatMulLWS.batch_indices isConv.
Let accs := MatMulLWS.accumulators outputNumber components tileK.
Let loads :=
  MatMulLWS.load_phase workgroupSize components aComponents tileM tileN tileK.
Let compute :=
  MatMulLWS.compute_phase workgroupSize outputNumber components aComponents
    tileM tileN tileK.
Let body :=
  MatMulLWS.loop_body workgroupSize outputNumber components aComponents
    tileM tileN tileK.
Let finish :=
  MatMulLWS.epilogue workgroupSize outputNumber components tileM tileN.
Let kernel :=
  MatMulLWS.kernel_chunks workgroupSize outputNumber components aComponents
    tileM tileN tileK isConv.
Let text :=
  MatMulLWS.makeMatMulLWSSource workgroupSize outputNumber components
    aComponents tileM tileN tileK isConv.

Ltac calc_frame :=
  unfold MatMulLWS.calcResult_chunks;
  rewrite !summarize_app;
  frame_loop aComponents ltac:(reflexivity);
  frame_loop outputNumber ltac:(
    rewrite summarize_app;
    frame_loop aComponents ltac:(destruct (aComponents =? 1); reflexivity);
    reflexivity).

Ltac unfold_parts :=
  unfold text, kernel, body, compute, loads, finish, accs, batches, tiles,
    decls, calc,
    MatMulLWS.makeMatMulLWSSource, MatMulLWS.kernel_chunks,
    MatMulLWS.prologue, MatMulLWS.loop_body, MatMulLWS.compute_phase,
    MatMulLWS.shared_decls.

(** How the text is assembled from its parts. *)
Lemma text_parts :
  text = (render decls ++ render tiles ++ render batches ++ render accs
          ++ "for (var t = 0u; t < numTiles; t = t + 1u) {"
          ++ render body ++ "}" ++ render finish)%string.
Proof.
  unfold_parts. rewrite !render_app, !append_assoc. reflexivity.
Qed.

Lemma body_parts :
  render body
  = (render loads ++ "workgroupBarrier();" ++ render compute
     ++ "workgroupBarrier();" ++ "
    ")%string.
Proof.
  unfold_parts. rewrite !render_app, ?append_assoc. reflexivity.
Qed.

Lemma compute_parts :
  exists pre post : string,
    render compute = (pre ++ render calc ++ post)%string.
Proof.
  unfold_parts. do 2 eexists. rewrite !render_app. reflexivity.
Qed.

Section Pattern.
Variable pat : string.
Hypothesis pat_ne : pat <> "".
Hypothesis pat_nn : non_numeric pat = true.
Hypothesis pat_clear : snippets_clear pat aComponents components = true.

Ltac clear_parts :=
  unfold MatMulLWS.shared_A, MatMulLWS.shared_B, MatMulLWS.tile_indices,
    MatMulLWS.batch_indices, MatMulLWS.accumulators,
    MatMulLWS.load_phase, MatMulLWS.epilogue, MatMulLWS.barrier,
    MatMulLWS.loop_header, MatMulLWS.loop_close,
    MatMulLWS.calcResult_chunks;
  unfold MatMulLWS.aValueType, MatMulLWS.bValueType,
    MatMulLWS.outValueType;
  repeat first
    [ apply Forall_nil
    | apply Forall_app; split
    | apply clear_for_upto; intros ?
    | apply Forall_cons; [cbn [clear_of] | ]
    | exact I
    | assumption
    | apply separates_num; assumption
    | match goal with
      | |- context [if (aComponents =? 1) then _ else _] =>
          destruct (aComponents =? 1)
      end ].

Lemma kernel_clear : Forall (clear_of pat) kernel.
Proof. split_clear pat_clear. unfold_parts. clear_parts. Qed.

Lemma loads_clear : Forall (clear_of pat) loads.
Proof. split_clear pat_clear. unfold_parts. clear_parts. Qed.

Lemma compute_clear : Forall (clear_of pat) compute.
Proof. split_clear pat_clear. unfold_parts. clear_parts. Qed.

Lemma body_clear : Forall (clear_of pat) body.
Proof. split_clear pat_clear. unfold_parts. clear_parts. Qed.

End Pattern.

(** Counting a marker in the template's own text: frame the unrolled loops
    of [calcResult], then compute on the literal runs. *)
Ltac own_in :=
  unfold own_count; unfold_parts; rewrite ?summarize_app;
  try calc_frame;
  destruct isConv; vm_compute; reflexivity.

Lemma own_shared_decls : own_count "var<workgroup>" kernel = 2%nat.
Proof. own_in. Qed.

Lemma own_barriers : own_count "workgroupBarrier()" kernel = 2%nat.
Proof. own_in. Qed.

Lemma own_barriers_body : own_count "workgroupBarrier()" body = 2%nat.
Proof. own_in. Qed.

Lemma own_barriers_loads : own_count "workgroupBarrier()" loads = 0%nat.
Proof. own_in. Qed.

Lemma own_barriers_compute : own_count "workgroupBarrier()" compute = 0%nat.
Proof. own_in. Qed.

Lemma own_reads : own_count "mm_read" kernel = 2%nat.
Proof. own_in. Qed.

Lemma own_reads_loads : own_count "mm_read" loads = 2%nat.
Proof. own_in. Qed.

Lemma own_batchA : own_count "let batchA = " kernel = 1%nat.
Proof. own_in. Qed.

Lemma own_batchB : own_count "let batchB = " kernel = 1%nat.
Proof. own_in. Qed.

(** The same counts in the rendered text, for snippets that keep clear of
    the marker. *)
Ltac count_by clear_lemma own_lemma :=
  intros; unfold text, MatMulLWS.makeMatMulLWSSource;
  rewrite occ_render
    by (apply clear_lemma; [discriminate | reflexivity | assumption]);
  apply own_lemma.

Lemma count_shared_decls :
  snippets_clear "var<workgroup>" aComponents components = true ->
  occ "var<workgroup>" text = 2%nat.
Proof. count_by kernel_clear own_shared_decls. Qed.

Lemma count_barriers :
  snippets_clear "workgroupBarrier()" aComponents components = true ->
  occ "workgroupBarrier()" text = 2%nat /\
  occ "workgroupBarrier()" (render loads) = 0%nat /\
  occ "workgroupBarrier()" (render compute) = 0%nat.
Proof.
  intros H. split; [|split].
  - count_by kernel_clear own_barriers.
  - count_by loads_clear own_barriers_loads.
  - count_by compute_clear own_barriers_compute.
Qed.

Lemma count_reads :
  snippets_clear "mm_read" aComponents components = true ->
  occ "mm_read" text = 2%nat /\ occ "mm_read" (render loads) = 2%nat.
Proof.
  intros H. split.
  - count_by kernel_clear own_reads.
  - count_by loads_clear own_reads_loads.
Qed.

Lemma count_batchA :
  snippets_clear "let batchA = " aComponents components = true ->
  occ "let batchA = " text = 1%nat.
Proof. count_by kernel_clear own_batchA. Qed.

Lemma count_batchB :
  snippets_clear "let batchB = " aComponents components = true ->
  occ "let batchB = " text = 1%nat.
Proof. count_by kernel_clear own_batchB. Qed.

End KernelText.

(** C8. For every valid tile configuration the kernel text opens with the
    two workgroup-shared buffers: mm_Asub, tileM rows of tileK / aComponents
    vectors of width aComponents, then mm_Bsub, tileK rows of
    tileN / components vectors of width components (both quotients exact).
    The template's own text declares no other: var<workgroup> occurs in it
    exactly twice.  It holds exactly two workgroupBarrier() calls, both in
    the body of the reduction loop: one closes the phase with the two
    cooperative tile reads, the other closes the accumulation phase built
    around calcResult.  The same counts hold in the rendered text whenever
    the imported snippets keep clear of the marker counted. *)
Theorem kernel_has_two_shared_tiles_and_two_barriers
    {lib : Snippets}
    (workgroupSize outputNumber components aComponents : Z)
    (tileM tileN tileK : Z) (isConv : bool) :
  valid_tile tileM tileN tileK components aComponents outputNumber ->
  let template :=
    MatMulLWS.kernel_chunks workgroupSize outputNumber components
      aComponents tileM tileN tileK isConv in
  let text :=
    MatMulLWS.makeMatMulLWSSource workgroupSize outputNumber components
      aComponents tileM tileN tileK isConv in
  let loads :=
    MatMulLWS.load_phase workgroupSize components aComponents
      tileM tileN tileK in
  let compute :=
    MatMulLWS.compute_phase workgroupSize outputNumber components
      aComponents tileM tileN tileK in
  (* the two shared tiles *)
  ((exists rest,
      text = ("
  var<workgroup> mm_Asub: array<array<" ++ typeSnippet aComponents ++ ", "
              ++ num (tileK / aComponents) ++ ">, " ++ num tileM ++ ">;
  var<workgroup> mm_Bsub: array<array<" ++ typeSnippet components ++ ", "
              ++ num (tileN / components) ++ ">, " ++ num tileK ++ ">;"
              ++ rest)%string) /\
   tileK / aComponents * aComponents = tileK /\
   tileN / components * components = tileN /\
   own_count "var<workgroup>" template = 2%nat /\
   (snippets_clear "var<workgroup>" aComponents components = true ->
    occ "var<workgroup>" text = 2%nat))
  /\
  (* the two barriers *)
  ((exists pre post,
      text = (pre ++ "for (var t = 0u; t < numTiles; t = t + 1u) {"
              ++ render loads ++ "workgroupBarrier();"
              ++ render compute ++ "workgroupBarrier();" ++ "
    }" ++ post)%string) /\
   (exists pre post,
      render compute
      = (pre ++ MatMulLWS.calcResult outputNumber components aComponents
         ++ post)%string) /\
   own_count "workgroupBarrier()" template = 2%nat /\
   own_count "workgroupBarrier()" loads = 0%nat /\
   own_count "workgroupBarrier()" compute = 0%nat /\
   own_count "mm_read" template = 2%nat /\
   own_count "mm_read" loads = 2%nat /\
   (snippets_clear "workgroupBarrier()" aComponents components = true ->
    occ "workgroupBarrier()" text = 2%nat /\
    occ "workgroupBarrier()" (render loads) = 0%nat /\
    occ "workgroupBarrier()" (render compute) = 0%nat) /\
   (snippets_clear "mm_read" aComponents components = true ->
    occ "mm_read" text = 2%nat /\ occ "mm_read" (render loads) = 2%nat)).
Proof.
  intros (Hc & Ha & Ho & HN & HM & HK).
  apply guard_mod in HN, HM, HK. cbv zeta.
  split; [split; [|split; [|split; [|split]]]
         |split; [|split; [|split; [|split; [|split; [|split; [|split;
            [|split]]]]]]]].
  - rewrite text_parts. eexists.
    unfold MatMulLWS.shared_decls. rewrite render_app.
    cbn [render chunk_text MatMulLWS.shared_A MatMulLWS.shared_B
           MatMulLWS.aValueType MatMulLWS.bValueType].
    rewrite !append_assoc. cbn [append]. reflexivity.
  - apply Z.div_exact in HK; lia.
  - apply Z.div_exact in HN; lia.
  - now apply own_shared_decls.
  - now apply count_shared_decls.
  - rewrite text_parts, body_parts.
    exists (render (MatMulLWS.shared_decls components aComponents tileM
                      tileN tileK)
            ++ render (MatMulLWS.tile_indices tileM tileN)
            ++ render (MatMulLWS.batch_indices isConv)
            ++ render (MatMulLWS.accumulators outputNumber components
                         tileK))%string.
    eexists. rewrite !append_assoc. cbn [append]. reflexivity.
  - apply compute_parts.
  - now apply own_barriers.
  - now apply own_barriers_loads.
  - now apply own_barriers_compute.
  - now apply own_reads.
  - now apply own_reads_loads.
  - now apply count_barriers.
  - now apply count_reads.
Qed.

Lemma kernel_has_two_shared_tiles_and_two_barriers_witness :
  let text :=
    MatMulLWS.makeMatMulLWSSource (lib := demo_snippets)
      64 3 4 3 9 32 33 true in
  valid_tile 9 32 33 4 3 3 /\
  occ "var<workgroup>" text = 2%nat /\
  occ "workgroupBarrier()" text = 2%nat.
Proof.
  assert (V : valid_tile 9 32 33 4 3 3)
    by (unfold valid_tile, tile_invariants; repeat split; reflexivity).
  pose proof (kernel_has_two_shared_tiles_and_two_barriers
                (lib := demo_snippets) 64 3 4 3 9 32 33 true V) as H.
  cbv zeta in H |- *.
  destruct H as [[_ [_ [_ [_ Hd]]]] [_ [_ [_ [_ [_ [_ [_ [Hb _]]]]]]]]].
  split; [exact V|]. split; [exact (Hd eq_refl) | exact (proj1 (Hb eq_refl))].
Defined.

(** Where the kernel template sits in the code each program emits. *)
Lemma conv_getUserCode_kernel {lib : Snippets}
    (q : Conv2DMMLWS.Conv2DMMLWSProgram) :
  Conv2DMMLWS.getUserCode q
  = (("
    " ++ conv2dCommonSnippet (Conv2DMMLWS.isChannelsLast q)
           (Conv2DMMLWS.fitAOuter q) (Conv2DMMLWS.fitBOuter q)
           (Conv2DMMLWS.fitInner q) (Conv2DMMLWS.addBias q)
           (Conv2DMMLWS.activation q)
           (Conv2DMMLWS.hasPreluActivationWeights q)
           (Conv2DMMLWS.aComponents q) (Conv2DMMLWS.components q)
           (Conv2DMMLWS.components q) ++ "
    ")
     ++ MatMulLWS.makeMatMulLWSSource
          (fst (fst (Conv2DMMLWS.workgroupSize q)))
          (Conv2DMMLWS.outputNumber q) (Conv2DMMLWS.components q)
          (Conv2DMMLWS.aComponents q) (Conv2DMMLWS.tileM q)
          (Conv2DMMLWS.tileN q) (Conv2DMMLWS.tileK q) true
     ++ "
  ")%string.
Proof.
  unfold Conv2DMMLWS.getUserCode. cbn [render chunk_text].
  rewrite !append_assoc, append_nil_r. reflexivity.
Qed.

Lemma matmul_getUserCode_kernel {lib : Snippets}
    (p : MatMulLWS.MatMulLWSProgram) :
  MatMulLWS.getUserCode p
  = (("
      " ++ activationFnSnippet (MatMulLWS.activation p)
             (MatMulLWS.hasPreluActivationWeights p)
             (MatMulLWS.components p =? 4)%Z ++ "
      " ++ matMulReadWriteFnSource (MatMulLWS.addBias p)
             (MatMulLWS.activation p) (MatMulLWS.transposeA p)
             (MatMulLWS.transposeB p) (MatMulLWS.fitAOuter p)
             (MatMulLWS.fitBOuter p) (MatMulLWS.fitInner p)
             (MatMulLWS.components p) (MatMulLWS.aComponents p) ++ "
      ")
     ++ MatMulLWS.makeMatMulLWSSource
          (fst (fst (MatMulLWS.workgroupSize p)))
          (MatMulLWS.outputNumber p) (MatMulLWS.components p)
          (MatMulLWS.aComponents p) (MatMulLWS.tileM p)
          (MatMulLWS.tileN p) (MatMulLWS.tileK p) false
     ++ "
    ")%string.
Proof.
  unfold MatMulLWS.getUserCode. cbn [render chunk_text].
  rewrite !append_assoc, append_nil_r. reflexivity.
Qed.

(** C9. In a built convolution program, aComponents is 3 exactly when K is
    divisible by 3 and not by 4.  In that case the first declared operand
    width, variableComponents[0], is 1, while the kernel text that
    getUserCode emits still opens with mm_Asub declared as tileM rows of
    tileK / 3 vectors of width 3 (tileK being a multiple of 3).  For every
    other aComponents the declared width is aComponents itself. *)
Theorem conv_declares_width_1_for_aComponents_3
    {lib : Snippets} (info : Conv2DInfo) (M N K : Z) (addBias hasPrelu : bool)
    (act : option Activation) (q : Conv2DMMLWS.Conv2DMMLWSProgram) :
  Conv2DMMLWS.constructor info M N K addBias act hasPrelu = Ok q ->
  let a := Conv2DMMLWS.aComponents q in
  let kernel :=
    MatMulLWS.makeMatMulLWSSource 64 (Conv2DMMLWS.outputNumber q)
      (Conv2DMMLWS.components q) a (Conv2DMMLWS.tileM q)
      (Conv2DMMLWS.tileN q) (Conv2DMMLWS.tileK q) true in
  (a = 3 <-> Z.rem K 3 = 0 /\ Z.rem K 4 <> 0) /\
  (a = 3 ->
   nth_error (Conv2DMMLWS.variableComponents q) 0 = Some 1 /\
   (exists pre post,
      Conv2DMMLWS.getUserCode q = (pre ++ kernel ++ post)%string) /\
   (exists rest,
      kernel = ("
  var<workgroup> mm_Asub: array<array<" ++ typeSnippet 3 ++ ", "
                ++ num (Conv2DMMLWS.tileK q / 3) ++ ">, "
                ++ num (Conv2DMMLWS.tileM q) ++ ">;" ++ rest)%string) /\
   3 * (Conv2DMMLWS.tileK q / 3) = Conv2DMMLWS.tileK q) /\
  (a <> 3 -> nth_error (Conv2DMMLWS.variableComponents q) 0 = Some a).
Proof.
  intros Hq. cbv zeta.
  destruct (conv_constructor_operands _ _ _ _ _ _ _ _ Hq) as [_ Hvc].
  cbv zeta in Hvc.
  pose proof (conv_constructor_fields _ _ _ _ _ _ _ _ Hq) as F.
  cbv zeta in F.
  destruct F as (_ & _ & HtK & _ & Ha & _ & _ & _ & _ & _ & _ & Hwg).
  split; [|split].
  - rewrite Ha.
    destruct (conv_getMaxComponents_cases K)
      as [[E H]|[[E H]|[[E H]|[E H]]]]; rewrite E; split;
      try discriminate; tauto.
  - intros E3. split; [|split; [|split]].
    + rewrite Hvc, E3. unfold MatMulLWS.push_if.
      destruct hasPrelu, addBias; reflexivity.
    + rewrite conv_getUserCode_kernel, Hwg. cbn [fst].
      do 2 eexists. reflexivity.
    + rewrite E3, text_parts. eexists.
      unfold MatMulLWS.shared_decls. rewrite render_app.
      cbn [render chunk_text MatMulLWS.shared_A MatMulLWS.aValueType].
      rewrite !append_assoc. cbn [append]. reflexivity.
    + rewrite HtK. rewrite <- Ha, E3.
      assert (R3 : Z.rem K 3 = 0).
      { rewrite Ha in E3.
        destruct (conv_getMaxComponents_cases K)
          as [[E H]|[[E H]|[[E H]|[E H]]]]; rewrite E in E3;
          try discriminate; tauto. }
      destruct (K <? 32).
      * apply Z.rem_mod_eq_0 in R3; [|lia].
        apply Z.div_exact in R3; lia.
      * destruct (K >? 1000); reflexivity.
  - intros Hne. rewrite Hvc.
    destruct (Z.eqb_spec (Conv2DMMLWS.aComponents q) 3) as [E|_];
      [contradiction|].
    unfold MatMulLWS.push_if. destruct hasPrelu, addBias; reflexivity.
Qed.

Lemma conv_declares_width_1_for_aComponents_3_witness :
  exists q,
    Conv2DMMLWS.constructor
      {| dataFormat := channelsLast; outShape := (1, 3, 3, 5) |}
      9 5 1002 true None true = Ok q /\
    Conv2DMMLWS.aComponents q = 3 /\
    nth_error (Conv2DMMLWS.variableComponents q) 0 = Some 1 /\
    3 * (Conv2DMMLWS.tileK q / 3) = Conv2DMMLWS.tileK q.
Proof.
  eexists. split; [reflexivity|]. split; [reflexivity|].
  destruct (conv_declares_width_1_for_aComponents_3 (lib := demo_snippets)
              {| dataFormat := channelsLast; outShape := (1, 3, 3, 5) |}
              9 5 1002 true true None _ eq_refl) as [_ [H3 _]].
  destruct (H3 eq_refl) as [Hvc [_ [_ HtK]]].
  split; [exact Hvc | exact HtK].
Defined.

(** Widths of a built program are positive. *)
Lemma matmul_constructor_positive batch M N K tA tB bias act prelu p :
  1 <= M ->
  MatMulLWS.constructor (batch, M, N) K tA tB bias act prelu = Ok p ->
  0 < MatMulLWS.aComponents p /\ 0 < MatMulLWS.outputNumber p.
Proof.
  intros HM Hp.
  destruct (matmul_constructor_fields _ _ _ _ _ _ _ _ _ _ Hp)
    as (_ & _ & _ & _ & -> & -> & _).
  pose proof (tile_pos M HM).
  pose proof (matmul_getMaxComponents_range K).
  pose proof (matmul_getMaxComponents_range (if M <? 32 then M else 32)).
  destruct (Z.ltb_spec (if M <? 32 then M else 32) 4); lia.
Qed.

Lemma conv_constructor_positive info M N K addBias act prelu q :
  1 <= M ->
  Conv2DMMLWS.constructor info M N K addBias act prelu = Ok q ->
  0 < Conv2DMMLWS.aComponents q /\ 0 < Conv2DMMLWS.outputNumber q.
Proof.
  intros HM Hq.
  destruct (conv_constructor_fields _ _ _ _ _ _ _ _ Hq)
    as (_ & _ & _ & _ & -> & -> & _).
  pose proof (tile_pos M HM).
  pose proof (conv_getMaxComponents_range K).
  pose proof (conv_getMaxComponents_range (if M <? 32 then M else 32)).
  destruct (Z.ltb_spec (if M <? 32 then M else 32) 4); lia.
Qed.

(** C10. For every request with M, N, K >= 1, the code each program emits
    holds the kernel template, and the template binds batchA and batchB
    exactly once each, right after the batch index is recovered.  The
    convolution program (isConv true) leaves batchA at that index and sets
    batchB to the constant 0; the matmul program (isConv false) takes the
    index modulo the batch dimension of each input, aShape[0] and bShape[0].
    The bindings are unique in the rendered text as well whenever the
    imported snippets keep clear of the marker counted. *)
Theorem batch_indices_by_variant
    {lib : Snippets}
    (batch M N K : Z) (tA tB : bool) (bias prelu : option TensorInfo)
    (act : option Activation) (info : Conv2DInfo) (addBias hasPrelu : bool) :
  1 <= M -> 1 <= N -> 1 <= K ->
  (exists q,
     Conv2DMMLWS.constructor info M N K addBias act hasPrelu = Ok q /\
     let a := Conv2DMMLWS.aComponents q in
     let c := Conv2DMMLWS.components q in
     let template :=
       MatMulLWS.kernel_chunks 64 (Conv2DMMLWS.outputNumber q) c a
         (Conv2DMMLWS.tileM q) (Conv2DMMLWS.tileN q) (Conv2DMMLWS.tileK q)
         true in
     let kernel :=
       MatMulLWS.makeMatMulLWSSource 64 (Conv2DMMLWS.outputNumber q) c a
         (Conv2DMMLWS.tileM q) (Conv2DMMLWS.tileN q) (Conv2DMMLWS.tileK q)
         true in
     (exists pre post,
        Conv2DMMLWS.getUserCode q = (pre ++ kernel ++ post)%string) /\
     (exists pre post,
        kernel = (pre ++ "let batch = index1 / stride1;
    let batchA = i32(batch);
    let batchB = 0i;" ++ post)%string) /\
     own_count "let batchA = " template = 1%nat /\
     own_count "let batchB = " template = 1%nat /\
     (snippets_clear "let batchA = " a c = true ->
      occ "let batchA = " kernel = 1%nat) /\
     (snippets_clear "let batchB = " a c = true ->
      occ "let batchB = " kernel = 1%nat))
  /\
  (exists p,
     MatMulLWS.constructor (batch, M, N) K tA tB bias act prelu = Ok p /\
     let a := MatMulLWS.aComponents p in
     let c := MatMulLWS.components p in
     let template :=
       MatMulLWS.kernel_chunks 64 (MatMulLWS.outputNumber p) c a
         (MatMulLWS.tileM p) (MatMulLWS.tileN p) (MatMulLWS.tileK p)
         false in
     let kernel :=
       MatMulLWS.makeMatMulLWSSource 64 (MatMulLWS.outputNumber p) c a
         (MatMulLWS.tileM p) (MatMulLWS.tileN p) (MatMulLWS.tileK p)
         false in
     (exists pre post,
        MatMulLWS.getUserCode p = (pre ++ kernel ++ post)%string) /\
     (exists pre post,
        kernel = (pre ++ "let batch = index1 / stride1;
    let batchA = i32(batch) % uniforms.aShape[0];
    let batchB = i32(batch) % uniforms.bShape[0];" ++ post)%string) /\
     own_count "let batchA = " template = 1%nat /\
     own_count "let batchB = " template = 1%nat /\
     (snippets_clear "let batchA = " a c = true ->
      occ "let batchA = " kernel = 1%nat) /\
     (snippets_clear "let batchB = " a c = true ->
      occ "let batchB = " kernel = 1%nat)).
Proof.
  intros HM HN HK. split.
  - destruct (conv_constructor_total info M N K addBias act hasPrelu
                HM HN HK) as [q Hq].
    exists q. split; [exact Hq|]. cbv zeta.
    destruct (conv_constructor_positive _ _ _ _ _ _ _ _ HM Hq) as [Ha Ho].
    pose proof (conv_constructor_fields _ _ _ _ _ _ _ _ Hq) as F.
    cbv zeta in F.
    destruct F as (_ & _ & _ & _ & _ & _ & _ & _ & _ & _ & _ & W).
    split; [|split; [|split; [|split; [|split]]]].
    + rewrite conv_getUserCode_kernel, W. cbn [fst].
      do 2 eexists. reflexivity.
    + rewrite text_parts.
      exists (render (MatMulLWS.shared_decls (Conv2DMMLWS.components q)
                        (Conv2DMMLWS.aComponents q) (Conv2DMMLWS.tileM q)
                        (Conv2DMMLWS.tileN q) (Conv2DMMLWS.tileK q))
              ++ render (MatMulLWS.tile_indices (Conv2DMMLWS.tileM q)
                           (Conv2DMMLWS.tileN q)))%string.
      eexists. rewrite !append_assoc. reflexivity.
    + now apply own_batchA.
    + now apply own_batchB.
    + now apply count_batchA.
    + now apply count_batchB.
  - destruct (matmul_constructor_total batch M N K tA tB bias act prelu
                HM HN HK) as [p Hp].
    exists p. split; [exact Hp|]. cbv zeta.
    destruct (matmul_constructor_positive _ _ _ _ _ _ _ _ _ _ HM Hp)
      as [Ha Ho].
    pose proof (matmul_constructor_fields _ _ _ _ _ _ _ _ _ _ Hp) as F.
    cbv zeta in F.
    destruct F as (_ & _ & _ & _ & _ & _ & _ & _ & _ & _ & _ & _ & W).
    split; [|split; [|split; [|split; [|split]]]].
    + rewrite matmul_getUserCode_kernel, W. cbn [fst].
      do 2 eexists. reflexivity.
    + rewrite text_parts.
      exists (render (MatMulLWS.shared_decls (MatMulLWS.components p)
                        (MatMulLWS.aComponents p) (MatMulLWS.tileM p)
                        (MatMulLWS.tileN p) (MatMulLWS.tileK p))
              ++ render (MatMulLWS.tile_indices (MatMulLWS.tileM p)
                           (MatMulLWS.tileN p)))%string.
      eexists. rewrite !append_assoc. reflexivity.
    + now apply own_batchA.
    + now apply own_batchB.
    + now apply count_batchA.
    + now apply count_batchB.
Qed.

Lemma batch_indices_by_variant_witness :
  exists q p,
    Conv2DMMLWS.constructor
      {| dataFormat := channelsLast; outShape := (2, 8, 8, 64) |}
      64 64 18 false None false = Ok q /\
    MatMulLWS.constructor (2, 64, 64) 18 false false None None None = Ok p /\
    occ "let batchB = " (Conv2DMMLWS.getUserCode (lib := demo_snippets) q)
    = 1%nat /\
    occ "let batchB = " (MatMulLWS.getUserCode (lib := demo_snippets) p)
    = 1%nat.
Proof.
  destruct (batch_indices_by_variant (lib := demo_snippets)
              2 64 64 18 false false None None None
              {| dataFormat := channelsLast; outShape := (2, 8, 8, 64) |}
              false false ltac:(lia) ltac:(lia) ltac:(lia))
    as [[q [Hq _]] [p [Hp _]]].
  exists q, p. split; [exact Hq|]. split; [exact Hp|].
  injection Hq as <-. injection Hp as <-.
  split; vm_compute; reflexivity.
Defined.

(** ** Shader keys *)

Section Keys.

Local Open Scope string_scope.

(** Two fields closed by the same character that neither contains can be
    told apart from what follows them. *)
Lemma split_at (c : ascii) (a a' r r' : string) :
  lacks c a = true -> lacks c a' = true ->
  a ++ String c r = a' ++ String c r' -> a = a' /\ r = r'.
Proof.
  revert a'. induction a as [|d a IH]; intros [|d' a'] La La' E;
    cbn [append lacks] in *.
  - injection E as ->. auto.
  - injection E as -> _. rewrite Ascii.eqb_refl in La'. discriminate.
  - injection E as -> _. rewrite Ascii.eqb_refl in La. discriminate.
  - injection E as -> E.
    apply andb_prop in La as [_ La]. apply andb_prop in La' as [_ La'].
    destruct (IH a' La La' E) as [-> ->]. auto.
Qed.

Lemma append_inv_head (a x y : string) : a ++ x = a ++ y -> x = y.
Proof.
  induction a as [|c a IH]; cbn [append]; intros E; [exact E|].
  injection E as E. auto.
Qed.

Lemma num_inj (n n' : Z) : num n = num n' -> n = n'.
Proof.
  unfold num. intros E. apply DecimalZ.to_int_inj.
  assert (G : forall z, Z.to_int z <> Decimal.Pos Decimal.Nil /\
                        Z.to_int z <> Decimal.Neg Decimal.Nil).
  { intros [|q|q]; simpl; split; try discriminate;
      intros [= H]; now apply Unsigned.to_uint_nonnil in H. }
  pose proof (NilZero.isi _ (proj1 (G n)) (proj2 (G n))) as I.
  pose proof (NilZero.isi _ (proj1 (G n')) (proj2 (G n'))) as I'.
  rewrite E in I. congruence.
Qed.

Lemma lacks_numeric (c : ascii) (s : string) :
  numeric c = false -> all_chars numeric s = true -> lacks c s = true.
Proof.
  intros Hc. induction s as [|d s IH]; [reflexivity|].
  cbn [all_chars lacks]. intros H. apply andb_prop in H as [Hd Hs].
  rewrite (IH Hs), andb_true_r.
  destruct (Ascii.eqb_spec d c) as [->|_]; [congruence | reflexivity].
Qed.

Lemma num_lacks_underscore (n : Z) : lacks "_" (num n) = true.
Proof. apply lacks_numeric; [reflexivity | apply num_numeric]. Qed.

Lemma flag_lacks_underscore (b : bool) : lacks "_" (flag b) = true.
Proof. destruct b; reflexivity. Qed.

Lemma flag_inj (b b' : bool) : flag b = flag b' -> b = b'.
Proof. destruct b, b'; simpl; intros E; try reflexivity; discriminate. Qed.

Lemma show_activation_lacks (a : option Activation) :
  lacks "_" (show_activation a) = true /\
  lacks "}" (show_activation a) = true.
Proof. destruct a as [[]|]; split; reflexivity. Qed.

Lemma show_activation_inj (a a' : option Activation) :
  show_activation a = show_activation a' -> a = a'.
Proof.
  destruct a as [[]|], a' as [[]|]; simpl; intros E;
    try reflexivity; discriminate.
Qed.

Ltac peel E :=
  match type of E with
  | (_ ++ String "_" _)%string = (_ ++ String "_" _)%string =>
      apply split_at in E;
      [ | first [ apply num_lacks_underscore
                | apply flag_lacks_underscore
                | apply show_activation_lacks ] .. ]
  end.

Lemma matmul_key_inj act tA tB fA fB fI tK tM tN c a o
                     act' tA' tB' fA' fB' fI' tK' tM' tN' c' a' o' :
  matmul_key act tA tB fA fB fI tK tM tN c a o
  = matmul_key act' tA' tB' fA' fB' fI' tK' tM' tN' c' a' o' ->
  act = act' /\ tA = tA' /\ tB = tB' /\ fA = fA' /\ fB = fB' /\
  fI = fI' /\ tK = tK' /\ tM = tM' /\ tN = tN' /\ c = c' /\ a = a' /\
  o = o'.
Proof.
  unfold matmul_key. cbn [render chunk_text]. intros E.
  apply append_inv_head in E.
  cbn [append] in E.
  peel E. destruct E as [E1 E]. peel E. destruct E as [E2 E].
  peel E. destruct E as [E3 E]. peel E. destruct E as [E4 E].
  peel E. destruct E as [E5 E]. peel E. destruct E as [E6 E].
  peel E. destruct E as [E7 E]. peel E. destruct E as [E8 E].
  peel E. destruct E as [E9 E]. peel E. destruct E as [E10 E].
  peel E. destruct E as [E11 E].
  rewrite !append_nil_r in E.
  repeat split;
    first [ now apply show_activation_inj | now apply flag_inj
          | now apply num_inj ].
Qed.

Lemma conv_key_inj act fA fB fI tK tM tN c a o
                   act' fA' fB' fI' tK' tM' tN' c' a' o' :
  conv_key act fA fB fI tK tM tN c a o
  = conv_key act' fA' fB' fI' tK' tM' tN' c' a' o' ->
  act = act' /\ fA = fA' /\ fB = fB' /\ fI = fI' /\ tK = tK' /\
  tM = tM' /\ tN = tN' /\ c = c' /\ a = a' /\ o = o'.
Proof.
  unfold conv_key. cbn [render chunk_text]. intros E.
  apply append_inv_head in E.
  cbn [append] in E.
  apply split_at in E; try apply show_activation_lacks.
  destruct E as [E1 E]. injection E as E.
  peel E. destruct E as [E2 E]. peel E. destruct E as [E3 E].
  peel E. destruct E as [E4 E]. peel E. destruct E as [E5 E].
  peel E. destruct E as [E6 E]. peel E. destruct E as [E7 E].
  peel E. destruct E as [E8 E]. peel E. destruct E as [E9 E].
  rewrite !append_nil_r in E.
  repeat split;
    first [ now apply show_activation_inj | now apply flag_inj
          | now apply num_inj ].
Qed.

(** The key a built program stores is the template applied to its own
    fields. *)
Lemma matmul_constructor_key batch M N K tA tB bias act prelu p :
  MatMulLWS.constructor (batch, M, N) K tA tB bias act prelu = Ok p ->
  MatMulLWS.shaderKey p
  = matmul_key (MatMulLWS.activation p) (MatMulLWS.transposeA p)
      (MatMulLWS.transposeB p) (MatMulLWS.fitAOuter p)
      (MatMulLWS.fitBOuter p) (MatMulLWS.fitInner p) (MatMulLWS.tileK p)
      (MatMulLWS.tileM p) (MatMulLWS.tileN p) (MatMulLWS.components p)
      (MatMulLWS.aComponents p) (MatMulLWS.outputNumber p).
Proof.
  unfold MatMulLWS.constructor. cbv beta iota zeta.
  match goal with |- (if ?g then _ else _) = _ -> _ => destruct g end;
    [discriminate|].
  intros H. injection H as <-. reflexivity.
Qed.

Lemma conv_constructor_key info M N K addBias act prelu q :
  Conv2DMMLWS.constructor info M N K addBias act prelu = Ok q ->
  Conv2DMMLWS.shaderKey q
  = conv_key (Conv2DMMLWS.activation q) (Conv2DMMLWS.fitAOuter q)
      (Conv2DMMLWS.fitBOuter q) (Conv2DMMLWS.fitInner q)
      (Conv2DMMLWS.tileK q) (Conv2DMMLWS.tileM q) (Conv2DMMLWS.tileN q)
      (Conv2DMMLWS.components q) (Conv2DMMLWS.aComponents q)
      (Conv2DMMLWS.outputNumber q).
Proof.
  unfold Conv2DMMLWS.constructor. cbv beta iota zeta.
  match goal with |- (if ?g then _ else _) = _ -> _ => destruct g end;
    [discriminate|].
  intros H. injection H as <-. reflexivity.
Qed.

End Keys.

(** C2 (as the code has it). For each program family the shader key is a
    function of the request, and it loses nothing of what it prints: two
    built programs with the same key agree on the activation, on the
    transpose flags (matmul), on the three fit flags and on the whole tile
    configuration.  The key does not print the bias flag, the PReLU-weights
    flag or the channel layout; two programs with the same key that also
    agree on those emit the same code, whatever the snippet library. *)
Theorem shader_key_covers_printed_fields
    {lib : Snippets}
    (b1 M1 N1 K1 b2 M2 N2 K2 : Z) (tA1 tB1 tA2 tB2 : bool)
    (bias1 prelu1 bias2 prelu2 : option TensorInfo)
    (act1 act2 : option Activation)
    (info1 info2 : Conv2DInfo) (addBias1 hasPrelu1 addBias2 hasPrelu2 : bool)
    (p1 p2 : MatMulLWS.MatMulLWSProgram)
    (q1 q2 : Conv2DMMLWS.Conv2DMMLWSProgram) :
  MatMulLWS.constructor (b1, M1, N1) K1 tA1 tB1 bias1 act1 prelu1 = Ok p1 ->
  MatMulLWS.constructor (b2, M2, N2) K2 tA2 tB2 bias2 act2 prelu2 = Ok p2 ->
  Conv2DMMLWS.constructor info1 M1 N1 K1 addBias1 act1 hasPrelu1 = Ok q1 ->
  Conv2DMMLWS.constructor info2 M2 N2 K2 addBias2 act2 hasPrelu2 = Ok q2 ->
  (* determinism *)
  (((b1, M1, N1), K1, tA1, tB1, bias1, act1, prelu1)
   = ((b2, M2, N2), K2, tA2, tB2, bias2, act2, prelu2) ->
   MatMulLWS.shaderKey p1 = MatMulLWS.shaderKey p2) /\
  ((info1, M1, N1, K1, addBias1, act1, hasPrelu1)
   = (info2, M2, N2, K2, addBias2, act2, hasPrelu2) ->
   Conv2DMMLWS.shaderKey q1 = Conv2DMMLWS.shaderKey q2) /\
  (* the matmul key *)
  (MatMulLWS.shaderKey p1 = MatMulLWS.shaderKey p2 ->
   (MatMulLWS.activation p1 = MatMulLWS.activation p2 /\
    MatMulLWS.transposeA p1 = MatMulLWS.transposeA p2 /\
    MatMulLWS.transposeB p1 = MatMulLWS.transposeB p2 /\
    MatMulLWS.fitAOuter p1 = MatMulLWS.fitAOuter p2 /\
    MatMulLWS.fitBOuter p1 = MatMulLWS.fitBOuter p2 /\
    MatMulLWS.fitInner p1 = MatMulLWS.fitInner p2 /\
    MatMulLWS.tileK p1 = MatMulLWS.tileK p2 /\
    MatMulLWS.tileM p1 = MatMulLWS.tileM p2 /\
    MatMulLWS.tileN p1 = MatMulLWS.tileN p2 /\
    MatMulLWS.components p1 = MatMulLWS.components p2 /\
    MatMulLWS.aComponents p1 = MatMulLWS.aComponents p2 /\
    MatMulLWS.outputNumber p1 = MatMulLWS.outputNumber p2) /\
   (MatMulLWS.addBias p1 = MatMulLWS.addBias p2 ->
    MatMulLWS.hasPreluActivationWeights p1
    = MatMulLWS.hasPreluActivationWeights p2 ->
    MatMulLWS.getUserCode p1 = MatMulLWS.getUserCode p2)) /\
  (* the convolution key *)
  (Conv2DMMLWS.shaderKey q1 = Conv2DMMLWS.shaderKey q2 ->
   (Conv2DMMLWS.activation q1 = Conv2DMMLWS.activation q2 /\
    Conv2DMMLWS.fitAOuter q1 = Conv2DMMLWS.fitAOuter q2 /\
    Conv2DMMLWS.fitBOuter q1 = Conv2DMMLWS.fitBOuter q2 /\
    Conv2DMMLWS.fitInner q1 = Conv2DMMLWS.fitInner q2 /\
    Conv2DMMLWS.tileK q1 = Conv2DMMLWS.tileK q2 /\
    Conv2DMMLWS.tileM q1 = Conv2DMMLWS.tileM q2 /\
    Conv2DMMLWS.tileN q1 = Conv2DMMLWS.tileN q2 /\
    Conv2DMMLWS.components q1 = Conv2DMMLWS.components q2 /\
    Conv2DMMLWS.aComponents q1 = Conv2DMMLWS.aComponents q2 /\
    Conv2DMMLWS.outputNumber q1 = Conv2DMMLWS.outputNumber q2) /\
   (Conv2DMMLWS.addBias q1 = Conv2DMMLWS.addBias q2 ->
    Conv2DMMLWS.hasPreluActivationWeights q1
    = Conv2DMMLWS.hasPreluActivationWeights q2 ->
    Conv2DMMLWS.isChannelsLast q1 = Conv2DMMLWS.isChannelsLast q2 ->
    Conv2DMMLWS.getUserCode q1 = Conv2DMMLWS.getUserCode q2)).
Proof.
  intros Hp1 Hp2 Hq1 Hq2.
  split; [|split; [|split]].
  - intros E. injection E as -> -> -> -> -> -> -> -> ->.
    rewrite Hp1 in Hp2. now injection Hp2 as ->.
  - intros E. injection E as -> -> -> -> -> -> ->.
    rewrite Hq1 in Hq2. now injection Hq2 as ->.
  - intros E.
    rewrite (matmul_constructor_key _ _ _ _ _ _ _ _ _ _ Hp1),
            (matmul_constructor_key _ _ _ _ _ _ _ _ _ _ Hp2) in E.
    apply matmul_key_inj in E.
    split; [exact E|].
    destruct E as (Ea & EtA & EtB & EfA & EfB & EfI & EtK & EtM & EtN
                   & Ec & Eaa & Eo).
    intros Eb Epr.
    pose proof (matmul_constructor_fields _ _ _ _ _ _ _ _ _ _ Hp1) as F1.
    pose proof (matmul_constructor_fields _ _ _ _ _ _ _ _ _ _ Hp2) as F2.
    cbv zeta in F1, F2.
    destruct F1 as (_ & _ & _ & _ & _ & _ & _ & _ & _ & _ & _ & _ & W1).
    destruct F2 as (_ & _ & _ & _ & _ & _ & _ & _ & _ & _ & _ & _ & W2).
    unfold MatMulLWS.getUserCode.
    now rewrite Ea, EtA, EtB, EfA, EfB, EfI, EtK, EtM, EtN, Ec, Eaa, Eo,
      Eb, Epr, W1, W2.
  - intros E.
    rewrite (conv_constructor_key _ _ _ _ _ _ _ _ Hq1),
            (conv_constructor_key _ _ _ _ _ _ _ _ Hq2) in E.
    apply conv_key_inj in E.
    split; [exact E|].
    destruct E as (Ea & EfA & EfB & EfI & EtK & EtM & EtN & Ec & Eaa & Eo).
    intros Eb Epr Ecl.
    pose proof (conv_constructor_fields _ _ _ _ _ _ _ _ Hq1) as F1.
    pose proof (conv_constructor_fields _ _ _ _ _ _ _ _ Hq2) as F2.
    cbv zeta in F1, F2.
    destruct F1 as (_ & _ & _ & _ & _ & _ & _ & _ & _ & _ & _ & W1).
    destruct F2 as (_ & _ & _ & _ & _ & _ & _ & _ & _ & _ & _ & W2).
    unfold Conv2DMMLWS.getUserCode.
    now rewrite Ea, EfA, EfB, EfI, EtK, EtM, EtN, Ec, Eaa, Eo,
      Eb, Epr, Ecl, W1, W2.
Qed.

Lemma shader_key_covers_printed_fields_witness :
  exists p1 p2,
    MatMulLWS.constructor (1, 64, 64) 64 false true None (Some relu) None
      = Ok p1 /\
    MatMulLWS.constructor (7, 96, 128) 32 false true None (Some relu) None
      = Ok p2 /\
    MatMulLWS.shaderKey p1 = MatMulLWS.shaderKey p2 /\
    MatMulLWS.getUserCode (lib := demo_snippets) p1
    = MatMulLWS.getUserCode (lib := demo_snippets) p2.
Proof.
  do 2 eexists. split; [reflexivity|]. split; [reflexivity|].
  split; [reflexivity|].
  destruct (shader_key_covers_printed_fields (lib := demo_snippets)
              1 64 64 64 7 96 128 32 false true false true
              None None None None (Some relu) (Some relu)
              {| dataFormat := channelsLast; outShape := (1, 8, 8, 64) |}
              {| dataFormat := channelsLast; outShape := (7, 8, 12, 128) |}
              false false false false _ _ _ _
              eq_refl eq_refl eq_refl eq_refl)
    as (_ & _ & Hm & _).
  exact (proj2 (Hm eq_refl) eq_refl eq_refl).
Defined.

(** C2 fails as stated: the key prints neither the bias flag nor the
    PReLU-weights flag nor the channel layout, although all three are passed
    to the snippets that write the code.  A matmul request with a bias and
    one without get the same key and, with a write snippet that adds the
    bias when asked to, different code; likewise for two convolution
    requests. *)
Lemma shader_key_omits_bias :
  exists p1 p2 q1 q2,
    MatMulLWS.constructor (1, 64, 64) 64 false false None None None
      = Ok p1 /\
    MatMulLWS.constructor (1, 64, 64) 64 false false
      (Some {| shape := [64]; dtype := "float32" |}) None None = Ok p2 /\
    MatMulLWS.shaderKey p1 = MatMulLWS.shaderKey p2 /\
    MatMulLWS.addBias p1 <> MatMulLWS.addBias p2 /\
    MatMulLWS.getUserCode (lib := demo_snippets) p1
    <> MatMulLWS.getUserCode (lib := demo_snippets) p2 /\
    Conv2DMMLWS.constructor
      {| dataFormat := channelsLast; outShape := (1, 8, 8, 64) |}
      64 64 64 false None false = Ok q1 /\
    Conv2DMMLWS.constructor
      {| dataFormat := channelsLast; outShape := (1, 8, 8, 64) |}
      64 64 64 true None false = Ok q2 /\
    Conv2DMMLWS.shaderKey q1 = Conv2DMMLWS.shaderKey q2 /\
    Conv2DMMLWS.addBias q1 <> Conv2DMMLWS.addBias q2 /\
    Conv2DMMLWS.getUserCode (lib := demo_snippets) q1
    <> Conv2DMMLWS.getUserCode (lib := demo_snippets) q2.
Proof.
  do 4 eexists.
  split; [reflexivity|]. split; [reflexivity|]. split; [reflexivity|].
  split; [discriminate|].
  split; [apply String.eqb_neq; vm_compute; reflexivity|].
  split; [reflexivity|]. split; [reflexivity|]. split; [reflexivity|].
  split; [discriminate|].
  apply String.eqb_neq. vm_compute. reflexivity.
Qed.

(** C7 (as the code has it). Neither constructor inspects the epilogue
    combination.  On positive dimensions every combination of bias,
    activation and PReLU weights is accepted, PReLU weights without an
    activation included: the program records the flags as requested, binds
    the extra operands in the order bias, preluActivationWeights, and
    getUserCode emits the kernel template as for any other request. *)
Theorem constructors_accept_any_epilogue
    {lib : Snippets}
    (batch M N K : Z) (tA tB : bool) (bias prelu : option TensorInfo)
    (act : option Activation) (info : Conv2DInfo) (addBias hasPrelu : bool) :
  1 <= M -> 1 <= N -> 1 <= K ->
  (exists p,
     MatMulLWS.constructor (batch, M, N) K tA tB bias act prelu = Ok p /\
     MatMulLWS.activation p = act /\
     MatMulLWS.addBias p = MatMulLWS.not_null bias /\
     MatMulLWS.hasPreluActivationWeights p = MatMulLWS.not_null prelu /\
     MatMulLWS.variableNames p
     = MatMulLWS.push_if (MatMulLWS.not_null prelu) "preluActivationWeights"
         (MatMulLWS.push_if (MatMulLWS.not_null bias) "bias" ["A"; "B"]) /\
     exists pre post,
       MatMulLWS.getUserCode p
       = (pre ++ MatMulLWS.makeMatMulLWSSource 64 (MatMulLWS.outputNumber p)
                   (MatMulLWS.components p) (MatMulLWS.aComponents p)
                   (MatMulLWS.tileM p) (MatMulLWS.tileN p)
                   (MatMulLWS.tileK p) false ++ post)%string)
  /\
  (exists q,
     Conv2DMMLWS.constructor info M N K addBias act hasPrelu = Ok q /\
     Conv2DMMLWS.activation q = act /\
     Conv2DMMLWS.addBias q = addBias /\
     Conv2DMMLWS.hasPreluActivationWeights q = hasPrelu /\
     Conv2DMMLWS.variableNames q
     = MatMulLWS.push_if hasPrelu "preluActivationWeights"
         (MatMulLWS.push_if addBias "bias" ["x"; "W"]) /\
     exists pre post,
       Conv2DMMLWS.getUserCode q
       = (pre ++ MatMulLWS.makeMatMulLWSSource 64
                   (Conv2DMMLWS.outputNumber q) (Conv2DMMLWS.components q)
                   (Conv2DMMLWS.aComponents q) (Conv2DMMLWS.tileM q)
                   (Conv2DMMLWS.tileN q) (Conv2DMMLWS.tileK q) true
          ++ post)%string).
Proof.
  intros HM HN HK. split.
  - destruct (matmul_constructor_total batch M N K tA tB bias act prelu
                HM HN HK) as [p Hp].
    exists p. split; [exact Hp|].
    pose proof (matmul_constructor_fields _ _ _ _ _ _ _ _ _ _ Hp) as F.
    cbv zeta in F.
    destruct F as (_ & _ & _ & _ & _ & _ & _ & Hb & Hpr & Ha & _ & _ & W).
    destruct (matmul_constructor_operands _ _ _ _ _ _ _ _ _ _ Hp)
      as [Hn _].
    repeat (split; [assumption|]).
    rewrite matmul_getUserCode_kernel, W. cbn [fst].
    do 2 eexists. reflexivity.
  - destruct (conv_constructor_total info M N K addBias act hasPrelu
                HM HN HK) as [q Hq].
    exists q. split; [exact Hq|].
    pose proof (conv_constructor_fields _ _ _ _ _ _ _ _ Hq) as F.
    cbv zeta in F.
    destruct F as (_ & _ & _ & _ & _ & _ & _ & Hb & Hpr & Ha & _ & W).
    destruct (conv_constructor_operands _ _ _ _ _ _ _ _ Hq) as [Hn _].
    repeat (split; [assumption|]).
    rewrite conv_getUserCode_kernel, W. cbn [fst].
    do 2 eexists. reflexivity.
Qed.

Lemma constructors_accept_any_epilogue_witness :
  exists p q,
    MatMulLWS.constructor (1, 64, 64) 64 false false None None
      (Some {| shape := [64]; dtype := "float32" |}) = Ok p /\
    Conv2DMMLWS.constructor
      {| dataFormat := channelsLast; outShape := (1, 8, 8, 64) |}
      64 64 64 false None true = Ok q /\
    MatMulLWS.variableNames p = ["A"; "B"; "preluActivationWeights"] /\
    Conv2DMMLWS.variableNames q = ["x"; "W"; "preluActivationWeights"].
Proof.
  destruct (constructors_accept_any_epilogue (lib := demo_snippets)
              1 64 64 64 false false None
              (Some {| shape := [64]; dtype := "float32" |}) None
              {| dataFormat := channelsLast; outShape := (1, 8, 8, 64) |}
              false true ltac:(lia) ltac:(lia) ltac:(lia))
    as [[p [Hp [_ [_ [_ [Np _]]]]]] [q [Hq [_ [_ [_ [Nq _]]]]]]].
  exists p, q. split; [exact Hp|]. split; [exact Hq|].
  split; [exact Np | exact Nq].
Defined.

(** C7 fails as stated: PReLU weights with no activation selected are not
    rejected.  Both constructors return the program, with the weights bound
    as an operand and the activation left null, and the code emitted for it
    holds the complete kernel (two shared tiles, two barriers). *)
Lemma prelu_weights_without_activation_are_accepted :
  exists p q,
    MatMulLWS.constructor (1, 64, 64) 64 false false None None
      (Some {| shape := [64]; dtype := "float32" |}) = Ok p /\
    MatMulLWS.activation p = None /\
    MatMulLWS.hasPreluActivationWeights p = true /\
    MatMulLWS.variableNames p = ["A"; "B"; "preluActivationWeights"] /\
    occ "var<workgroup>" (MatMulLWS.getUserCode (lib := demo_snippets) p)
    = 2%nat /\
    occ "workgroupBarrier()" (MatMulLWS.getUserCode (lib := demo_snippets) p)
    = 2%nat /\
    Conv2DMMLWS.constructor
      {| dataFormat := channelsLast; outShape := (1, 8, 8, 64) |}
      64 64 64 false None true = Ok q /\
    Conv2DMMLWS.activation q = None /\
    Conv2DMMLWS.hasPreluActivationWeights q = true /\
    Conv2DMMLWS.variableNames q = ["x"; "W"; "preluActivationWeights"] /\
    occ "var<workgroup>" (Conv2DMMLWS.getUserCode (lib := demo_snippets) q)
    = 2%nat /\
    occ "workgroupBarrier()"
      (Conv2DMMLWS.getUserCode (lib := demo_snippets) q) = 2%nat.
Proof.
  do 2 eexists.
  split; [reflexivity|]. split; [reflexivity|]. split; [reflexivity|].
  split; [reflexivity|].
  split; [vm_compute; reflexivity|]. split; [vm_compute; reflexivity|].
  split; [reflexivity|]. split; [reflexivity|]. split; [reflexivity|].
  split; [reflexivity|].
  split; vm_compute; reflexivity.
Qed.

(** * Further properties of the planner *)

Section PlannerEdges.

(** The first and the third test of the guard pass on every integer. *)
Lemma tileN_guard (N : Z) :
  is_0 (rem (if N <? 32 then N else 32) (if is_0 (rem N 4) then 4 else 1))
  = true.
Proof.
  rewrite (is_0_rem N 4) by lia.
  destruct (Z.eqb_spec (Z.rem N 4) 0) as [E|E].
  - apply is_0_rem_true. split; [lia|].
    destruct (N <? 32); [exact E | reflexivity].
  - apply is_0_rem_one.
Qed.

(** The second test fails exactly on M = 0, where [0 % 0] is NaN. *)
Lemma matmul_tileM_guard (M : Z) :
  let t := if M <? 32 then M else 32 in
  is_0 (rem t (if t <? 4 then t else MatMulLWS.getMaxComponents t))
  = negb (M =? 0).
Proof.
  cbv zeta. destruct (Z.eqb_spec M 0) as [->|HM]; [reflexivity|].
  cbn [negb]. apply is_0_rem_true.
  assert (Ht : (if M <? 32 then M else 32) <> 0)
    by (destruct (Z.ltb_spec M 32); lia).
  revert Ht. generalize (if M <? 32 then M else 32). intros t Ht.
  pose proof (matmul_getMaxComponents_range t).
  destruct (t <? 4).
  - split; [exact Ht | now apply Z.rem_same].
  - split; [lia | apply matmul_getMaxComponents_rem].
Qed.

Lemma conv_tileM_guard (M : Z) :
  let t := if M <? 32 then M else 32 in
  is_0 (rem t (if t <? 4 then t else Conv2DMMLWS.getMaxComponents t))
  = negb (M =? 0).
Proof.
  cbv zeta. destruct (Z.eqb_spec M 0) as [->|HM]; [reflexivity|].
  cbn [negb]. apply is_0_rem_true.
  assert (Ht : (if M <? 32 then M else 32) <> 0)
    by (destruct (Z.ltb_spec M 32); lia).
  revert Ht. generalize (if M <? 32 then M else 32). intros t Ht.
  pose proof (conv_getMaxComponents_range t).
  destruct (t <? 4).
  - split; [exact Ht | now apply Z.rem_same].
  - split; [lia | apply conv_getMaxComponents_rem].
Qed.

End PlannerEdges.

(** X1. On integer dimensions of either sign (safe integers, below 2^53 in
    magnitude, which a template literal prints digit by digit), each
    constructor throws when M is 0: tileM and outputNumber are then both 0
    and [0 % 0] is NaN.  The message reports tileM(0) against
    outputNumber(0), next to the tiles and widths derived from N and K.
    With M and N other than 0 neither constructor throws, whatever K is:
    the first and the third test of the guard pass on every integer. *)
Theorem constructors_throw_exactly_when_M_is_0
    (batch M N K : Z) (tA tB : bool) (bias prelu : option TensorInfo)
    (act : option Activation) (info : Conv2DInfo) (addBias hasPrelu : bool) :
  Z.abs M < 2 ^ 53 -> Z.abs N < 2 ^ 53 -> Z.abs K < 2 ^ 53 ->
  let tileN := if N <? 32 then N else 32 in
  let components := if is_0 (rem N 4) then 4 else 1 in
  let message (tileK aComponents : Z) :=
    ("tileN(" ++ num tileN ++ ") must be divisible by components("
     ++ num components
     ++ "), tileM(0) must be divisible by outputNumber(0), tileK("
     ++ num tileK ++ ") must be divisible by aComponents("
     ++ num aComponents ++ ")")%string in
  (M = 0 ->
     MatMulLWS.constructor (batch, M, N) K tA tB bias act prelu
     = Throw (message
                (if K <? 32 then K else if K >? 1000 then 32 else 16)
                (MatMulLWS.getMaxComponents K)) /\
     Conv2DMMLWS.constructor info M N K addBias act hasPrelu
     = Throw (let a := Conv2DMMLWS.getMaxComponents K in
              message
                (if K <? 32 then K
                 else if K >? 1000 then Math_ceil (quot 32 a) * a
                      else Math_ceil (quot 16 a) * a)
                a)) /\
  (M <> 0 -> N <> 0 ->
     (forall msg,
        MatMulLWS.constructor (batch, M, N) K tA tB bias act prelu
        <> Throw msg) /\
     (forall msg,
        Conv2DMMLWS.constructor info M N K addBias act hasPrelu
        <> Throw msg)).
Proof.
  intros _ _ _. cbv zeta. split.
  - intros ->. split.
    + unfold MatMulLWS.constructor. cbv beta iota zeta.
      rewrite tileN_guard, (matmul_tileM_guard 0), matmul_tileK_rem.
      reflexivity.
    + unfold Conv2DMMLWS.constructor. cbv beta iota zeta.
      rewrite tileN_guard, (conv_tileM_guard 0), (conv_tileK_rem K).
      reflexivity.
  - intros HM _. split; intros msg.
    + unfold MatMulLWS.constructor. cbv beta iota zeta.
      rewrite tileN_guard, (matmul_tileM_guard M), matmul_tileK_rem.
      destruct (Z.eqb_spec M 0) as [E|_]; [contradiction|].
      cbn [negb orb]. discriminate.
    + unfold Conv2DMMLWS.constructor. cbv beta iota zeta.
      rewrite tileN_guard, (conv_tileM_guard M), (conv_tileK_rem K).
      destruct (Z.eqb_spec M 0) as [E|_]; [contradiction|].
      cbn [negb orb]. discriminate.
Qed.

Lemma constructors_throw_exactly_when_M_is_0_witness :
  MatMulLWS.constructor (1, 0, -6) 1002 false false None None None
  = Throw ("tileN(-6) must be divisible by components(1), "
           ++ "tileM(0) must be divisible by outputNumber(0), "
           ++ "tileK(32) must be divisible by aComponents(2)")%string /\
  Conv2DMMLWS.constructor
    {| dataFormat := channelsLast; outShape := (1, 0, 0, -6) |}
    0 (-6) 1002 false None false
  = Throw ("tileN(-6) must be divisible by components(1), "
           ++ "tileM(0) must be divisible by outputNumber(0), "
           ++ "tileK(33) must be divisible by aComponents(3)")%string /\
  (forall msg,
     MatMulLWS.constructor (1, -3, -6) 0 false false None None None
     <> Throw msg).
Proof.
  pose proof (constructors_throw_exactly_when_M_is_0 1 0 (-6) 1002
                false false None None None
                {| dataFormat := channelsLast; outShape := (1, 0, 0, -6) |}
                false false
                ltac:(reflexivity) ltac:(reflexivity) ltac:(reflexivity))
    as H.
  cbv zeta in H. destruct H as [H _]. destruct (H eq_refl) as [Hm Hc].
  split; [exact Hm|]. split; [exact Hc|].
  pose proof (constructors_throw_exactly_when_M_is_0 1 (-3) (-6) 0
                false false None None None
                {| dataFormat := channelsLast; outShape := (1, 0, 0, -6) |}
                false false
                ltac:(reflexivity) ltac:(reflexivity) ltac:(reflexivity))
    as G.
  cbv zeta in G. destruct G as [_ G].
  exact (proj1 (G ltac:(discriminate) ltac:(discriminate))).
Defined.

Section PlannerFacts.

(** The remaining fields of a built program. *)
Lemma matmul_constructor_fits batch M N K tA tB bias act prelu p :
  MatMulLWS.constructor (batch, M, N) K tA tB bias act prelu = Ok p ->
  MatMulLWS.fitAOuter p = is_0 (rem M (MatMulLWS.tileM p)) /\
  MatMulLWS.fitBOuter p = is_0 (rem N (MatMulLWS.tileN p)) /\
  MatMulLWS.fitInner p = is_0 (rem K (MatMulLWS.tileK p)) /\
  MatMulLWS.outputComponent p = MatMulLWS.components p /\
  MatMulLWS.outputShape p = (batch, M, N).
Proof.
  unfold MatMulLWS.constructor. cbv beta iota zeta.
  match goal with |- (if ?g then _ else _) = _ -> _ => destruct g end;
    [discriminate|].
  intros H. injection H as <-. simpl. repeat split.
Qed.

Lemma conv_constructor_fits info M N K addBias act prelu q :
  Conv2DMMLWS.constructor info M N K addBias act prelu = Ok q ->
  Conv2DMMLWS.fitAOuter q = is_0 (rem M (Conv2DMMLWS.tileM q)) /\
  Conv2DMMLWS.fitBOuter q = is_0 (rem N (Conv2DMMLWS.tileN q)) /\
  Conv2DMMLWS.fitInner q = is_0 (rem K (Conv2DMMLWS.tileK q)) /\
  Conv2DMMLWS.outputComponent q = Conv2DMMLWS.components q /\
  Conv2DMMLWS.outputShape q = outShape info.
Proof.
  unfold Conv2DMMLWS.constructor. cbv beta iota zeta.
  match goal with |- (if ?g then _ else _) = _ -> _ => destruct g end;
    [discriminate|].
  intros H. injection H as <-. simpl. repeat split.
Qed.

(** [d % t === 0] says that [ceil(d / t)] tiles of size [t] end exactly
    at [d]. *)
Lemma fit_iff_cover (d t c : Z) :
  1 <= t -> is_ceiling c d t ->
  (is_0 (rem d t) = true <-> t * c = d).
Proof.
  intros Ht [Hlo Hhi]. rewrite is_0_rem_true. split.
  - intros [_ E]. apply Z.rem_mod_eq_0 in E; [|lia].
    apply Z.div_exact in E; [|lia].
    remember (d / t) as k eqn:Ek. clear Ek.
    assert (c - 1 < k) by (apply (Z.mul_lt_mono_pos_l t); lia).
    assert (k <= c) by (apply (Z.mul_le_mono_pos_l _ _ t); lia).
    assert (k = c) by lia. subst k. lia.
  - intros E. split; [lia|]. apply Z.rem_mod_eq_0; [lia|].
    rewrite <- E, Z.mul_comm. apply Z.mod_mul. lia.
Qed.

Lemma fit_small_or_multiple (d : Z) :
  1 <= d ->
  (is_0 (rem d (if d <? 32 then d else 32)) = true
   <-> d < 32 \/ d mod 32 = 0).
Proof.
  intros Hd. rewrite is_0_rem_true. destruct (Z.ltb_spec d 32).
  - split; [auto|]. intros _. split; [lia|]. apply Z.rem_same. lia.
  - rewrite Z.rem_mod_eq_0 by lia. split.
    + intros [_ E]. now right.
    + intros [L|E]; [lia|]. split; [lia | exact E].
Qed.

(** The tile the convolution constructor picks for a long K. *)
Lemma conv_long_tileK (target a : Z) :
  1 <= a <= 4 -> target = 16 \/ target = 32 ->
  let t := Math_ceil (quot target a) * a in
  a * (t / a) = t /\ target <= t < target + a /\
  t <= (if target =? 16 then 18 else 33).
Proof.
  intros Ha Ht. cbv zeta.
  assert (a = 1 \/ a = 2 \/ a = 3 \/ a = 4) as [-> | [-> | [-> | ->]]] by lia;
    destruct Ht as [->| ->]; vm_compute; repeat split; discriminate.
Qed.

End PlannerFacts.

(** X2. For M, N, K >= 1 the tiles of a built program are bounded: tileM and
    tileN lie between 1 and 32 and do not exceed M and N; tileK lies between
    1 and 32 (matmul) or 33 (convolution) and does not exceed K.  The widths
    are small: components is 1 or 4, aComponents is 1, 2 or 4 (also 3 for
    the convolution), outputNumber lies between 1 and 4.  So the shared
    tile of the first operand never holds more than 32 * 32 scalars (32 * 33
    for the convolution). *)
Theorem built_tiles_are_bounded
    (batch M N K : Z) (tA tB : bool) (bias prelu : option TensorInfo)
    (act : option Activation) (info : Conv2DInfo) (addBias hasPrelu : bool)
    (p : MatMulLWS.MatMulLWSProgram) (q : Conv2DMMLWS.Conv2DMMLWSProgram) :
  1 <= M -> 1 <= N -> 1 <= K ->
  MatMulLWS.constructor (batch, M, N) K tA tB bias act prelu = Ok p ->
  Conv2DMMLWS.constructor info M N K addBias act hasPrelu = Ok q ->
  (1 <= MatMulLWS.tileM p <= Z.min M 32 /\
   1 <= MatMulLWS.tileN p <= Z.min N 32 /\
   1 <= MatMulLWS.tileK p <= Z.min K 32 /\
   (MatMulLWS.components p = 1 \/ MatMulLWS.components p = 4) /\
   In (MatMulLWS.aComponents p) [1; 2; 4] /\
   1 <= MatMulLWS.outputNumber p <= 4 /\
   MatMulLWS.tileM p * MatMulLWS.tileK p <= 32 * 32)
  /\
  (1 <= Conv2DMMLWS.tileM q <= Z.min M 32 /\
   1 <= Conv2DMMLWS.tileN q <= Z.min N 32 /\
   1 <= Conv2DMMLWS.tileK q <= Z.min K 33 /\
   (Conv2DMMLWS.components q = 1 \/ Conv2DMMLWS.components q = 4) /\
   In (Conv2DMMLWS.aComponents q) [1; 2; 3; 4] /\
   1 <= Conv2DMMLWS.outputNumber q <= 4 /\
   Conv2DMMLWS.tileM q * Conv2DMMLWS.tileK q <= 32 * 33).
Proof.
  intros HM HN HK Hp Hq.
  pose proof (tile_pos M HM) as PM. pose proof (tile_pos N HN) as PN.
  assert (TM : (if M <? 32 then M else 32) <= 32)
    by (destruct (Z.ltb_spec M 32); lia).
  assert (TN : (if N <? 32 then N else 32) <= 32)
    by (destruct (Z.ltb_spec N 32); lia).
  split.
  - destruct (matmul_constructor_fields _ _ _ _ _ _ _ _ _ _ Hp)
      as (-> & -> & -> & -> & -> & -> & _).
    pose proof (matmul_getMaxComponents_range (if M <? 32 then M else 32)).
    assert (TK : 1 <= (if K <? 32 then K
                       else if K >? 1000 then 32 else 16) <= Z.min K 32).
    { destruct (Z.ltb_spec K 32); [lia|]. destruct (K >? 1000); lia. }
    repeat split; try lia.
    + destruct (is_0 (rem N 4)); auto.
    + destruct (matmul_getMaxComponents_cases K)
        as [[-> _]|[[-> _]|[-> _]]]; simpl; tauto.
    + destruct (Z.ltb_spec (if M <? 32 then M else 32) 4); lia.
    + destruct (Z.ltb_spec (if M <? 32 then M else 32) 4); lia.
    + nia.
  - destruct (conv_constructor_fields _ _ _ _ _ _ _ _ Hq)
      as (-> & -> & -> & -> & -> & -> & _).
    pose proof (conv_getMaxComponents_range (if M <? 32 then M else 32)).
    pose proof (conv_getMaxComponents_range K) as RK.
    assert (TK : 1 <= (if K <? 32 then K
                       else if K >? 1000
                            then Math_ceil
                                   (quot 32 (Conv2DMMLWS.getMaxComponents K))
                                 * Conv2DMMLWS.getMaxComponents K
                            else Math_ceil
                                   (quot 16 (Conv2DMMLWS.getMaxComponents K))
                                 * Conv2DMMLWS.getMaxComponents K)
                 <= Z.min K 33).
    { destruct (Z.ltb_spec K 32); [lia|].
      destruct (Z.gtb_spec K 1000).
      - pose proof (conv_long_tileK 32 _ RK (or_intror eq_refl)) as L.
        cbv zeta in L. cbn [Z.eqb Pos.eqb] in L. lia.
      - pose proof (conv_long_tileK 16 _ RK (or_introl eq_refl)) as L.
        cbv zeta in L. cbn [Z.eqb Pos.eqb] in L. lia. }
    repeat split; try lia.
    + destruct (is_0 (rem N 4)); auto.
    + destruct (conv_getMaxComponents_cases K)
        as [[-> _]|[[-> _]|[[-> _]|[-> _]]]]; simpl; tauto.
    + destruct (Z.ltb_spec (if M <? 32 then M else 32) 4); lia.
    + destruct (Z.ltb_spec (if M <? 32 then M else 32) 4); lia.
    + nia.
Qed.

Lemma built_tiles_are_bounded_witness :
  exists p q,
    MatMulLWS.constructor (1, 100, 7) 2000 false false None None None = Ok p /\
    Conv2DMMLWS.constructor
      {| dataFormat := channelsLast; outShape := (1, 10, 10, 7) |}
      100 7 2000 false None false = Ok q /\
    MatMulLWS.tileM p * MatMulLWS.tileK p <= 32 * 32 /\
    Conv2DMMLWS.tileM q * Conv2DMMLWS.tileK q <= 32 * 33.
Proof.
  do 2 eexists. split; [reflexivity|]. split; [reflexivity|].
  destruct (built_tiles_are_bounded 1 100 7 2000 false false None None None
              {| dataFormat := channelsLast; outShape := (1, 10, 10, 7) |}
              false false _ _ ltac:(lia) ltac:(lia) ltac:(lia)
              eq_refl eq_refl)
    as [(_ & _ & _ & _ & _ & _ & Hp) (_ & _ & _ & _ & _ & _ & Hq)].
  split; [exact Hp | exact Hq].
Defined.

(** X3. For M, N, K >= 1 a fit flag of a built program is true exactly when
    the tiles end on the dimension: fitAOuter iff tileM * ceil(M / tileM) = M,
    which is the case iff M < 32 or 32 divides M; likewise fitBOuter for N;
    and fitInner iff tileK divides K.  A false flag means that the last tile
    overhangs. *)
Theorem fit_flags_mean_exact_cover
    (batch M N K : Z) (tA tB : bool) (bias prelu : option TensorInfo)
    (act : option Activation) (info : Conv2DInfo) (addBias hasPrelu : bool)
    (p : MatMulLWS.MatMulLWSProgram) (q : Conv2DMMLWS.Conv2DMMLWSProgram) :
  1 <= M -> 1 <= N -> 1 <= K ->
  MatMulLWS.constructor (batch, M, N) K tA tB bias act prelu = Ok p ->
  Conv2DMMLWS.constructor info M N K addBias act hasPrelu = Ok q ->
  let cM := Math_ceil (quot M (MatMulLWS.tileM p)) in
  let cN := Math_ceil (quot N (MatMulLWS.tileN p)) in
  (* the matmul program *)
  ((MatMulLWS.fitAOuter p = true <-> MatMulLWS.tileM p * cM = M) /\
   (MatMulLWS.fitAOuter p = false <-> M < MatMulLWS.tileM p * cM) /\
   (MatMulLWS.fitAOuter p = true <-> M < 32 \/ M mod 32 = 0) /\
   (MatMulLWS.fitBOuter p = true <-> MatMulLWS.tileN p * cN = N) /\
   (MatMulLWS.fitBOuter p = false <-> N < MatMulLWS.tileN p * cN) /\
   (MatMulLWS.fitBOuter p = true <-> N < 32 \/ N mod 32 = 0) /\
   (MatMulLWS.fitInner p = true <-> (MatMulLWS.tileK p | K)))
  /\
  (* the convolution program has the same outer tiles *)
  (Conv2DMMLWS.tileM q = MatMulLWS.tileM p /\
   Conv2DMMLWS.tileN q = MatMulLWS.tileN p /\
   Conv2DMMLWS.fitAOuter q = MatMulLWS.fitAOuter p /\
   Conv2DMMLWS.fitBOuter q = MatMulLWS.fitBOuter p /\
   (Conv2DMMLWS.fitInner q = true <-> (Conv2DMMLWS.tileK q | K))).
Proof.
  intros HM HN HK Hp Hq. cbv zeta.
  destruct (matmul_constructor_fits _ _ _ _ _ _ _ _ _ _ Hp)
    as (FA & FB & FI & _).
  destruct (conv_constructor_fits _ _ _ _ _ _ _ _ Hq)
    as (GA & GB & GI & _).
  destruct (built_tiles_are_bounded _ _ _ _ _ _ _ _ _ _ _ _ _ _
              HM HN HK Hp Hq)
    as [(BM & BN & BK & _) (CM & CN & CK & _)].
  destruct (matmul_constructor_fields _ _ _ _ _ _ _ _ _ _ Hp)
    as (TM & TN & _).
  destruct (conv_constructor_fields _ _ _ _ _ _ _ _ Hq)
    as (UM & UN & _).
  cbv zeta in TM, TN, UM, UN.
  pose proof (Math_ceil_is_ceiling M (MatMulLWS.tileM p) ltac:(lia)) as IM.
  pose proof (Math_ceil_is_ceiling N (MatMulLWS.tileN p) ltac:(lia)) as IN.
  assert (Hneg : forall b P, (b = true <-> P) -> (b = false <-> ~ P)).
  { intros [|] P [H1 H2]; split; intros H; try discriminate; auto.
    - exfalso. apply H. now apply H1.
    - intros HP. apply H2 in HP. discriminate. }
  split.
  - rewrite FA, FB, FI.
    split; [apply fit_iff_cover; [lia | exact IM]|].
    split.
    { assert (T1 : 1 <= MatMulLWS.tileM p) by lia.
      rewrite (Hneg _ _ (fit_iff_cover _ _ _ T1 IM)).
      destruct IM as [_ IM]. lia. }
    split; [rewrite TM; now apply fit_small_or_multiple|].
    split; [apply fit_iff_cover; [lia | exact IN]|].
    split.
    { assert (T1 : 1 <= MatMulLWS.tileN p) by lia.
      rewrite (Hneg _ _ (fit_iff_cover _ _ _ T1 IN)).
      destruct IN as [_ IN]. lia. }
    split; [rewrite TN; now apply fit_small_or_multiple|].
    rewrite is_0_rem_true, Z.rem_divide by lia.
    split; [tauto | intros D; split; [lia | exact D]].
  - rewrite GA, GB, GI, FA, FB, UM, UN, TM, TN.
    repeat split; try reflexivity.
    + rewrite is_0_rem_true. intros [Hne E].
      now apply Z.rem_divide in E.
    + intros D. apply is_0_rem_true. split; [lia|].
      apply Z.rem_divide; [lia | exact D].
Qed.

Lemma fit_flags_mean_exact_cover_witness :
  exists p q,
    MatMulLWS.constructor (1, 70, 64) 48 false false None None None = Ok p /\
    Conv2DMMLWS.constructor
      {| dataFormat := channelsLast; outShape := (1, 7, 10, 64) |}
      70 64 48 false None false = Ok q /\
    MatMulLWS.fitAOuter p = false /\ MatMulLWS.fitBOuter p = true /\
    70 < MatMulLWS.tileM p * Math_ceil (quot 70 (MatMulLWS.tileM p)).
Proof.
  do 2 eexists. split; [reflexivity|]. split; [reflexivity|].
  split; [reflexivity|]. split; [reflexivity|].
  pose proof (fit_flags_mean_exact_cover 1 70 64 48 false false None None
                None
                {| dataFormat := channelsLast; outShape := (1, 7, 10, 64) |}
                false false _ _ ltac:(lia) ltac:(lia) ltac:(lia)
                eq_refl eq_refl) as H.
  cbv zeta in H. destruct H as [(_ & H & _) _].
  exact (proj1 H eq_refl).
Defined.

(** X4. The convolution selector answers 3 exactly on the integers
    divisible by 3 and not by 4; the matmul selector answers 2 or 1 there,
    by parity, and the two selectors agree everywhere else.  The convolution
    selector never answers a narrower width than the matmul one, and both
    always answer a width that divides the size, negative sizes and 0
    included (0 gets width 4). *)
Theorem selectors_differ_only_on_width_3 (n : Z) :
  let wc := Conv2DMMLWS.getMaxComponents n in
  let wm := MatMulLWS.getMaxComponents n in
  (wc = 3 <-> (3 | n) /\ ~ (4 | n)) /\
  (wc = 3 <-> wc <> wm) /\
  (wc = 3 -> wm = (if Z.even n then 2 else 1)) /\
  wm <= wc /\
  (wc | n) /\ (wm | n) /\
  Conv2DMMLWS.getMaxComponents 0 = 4 /\ MatMulLWS.getMaxComponents 0 = 4 /\
  Conv2DMMLWS.getMaxComponents (-9) = 3 /\ MatMulLWS.getMaxComponents (-9) = 1.
Proof.
  cbv zeta.
  pose proof (conv_getMaxComponents_rem n) as Dc.
  pose proof (matmul_getMaxComponents_rem n) as Dm.
  pose proof (conv_getMaxComponents_range n) as Rc.
  pose proof (matmul_getMaxComponents_range n) as Rm.
  assert (P : Z.even n = (Z.rem n 2 =? 0)).
  { destruct (Z.eqb_spec (Z.rem n 2) 0) as [E|E].
    - apply Z.rem_divide in E; [|lia]. destruct E as [k ->].
      rewrite Z.even_mul. apply orb_true_r.
    - destruct (Z.even n) eqn:Ev; [|reflexivity].
      apply Z.even_spec in Ev. destruct Ev as [k ->].
      exfalso. apply E. rewrite Z.mul_comm. apply Z.rem_mul. lia. }
  assert (D3 : Z.rem n 3 = 0 <-> (3 | n)) by (apply Z.rem_divide; lia).
  assert (D4 : Z.rem n 4 = 0 <-> (4 | n)) by (apply Z.rem_divide; lia).
  split; [|split; [|split; [|split; [|split; [|split; [|split;
    [|split; [|split]]]]]]]]; try reflexivity.
  - destruct (conv_getMaxComponents_cases n)
      as [[-> H]|[[-> H]|[[-> H]|[-> H]]]];
      split; intros; try lia; try tauto; try discriminate.
  - destruct (conv_getMaxComponents_cases n)
      as [[-> H]|[[-> H]|[[-> H]|[-> H]]]];
      destruct (matmul_getMaxComponents_cases n)
        as [[-> G]|[[-> G]|[-> G]]];
      split; intros; try lia; try tauto; try discriminate.
  - intros E. rewrite P.
    destruct (conv_getMaxComponents_cases n)
      as [[W H]|[[W H]|[[W H]|[W H]]]]; rewrite W in E; try discriminate.
    destruct (matmul_getMaxComponents_cases n)
      as [[-> G]|[[-> G]|[-> G]]]; try tauto.
    + destruct G as [_ G]. now rewrite G.
    + destruct G as [_ G]. now apply Z.eqb_neq in G as ->.
  - destruct (conv_getMaxComponents_cases n)
      as [[-> H]|[[-> H]|[[-> H]|[-> H]]]];
      destruct (matmul_getMaxComponents_cases n)
        as [[-> G]|[[-> G]|[-> G]]]; try lia; tauto.
  - apply Z.rem_divide; [lia | exact Dc].
  - apply Z.rem_divide; [lia | exact Dm].
Qed.

(** X5. For K >= 32 the matmul program takes tileK = 16, or 32 when
    K > 1000; the convolution program takes the least multiple of its
    aComponents that is not below that target, which is the same tile unless
    aComponents is 3 (then 18 or 33).  Below 32 both take K itself. *)
Theorem conv_tileK_is_least_multiple_above_target
    (batch M N K : Z) (tA tB : bool) (bias prelu : option TensorInfo)
    (act : option Activation) (info : Conv2DInfo) (addBias hasPrelu : bool)
    (p : MatMulLWS.MatMulLWSProgram) (q : Conv2DMMLWS.Conv2DMMLWSProgram) :
  MatMulLWS.constructor (batch, M, N) K tA tB bias act prelu = Ok p ->
  Conv2DMMLWS.constructor info M N K addBias act hasPrelu = Ok q ->
  let a := Conv2DMMLWS.aComponents q in
  let target := if K >? 1000 then 32 else 16 in
  (K < 32 -> MatMulLWS.tileK p = K /\ Conv2DMMLWS.tileK q = K) /\
  (32 <= K ->
   MatMulLWS.tileK p = target /\
   (a | Conv2DMMLWS.tileK q) /\
   target <= Conv2DMMLWS.tileK q < target + a /\
   (forall m, (a | m) -> target <= m -> Conv2DMMLWS.tileK q <= m) /\
   (a <> 3 -> Conv2DMMLWS.tileK q = MatMulLWS.tileK p) /\
   (a = 3 -> Conv2DMMLWS.tileK q = target + (if K >? 1000 then 1 else 2))).
Proof.
  intros Hp Hq. cbv zeta.
  destruct (matmul_constructor_fields _ _ _ _ _ _ _ _ _ _ Hp)
    as (_ & _ & -> & _).
  destruct (conv_constructor_fields _ _ _ _ _ _ _ _ Hq)
    as (_ & _ & -> & _ & -> & _).
  pose proof (conv_getMaxComponents_range K) as RK.
  split.
  - intros HK. apply Z.ltb_lt in HK. rewrite HK. split; reflexivity.
  - intros HK. apply Z.ltb_ge in HK. rewrite HK.
    split; [reflexivity|].
    assert (A : Conv2DMMLWS.getMaxComponents K = 1 \/
                Conv2DMMLWS.getMaxComponents K = 2 \/
                Conv2DMMLWS.getMaxComponents K = 3 \/
                Conv2DMMLWS.getMaxComponents K = 4) by lia.
    destruct (K >? 1000); destruct A as [-> | [-> | [-> | ->]]];
      (split; [vm_compute; first [now exists 32 | now exists 16
                                 | now exists 11 | now exists 6
                                 | now exists 8 | now exists 4] |]);
      (split; [vm_compute; split; [discriminate | reflexivity] |]);
      (split; [intros m [k ->] Hm;
               change (Math_ceil (quot 32 1) * 1) with 32;
               change (Math_ceil (quot 32 2) * 2) with 32;
               change (Math_ceil (quot 32 3) * 3) with 33;
               change (Math_ceil (quot 32 4) * 4) with 32;
               change (Math_ceil (quot 16 1) * 1) with 16;
               change (Math_ceil (quot 16 2) * 2) with 16;
               change (Math_ceil (quot 16 3) * 3) with 18;
               change (Math_ceil (quot 16 4) * 4) with 16; lia |]);
      (split; intros H; first [reflexivity | lia | discriminate]).
Qed.

Lemma conv_tileK_is_least_multiple_above_target_witness :
  exists p q,
    MatMulLWS.constructor (1, 8, 8) 1005 false false None None None = Ok p /\
    Conv2DMMLWS.constructor
      {| dataFormat := channelsLast; outShape := (1, 2, 4, 8) |}
      8 8 1005 false None false = Ok q /\
    Conv2DMMLWS.aComponents q = 3 /\
    MatMulLWS.tileK p = 32 /\ Conv2DMMLWS.tileK q = 33.
Proof.
  do 2 eexists. split; [reflexivity|]. split; [reflexivity|].
  split; [reflexivity|].
  pose proof (conv_tileK_is_least_multiple_above_target 1 8 8 1005 false
                false None None None
                {| dataFormat := channelsLast; outShape := (1, 2, 4, 8) |}
                false false _ _ eq_refl eq_refl) as H.
  cbv zeta in H. destruct H as [_ H].
  destruct (H ltac:(lia)) as (Hp & _ & _ & _ & _ & Hq).
  split; [exact Hp | exact (Hq eq_refl)].
Defined.

Section PushIf.

Context {A : Type}.

Lemma length_push_if (b : bool) (v : A) (l : list A) :
  List.length (MatMulLWS.push_if b v l)
  = (List.length l + (if b then 1 else 0))%nat.
Proof.
  destruct b; cbn; [rewrite length_app; reflexivity | lia].
Qed.

Lemma in_push_if (b : bool) (v x : A) (l : list A) :
  In x (MatMulLWS.push_if b v l) <-> In x l \/ (b = true /\ x = v).
Proof.
  destruct b; cbn.
  - rewrite in_app_iff. cbn. intuition congruence.
  - intuition discriminate.
Qed.

Lemma NoDup_push_if (b : bool) (v : A) (l : list A) :
  NoDup l -> ~ In v l -> NoDup (MatMulLWS.push_if b v l).
Proof.
  intros Hl Hv. destruct b; cbn; [|exact Hl].
  apply NoDup_app; [exact Hl | repeat constructor; auto |].
  intros x Hx [<-|[]]. contradiction.
Qed.

Lemma Forall_push_if (P : A -> Prop) (b : bool) (v : A) (l : list A) :
  Forall P l -> P v -> Forall P (MatMulLWS.push_if b v l).
Proof.
  intros Hl Hv. destruct b; cbn; [|exact Hl].
  apply Forall_app. split; [exact Hl | repeat constructor; exact Hv].
Qed.

Lemma tl_push_if (b b' : bool) (v v' x : A) (l : list A) :
  tl (MatMulLWS.push_if b v (MatMulLWS.push_if b' v' (x :: l)))
  = MatMulLWS.push_if b v (MatMulLWS.push_if b' v' l).
Proof. destruct b, b'; reflexivity. Qed.

End PushIf.

(** X6. The operand names and the declared widths of a built program line
    up: both lists have 2 entries plus one per optional operand, the names
    are pairwise distinct, 'bias' is bound iff a bias was supplied and
    'preluActivationWeights' iff PReLU weights were, every operand after the
    first is declared with width components, and so is the output. *)
Theorem operands_and_widths_line_up
    (batch M N K : Z) (tA tB : bool) (bias prelu : option TensorInfo)
    (act : option Activation) (info : Conv2DInfo) (addBias hasPrelu : bool)
    (p : MatMulLWS.MatMulLWSProgram) (q : Conv2DMMLWS.Conv2DMMLWSProgram) :
  MatMulLWS.constructor (batch, M, N) K tA tB bias act prelu = Ok p ->
  Conv2DMMLWS.constructor info M N K addBias act hasPrelu = Ok q ->
  let extras (b w : bool) : nat :=
    ((if b then 1 else 0) + (if w then 1 else 0))%nat in
  (List.length (MatMulLWS.variableNames p)
   = List.length (MatMulLWS.variableComponents p) /\
   List.length (MatMulLWS.variableNames p)
   = (2 + extras (MatMulLWS.addBias p)
            (MatMulLWS.hasPreluActivationWeights p))%nat /\
   NoDup (MatMulLWS.variableNames p) /\
   (In "bias" (MatMulLWS.variableNames p) <-> bias <> None) /\
   (In "preluActivationWeights" (MatMulLWS.variableNames p)
    <-> prelu <> None) /\
   Forall (fun w => w = MatMulLWS.components p)
     (tl (MatMulLWS.variableComponents p)) /\
   MatMulLWS.outputComponent p = MatMulLWS.components p)
  /\
  (List.length (Conv2DMMLWS.variableNames q)
   = List.length (Conv2DMMLWS.variableComponents q) /\
   List.length (Conv2DMMLWS.variableNames q)
   = (2 + extras addBias hasPrelu)%nat /\
   NoDup (Conv2DMMLWS.variableNames q) /\
   (In "bias" (Conv2DMMLWS.variableNames q) <-> addBias = true) /\
   (In "preluActivationWeights" (Conv2DMMLWS.variableNames q)
    <-> hasPrelu = true) /\
   Forall (fun w => w = Conv2DMMLWS.components q)
     (tl (Conv2DMMLWS.variableComponents q)) /\
   Conv2DMMLWS.outputComponent q = Conv2DMMLWS.components q).
Proof.
  intros Hp Hq. cbv zeta.
  assert (NB : forall names : list string,
             names = ["A"; "B"] \/ names = ["x"; "W"] ->
             NoDup names /\ ~ In "bias" names /\
             ~ In "preluActivationWeights" names).
  { intros names [-> | ->]; (split; [|split]);
      try (repeat constructor; cbn; intuition discriminate);
      cbn; intuition discriminate. }
  assert (NN : forall o : option TensorInfo,
             MatMulLWS.not_null o = true <-> o <> None).
  { intros [t|]; cbn; split; intros H; try discriminate; try reflexivity.
    now contradiction H. }
  split.
  - destruct (matmul_constructor_operands _ _ _ _ _ _ _ _ _ _ Hp)
      as [Hn Hc]. cbv zeta in Hc.
    destruct (matmul_constructor_fits _ _ _ _ _ _ _ _ _ _ Hp)
      as (_ & _ & _ & Ho & _).
    pose proof (matmul_constructor_fields _ _ _ _ _ _ _ _ _ _ Hp) as F.
    cbv zeta in F.
    destruct F as (_ & _ & _ & _ & _ & _ & _ & Hb & Hw & _).
    destruct (NB ["A"; "B"] (or_introl eq_refl)) as (N0 & N1 & N2).
    rewrite Hn, Hc, Hb, Hw, tl_push_if, !length_push_if.
    split; [reflexivity|]. split; [cbn; lia|].
    split.
    { apply NoDup_push_if; [now apply NoDup_push_if|].
      rewrite in_push_if. intros [H|[_ H]]; [contradiction | discriminate]. }
    split.
    { rewrite !in_push_if, <- NN. split; [|tauto].
      intros [[H|[H _]]|[_ H]];
        [contradiction | exact H | discriminate]. }
    split.
    { rewrite !in_push_if, <- NN. split; [|tauto].
      intros [[H|[_ H]]|[H _]];
        [contradiction | discriminate | exact H]. }
    split; [|exact Ho].
    repeat apply Forall_push_if; auto.
  - destruct (conv_constructor_operands _ _ _ _ _ _ _ _ Hq) as [Hn Hc].
    cbv zeta in Hc.
    destruct (conv_constructor_fits _ _ _ _ _ _ _ _ Hq)
      as (_ & _ & _ & Ho & _).
    destruct (NB ["x"; "W"] (or_intror eq_refl)) as (N0 & N1 & N2).
    rewrite Hn, Hc, tl_push_if, !length_push_if.
    split; [reflexivity|]. split; [cbn; lia|].
    split.
    { apply NoDup_push_if; [now apply NoDup_push_if|].
      rewrite in_push_if. intros [H|[_ H]]; [contradiction | discriminate]. }
    split.
    { rewrite !in_push_if. split; [|tauto].
      intros [[H|[H _]]|[_ H]];
        [contradiction | exact H | discriminate]. }
    split.
    { rewrite !in_push_if. split; [|tauto].
      intros [[H|[_ H]]|[H _]];
        [contradiction | discriminate | exact H]. }
    split; [|exact Ho].
    repeat apply Forall_push_if; auto.
Qed.

Lemma operands_and_widths_line_up_witness :
  exists p q,
    MatMulLWS.constructor (1, 64, 64) 64 false false
      (Some {| shape := [64]; dtype := "float32" |}) (Some prelu)
      (Some {| shape := [64]; dtype := "float32" |}) = Ok p /\
    Conv2DMMLWS.constructor
      {| dataFormat := channelsLast; outShape := (1, 8, 8, 64) |}
      64 64 64 true (Some prelu) true = Ok q /\
    List.length (MatMulLWS.variableComponents p) = 4%nat /\
    List.length (Conv2DMMLWS.variableComponents q) = 4%nat.
Proof.
  do 2 eexists. split; [reflexivity|]. split; [reflexivity|].
  pose proof (operands_and_widths_line_up 1 64 64 64 false false
                (Some {| shape := [64]; dtype := "float32" |})
                (Some {| shape := [64]; dtype := "float32" |})
                (Some prelu)
                {| dataFormat := channelsLast; outShape := (1, 8, 8, 64) |}
                true true _ _ eq_refl eq_refl) as H.
  cbv zeta in H. destruct H as [(Hp & Hp' & _) (Hq & Hq' & _)].
  split; [rewrite <- Hp; exact Hp' | rewrite <- Hq; exact Hq'].
Defined.

(** X7. With batch, M, N, K >= 1 the dispatch never launches fewer
    workgroups than batches, and it launches exactly one per batch iff both
    M and N are at most 32, that is iff one tile covers the whole output
    matrix. *)
Theorem one_workgroup_per_batch_iff_small_output
    (batch M N K : Z) (tA tB : bool) (bias prelu : option TensorInfo)
    (act : option Activation) (info : Conv2DInfo) (addBias hasPrelu : bool)
    (p : MatMulLWS.MatMulLWSProgram) (q : Conv2DMMLWS.Conv2DMMLWSProgram) :
  1 <= batch -> 1 <= M -> 1 <= N ->
  fst (fst (fst (outShape info))) = batch ->
  MatMulLWS.constructor (batch, M, N) K tA tB bias act prelu = Ok p ->
  Conv2DMMLWS.constructor info M N K addBias act hasPrelu = Ok q ->
  Conv2DMMLWS.dispatch q = MatMulLWS.dispatch p /\
  (exists n, MatMulLWS.dispatch p = (n, 1, 1) /\ batch <= n /\
             (n = batch <-> M <= 32 /\ N <= 32)).
Proof.
  intros Hb HM HN Hinfo Hp Hq.
  pose proof (tile_pos M HM) as PM. pose proof (tile_pos N HN) as PN.
  destruct (matmul_constructor_fields _ _ _ _ _ _ _ _ _ _ Hp)
    as (_ & _ & _ & _ & _ & _ & -> & _).
  destruct (conv_constructor_fields _ _ _ _ _ _ _ _ Hq)
    as (_ & _ & _ & _ & _ & _ & -> & _).
  rewrite Hinfo. split; [reflexivity|].
  eexists. split; [reflexivity|].
  assert (TM : 0 < (if M <? 32 then M else 32)) by lia.
  assert (TN : 0 < (if N <? 32 then N else 32)) by lia.
  pose proof (Math_ceil_is_ceiling M _ TM) as [M1 M2].
  pose proof (Math_ceil_is_ceiling N _ TN) as [N1 N2].
  clear TM TN.
  revert M1 M2 N1 N2.
  generalize (Math_ceil (quot M (if M <? 32 then M else 32))).
  generalize (Math_ceil (quot N (if N <? 32 then N else 32))).
  intros cN cM M1 M2 N1 N2.
  assert (CM : 1 <= cM) by (destruct (Z.ltb_spec M 32); nia).
  assert (CN : 1 <= cN) by (destruct (Z.ltb_spec N 32); nia).
  assert (EM : cM = 1 <-> M <= 32) by (destruct (Z.ltb_spec M 32); nia).
  assert (EN : cN = 1 <-> N <= 32) by (destruct (Z.ltb_spec N 32); nia).
  assert (P : 1 <= cM * cN) by nia.
  rewrite <- Z.mul_assoc.
  split; [nia|].
  rewrite <- EM, <- EN. split; [|intros [-> ->]; lia].
  intros E. assert (Q : cM * cN = 1) by nia.
  assert (cM <= 1) by nia. assert (cN <= 1) by nia. lia.
Qed.

Lemma one_workgroup_per_batch_iff_small_output_witness :
  exists p q,
    MatMulLWS.constructor (5, 32, 17) 64 false false None None None = Ok p /\
    Conv2DMMLWS.constructor
      {| dataFormat := channelsLast; outShape := (5, 4, 8, 17) |}
      32 17 64 false None false = Ok q /\
    MatMulLWS.dispatch p = (5, 1, 1) /\ Conv2DMMLWS.dispatch q = (5, 1, 1).
Proof.
  do 2 eexists. split; [reflexivity|]. split; [reflexivity|].
  destruct (one_workgroup_per_batch_iff_small_output 5 32 17 64 false false
              None None None
              {| dataFormat := channelsLast; outShape := (5, 4, 8, 17) |}
              false false _ _ ltac:(lia) ltac:(lia) ltac:(lia) eq_refl
              eq_refl eq_refl) as [Hq [n [Hn [_ Hiff]]]].
  rewrite Hq, Hn. injection Hn as <-. split; reflexivity.
Defined.

(** * Further properties of the kernel text *)

(** A loop whose every round has the same literal frame, holds the marker
    [k] times inside and [j] times across the seam between two rounds. *)
Lemma summarize_flat_map_count (pat l r : string) (k j : nat)
    (f : nat -> list chunk) :
  (forall i, summarize pat (f i) = Cut l k r) ->
  occ pat (r ++ l) = j ->
  forall xs, xs <> [] ->
    summarize pat (flat_map f xs)
    = Cut l (k * List.length xs + j * (List.length xs - 1)) r.
Proof.
  intros Hf Hrl. induction xs as [|i xs IH]; [contradiction|].
  intros _. cbn [flat_map]. rewrite summarize_app, Hf.
  destruct xs as [|i' xs].
  - cbn [flat_map summarize join List.length]. rewrite append_nil_r.
    f_equal. nia.
  - rewrite IH by discriminate. cbn [join]. rewrite Hrl.
    f_equal. cbn [List.length]. nia.
Qed.

Lemma summarize_for_upto_count (pat l r : string) (k j : nat) (n : Z)
    (body : Z -> list chunk) :
  0 < n ->
  (forall i, summarize pat (body i) = Cut l k r) ->
  occ pat (r ++ l) = j ->
  summarize pat (for_upto n body)
  = Cut l (k * Z.to_nat n + j * (Z.to_nat n - 1)) r.
Proof.
  intros Hn Hb Hrl. unfold for_upto.
  rewrite (summarize_flat_map_count pat l r k j); auto.
  - now rewrite length_seq.
  - destruct (Z.to_nat n) eqn:E; [lia | discriminate].
Qed.

(** Evaluate the left-hand side, which is closed up to values that the
    summary discards, before unifying it with the frame sought. *)
Ltac eval_lhs :=
  match goal with
  | |- ?L = _ =>
      let v := eval vm_compute in L in
      replace L with v by (vm_compute; reflexivity)
  end;
  reflexivity.

Ltac eval_occs :=
  repeat match goal with
         | |- context [occ ?p ?s] =>
             let v := eval vm_compute in (occ p s) in
             change (occ p s) with v
         end.

Ltac count_loop n round :=
  erewrite (summarize_for_upto_count _ _ _ _ _ n);
  [ | assumption | intros ?; round | eval_lhs ].

Section Unrolling.

Context {lib : Snippets}.
Variables (workgroupSize outputNumber components aComponents : Z).
Variables (tileM tileN tileK : Z).
Variable isConv : bool.
Hypothesis Ha : 0 < aComponents.
Hypothesis Ho : 0 < outputNumber.

Let calc := MatMulLWS.calcResult_chunks outputNumber components aComponents.
Let body :=
  MatMulLWS.loop_body workgroupSize outputNumber components aComponents
    tileM tileN tileK.
Let finish :=
  MatMulLWS.epilogue workgroupSize outputNumber components tileM tileN.
Let kernel :=
  MatMulLWS.kernel_chunks workgroupSize outputNumber components aComponents
    tileM tileN tileK isConv.

(** Summarize [calcResult] for a marker, loop by loop, then add up. *)
Ltac calc_count :=
  unfold calc, MatMulLWS.calcResult_chunks;
  rewrite ?summarize_app;
  count_loop aComponents ltac:(eval_lhs);
  count_loop outputNumber ltac:(
    rewrite summarize_app;
    count_loop aComponents ltac:(eval_lhs);
    cbn [summarize summarize_chunk join]; eval_occs; reflexivity).

Ltac add_up :=
  cbn [summarize summarize_chunk join total app];
  eval_occs; nia.

Ltac own_calc :=
  unfold own_count, calc, MatMulLWS.calcResult_chunks;
  destruct (aComponents =? 1); calc_count; add_up.

Ltac own_kernel :=
  unfold own_count, kernel, body, finish, MatMulLWS.kernel_chunks,
    MatMulLWS.prologue, MatMulLWS.loop_body, MatMulLWS.compute_phase,
    MatMulLWS.shared_decls, MatMulLWS.calcResult_chunks,
    MatMulLWS.shared_A, MatMulLWS.shared_B, MatMulLWS.tile_indices,
    MatMulLWS.batch_indices, MatMulLWS.accumulators, MatMulLWS.load_phase,
    MatMulLWS.epilogue, MatMulLWS.barrier, MatMulLWS.loop_header,
    MatMulLWS.loop_close;
  destruct (aComponents =? 1); destruct isConv;
  rewrite ?summarize_app; calc_count; add_up.

Lemma calc_fma :
  own_count "fma(" calc = (Z.to_nat outputNumber * Z.to_nat aComponents)%nat.
Proof. own_calc. Qed.

Lemma calc_bData : own_count "let bData" calc = Z.to_nat aComponents.
Proof. own_calc. Qed.

Lemma calc_aData :
  own_count "aData = mm_Asub[" calc = Z.to_nat outputNumber.
Proof. own_calc. Qed.

Lemma calc_indexed :
  own_count "(aData[" calc
  = if aComponents =? 1 then 0%nat
    else (Z.to_nat outputNumber * Z.to_nat aComponents)%nat.
Proof. own_calc. Qed.

Lemma calc_scalar :
  own_count "(aData)" calc
  = if aComponents =? 1
    then (Z.to_nat outputNumber * Z.to_nat aComponents)%nat
    else 0%nat.
Proof. own_calc. Qed.

Lemma kernel_fma :
  own_count "fma(" kernel
  = (Z.to_nat outputNumber * Z.to_nat aComponents)%nat.
Proof. own_kernel. Qed.

Lemma kernel_write : own_count "mm_write(" kernel = 1%nat.
Proof. own_kernel. Qed.

Lemma body_write : own_count "mm_write(" body = 0%nat.
Proof. own_kernel. Qed.

Lemma finish_write : own_count "mm_write(" finish = 1%nat.
Proof. unfold own_count, finish, MatMulLWS.epilogue. vm_compute. reflexivity. Qed.

Lemma kernel_values_decl : own_count "var values: array<" kernel = 1%nat.
Proof. own_kernel. Qed.

(** [calcResult] keeps clear of a marker whenever the snippets do. *)
Lemma calc_clear (pat : string) :
  pat <> "" -> non_numeric pat = true ->
  snippets_clear pat aComponents components = true ->
  Forall (clear_of pat) calc.
Proof.
  intros Hne Hnn Hc.
  pose proof (compute_clear workgroupSize outputNumber components
                aComponents tileM tileN tileK pat Hne Hnn Hc) as H.
  unfold MatMulLWS.compute_phase in H.
  apply Forall_app in H as [_ H]. now apply Forall_app in H as [H _].
Qed.

End Unrolling.

(** X8. For positive aComponents and outputNumber, calcResult unrolls the
    accumulation completely: its text loads aComponents rows of mm_Bsub into
    bData variables, loads outputNumber vectors of mm_Asub into aData, and
    issues outputNumber * aComponents fused multiply-adds; the kernel
    template holds no other.  The same count holds in the rendered text
    whenever the imported snippets keep clear of the marker. *)
Theorem accumulation_is_fully_unrolled
    {lib : Snippets}
    (workgroupSize outputNumber components aComponents : Z)
    (tileM tileN tileK : Z) (isConv : bool) :
  0 < aComponents -> 0 < outputNumber ->
  let calc :=
    MatMulLWS.calcResult_chunks outputNumber components aComponents in
  let template :=
    MatMulLWS.kernel_chunks workgroupSize outputNumber components
      aComponents tileM tileN tileK isConv in
  let fmas := (Z.to_nat outputNumber * Z.to_nat aComponents)%nat in
  own_count "let bData" calc = Z.to_nat aComponents /\
  own_count "aData = mm_Asub[" calc = Z.to_nat outputNumber /\
  own_count "fma(" calc = fmas /\
  own_count "fma(" template = fmas /\
  (snippets_clear "fma(" aComponents components = true ->
   occ "fma(" (MatMulLWS.calcResult outputNumber components aComponents)
   = fmas /\
   occ "fma(" (MatMulLWS.makeMatMulLWSSource workgroupSize outputNumber
                 components aComponents tileM tileN tileK isConv) = fmas).
Proof.
  intros Ha Ho. cbv zeta.
  split; [now apply calc_bData|].
  split; [now apply calc_aData|].
  split; [now apply calc_fma|].
  split; [now apply kernel_fma|].
  intros Hc. split.
  - unfold MatMulLWS.calcResult. rewrite occ_render; [now apply calc_fma|].
    apply (calc_clear workgroupSize outputNumber components aComponents
             tileM tileN tileK); [discriminate | reflexivity | exact Hc].
  - unfold MatMulLWS.makeMatMulLWSSource.
    rewrite occ_render; [now apply kernel_fma|].
    apply kernel_clear; [discriminate | reflexivity | exact Hc].
Qed.

Lemma accumulation_is_fully_unrolled_witness :
  occ "fma("
    (MatMulLWS.makeMatMulLWSSource (lib := demo_snippets)
       64 3 4 2 9 32 16 true) = 6%nat.
Proof.
  pose proof (accumulation_is_fully_unrolled (lib := demo_snippets)
                64 3 4 2 9 32 16 true ltac:(lia) ltac:(lia)) as H.
  cbv zeta in H. destruct H as (_ & _ & _ & _ & H).
  exact (proj2 (H eq_refl)).
Defined.

(** X9. A scalar first operand is never indexed: with aComponents = 1 every
    fused multiply-add of calcResult reads aData as it is, and no text
    'aData[' follows an opening parenthesis; with a wider aComponents every
    one of the outputNumber * aComponents multiply-adds reads one component
    aData[j], and none reads the bare vector. *)
Theorem scalar_operand_is_not_indexed
    {lib : Snippets} (outputNumber components aComponents : Z) :
  0 < aComponents -> 0 < outputNumber ->
  let calc :=
    MatMulLWS.calcResult_chunks outputNumber components aComponents in
  let fmas := (Z.to_nat outputNumber * Z.to_nat aComponents)%nat in
  (aComponents = 1 ->
   own_count "(aData[" calc = 0%nat /\
   own_count "(aData)" calc = Z.to_nat outputNumber) /\
  (aComponents <> 1 ->
   own_count "(aData[" calc = fmas /\ own_count "(aData)" calc = 0%nat).
Proof.
  intros Ha Ho. cbv zeta.
  pose proof (calc_indexed outputNumber components aComponents Ha Ho) as I.
  pose proof (calc_scalar outputNumber components aComponents Ha Ho) as S.
  split.
  - intros E. rewrite E in I, S |- *. cbn [Z.eqb Pos.eqb] in I, S.
    split; [exact I|]. rewrite S. cbn. lia.
  - intros E. apply Z.eqb_neq in E. rewrite E in I, S. now split.
Qed.

Lemma scalar_operand_is_not_indexed_witness :
  own_count "(aData["
    (MatMulLWS.calcResult_chunks (lib := demo_snippets) 4 4 1) = 0%nat /\
  own_count "(aData["
    (MatMulLWS.calcResult_chunks (lib := demo_snippets) 4 4 3) = 12%nat.
Proof.
  split.
  - exact (proj1 (proj1 (scalar_operand_is_not_indexed (lib := demo_snippets)
                           4 4 1 ltac:(lia) ltac:(lia)) eq_refl)).
  - exact (proj1 (proj2 (scalar_operand_is_not_indexed (lib := demo_snippets)
                           4 4 3 ltac:(lia) ltac:(lia))
                    ltac:(discriminate))).
Defined.

(** X10. The kernel writes its result once and only after the reduction
    loop: the template calls mm_write exactly once, in the epilogue, and the
    loop body holds no call; the accumulator array is declared exactly
    once.  The rendered text agrees whenever the imported snippets keep
    clear of the marker. *)
Theorem output_is_written_once_after_the_loop
    {lib : Snippets}
    (workgroupSize outputNumber components aComponents : Z)
    (tileM tileN tileK : Z) (isConv : bool) :
  0 < aComponents -> 0 < outputNumber ->
  let template :=
    MatMulLWS.kernel_chunks workgroupSize outputNumber components
      aComponents tileM tileN tileK isConv in
  let body :=
    MatMulLWS.loop_body workgroupSize outputNumber components aComponents
      tileM tileN tileK in
  let finish :=
    MatMulLWS.epilogue workgroupSize outputNumber components tileM tileN in
  own_count "mm_write(" template = 1%nat /\
  own_count "mm_write(" body = 0%nat /\
  own_count "mm_write(" finish = 1%nat /\
  own_count "var values: array<" template = 1%nat /\
  (snippets_clear "mm_write(" aComponents components = true ->
   occ "mm_write(" (render template) = 1%nat /\
   occ "mm_write(" (render body) = 0%nat).
Proof.
  intros Ha Ho. cbv zeta.
  split; [now apply kernel_write|].
  split; [now apply body_write|].
  split; [now apply finish_write|].
  split; [now apply kernel_values_decl|].
  intros Hc. split.
  - rewrite occ_render; [now apply kernel_write|].
    apply kernel_clear; [discriminate | reflexivity | exact Hc].
  - rewrite occ_render; [now apply body_write|].
    apply body_clear; [discriminate | reflexivity | exact Hc].
Qed.

Lemma output_is_written_once_after_the_loop_witness :
  occ "mm_write("
    (MatMulLWS.makeMatMulLWSSource (lib := demo_snippets)
       64 4 4 4 32 32 16 false) = 1%nat.
Proof.
  pose proof (output_is_written_once_after_the_loop (lib := demo_snippets)
                64 4 4 4 32 32 16 false ltac:(lia) ltac:(lia)) as H.
  cbv zeta in H. destruct H as (_ & _ & _ & _ & H).
  exact (proj1 (H eq_refl)).
Defined.

(** * The index arithmetic of the emitted kernel *)

Section KernelArithmetic.

Import Wgsl.

Lemma u32_small (x : Z) : 0 <= x < 2 ^ 32 -> u32 x = x.
Proof. intros H. unfold u32. now apply Z.mod_small. Qed.

(** The stride the kernel derives from a uniform is the ceiling that the
    constructor computed with [Math.ceil]. *)
Lemma stride_is_Math_ceil (dim tile : Z) :
  1 <= dim < 2 ^ 31 -> 1 <= tile ->
  stride dim tile = Math_ceil (quot dim tile).
Proof.
  intros Hd Ht. unfold stride.
  assert (P : 2 ^ 31 < 2 ^ 32) by reflexivity.
  rewrite (u32_small dim) by lia.
  rewrite (u32_small (dim - 1)) by lia.
  assert (B : 0 <= (dim - 1) / tile <= dim - 1).
  { split; [apply Z.div_pos; lia|].
    apply Z.div_le_upper_bound; [lia | nia]. }
  rewrite u32_small by lia.
  apply (is_ceiling_unique _ _ dim tile); [lia | | ].
  - unfold is_ceiling.
    pose proof (Z.div_mod (dim - 1) tile ltac:(lia)).
    pose proof (Z.mod_pos_bound (dim - 1) tile ltac:(lia)).
    nia.
  - apply Math_ceil_is_ceiling. lia.
Qed.

(** Membership in a strided loop that has fuel enough. *)
Lemma in_strided (step bound : Z) :
  0 < step -> bound + step <= 2 ^ 32 ->
  forall fuel start t,
    0 <= start -> bound - start <= Z.of_nat fuel ->
    (In t (strided fuel start bound step)
     <-> start <= t < bound /\ (t - start) mod step = 0).
Proof.
  intros Hs Hb. induction fuel as [|fuel IH]; intros start t H0 Hf.
  - cbn. split; [contradiction | lia].
  - cbn [strided]. destruct (Z.ltb_spec start bound) as [Hlt|Hge].
    + rewrite u32_small by lia. cbn [In]. rewrite IH by lia.
      split.
      * intros [<- | [[H1 H2] H3]].
        -- rewrite Z.sub_diag. split; [lia | reflexivity].
        -- split; [lia|].
           replace (t - start) with (t - (start + step) + 1 * step) by lia.
           now rewrite Z.mod_add by lia.
      * intros [[H1 H2] H3].
        destruct (Z.eq_dec start t) as [E|E]; [now left | right].
        apply Z.mod_divide in H3; [|lia]. destruct H3 as [k Hk].
        assert (1 <= k) by nia.
        split; [nia|].
        replace (t - (start + step)) with ((k - 1) * step) by nia.
        apply Z.mod_mul. lia.
    + cbn. split; [contradiction | lia].
Qed.

End KernelArithmetic.

(** X11. The strided loops of the kernel split their index range among the
    threads of a workgroup without gap or overlap.  For a positive step and
    a bound that does not wrap, the thread with local index l visits exactly
    the indices t = l, l + step, ... below the bound, each once; so every
    index below the bound is visited by exactly one of the threads
    0 .. step - 1, the thread t mod step. *)
Theorem strided_loops_partition_the_range (bound step : Z) :
  0 < step -> 0 <= bound -> bound + step <= 2 ^ 32 ->
  (forall l t,
     0 <= l ->
     (In t (Wgsl.loop_indices l bound step)
      <-> l <= t < bound /\ (t - l) mod step = 0)) /\
  (forall l, 0 <= l -> NoDup (Wgsl.loop_indices l bound step)) /\
  (forall t,
     0 <= t < bound ->
     forall l, 0 <= l < step ->
       (In t (Wgsl.loop_indices l bound step) <-> l = t mod step)).
Proof.
  intros Hs H0 Hb.
  assert (M : forall l t, 0 <= l ->
             (In t (Wgsl.loop_indices l bound step)
              <-> l <= t < bound /\ (t - l) mod step = 0)).
  { intros l t Hl. unfold Wgsl.loop_indices.
    apply in_strided; try assumption. lia. }
  split; [exact M|]. split.
  - intros l Hl. unfold Wgsl.loop_indices.
    assert (G : forall fuel start,
               0 <= start -> bound - start <= Z.of_nat fuel ->
               NoDup (Wgsl.strided fuel start bound step)).
    { induction fuel as [|fuel IH]; intros start Hst Hf; [constructor|].
      cbn [Wgsl.strided]. destruct (Z.ltb_spec start bound); [|constructor].
      rewrite u32_small by lia. constructor; [|apply IH; lia].
      rewrite in_strided by (assumption || lia). lia. }
    apply G; lia.
  - intros t Ht l Hl. rewrite (M l t) by lia. split.
    + intros [H1 H2]. apply Z.mod_divide in H2; [|lia].
      destruct H2 as [k Hk].
      replace t with (l + k * step) by lia.
      rewrite Z.mod_add by lia. symmetry. apply Z.mod_small. lia.
    + intros ->. pose proof (Z.mod_pos_bound t step Hs).
      pose proof (Z.mod_le t step ltac:(lia) Hs).
      split; [lia|].
      rewrite Zminus_mod, Z.mod_mod by lia. rewrite Z.sub_diag.
      apply Z.mod_0_l. lia.
Qed.

Lemma strided_loops_partition_the_range_witness :
  Wgsl.loop_indices 3 200 64 = [3; 67; 131; 195] /\
  (In 131 (Wgsl.loop_indices 3 200 64) <-> 3 = 131 mod 64).
Proof.
  split; [reflexivity|].
  destruct (strided_loops_partition_the_range 200 64
              ltac:(lia) ltac:(lia) ltac:(lia)) as (_ & _ & H).
  apply H; lia.
Defined.

Section Cells.

Import Wgsl.

(** Row-major indices below [rows * cols] and cells of a [rows] by [cols]
    array correspond one to one. *)
Lemma input_cell_bijection (rows cols : Z) :
  0 < cols -> 0 <= rows ->
  (forall t, 0 <= t < rows * cols ->
     0 <= fst (input_cell cols t) < rows /\
     0 <= snd (input_cell cols t) < cols /\
     t = fst (input_cell cols t) * cols + snd (input_cell cols t)) /\
  (forall r c, 0 <= r < rows -> 0 <= c < cols ->
     0 <= r * cols + c < rows * cols /\
     input_cell cols (r * cols + c) = (r, c)).
Proof.
  intros Hc Hr. unfold input_cell. cbn [fst snd]. split.
  - intros t Ht.
    pose proof (Z.div_mod t cols ltac:(lia)) as E.
    pose proof (Z.mod_pos_bound t cols Hc) as B.
    assert (0 <= t / cols) by (apply Z.div_pos; lia).
    assert (t / cols < rows)
      by (apply Z.div_lt_upper_bound; [lia | nia]).
    repeat split; lia.
  - intros r c Hr' Hc'. split; [nia|].
    f_equal.
    + rewrite Z.div_add_l by lia. rewrite Z.div_small by lia. lia.
    + rewrite Z.add_comm, Z.mod_add by lia. apply Z.mod_small. lia.
Qed.

Lemma exact_quotient (x d y : Z) :
  0 < d -> x mod d = 0 -> y * x / d = y * (x / d) /\ x / d * d = x.
Proof.
  intros Hd Hx. apply Z.div_exact in Hx; [|lia].
  split; [|lia].
  rewrite Hx at 1. replace (y * (d * (x / d))) with (y * (x / d) * d) by ring.
  apply Z.div_mul. lia.
Qed.

End Cells.

(** X12. For a valid tile configuration with positive tiles, each
    cooperative load fills exactly the shared tile it is declared for.  The
    bound printed in the loop over A, tileM * tileK / aComponents, is the
    number of cells of mm_Asub (tileM rows of tileK / aComponents), every
    index below it addresses a cell inside the array, and indices and cells
    correspond one to one; likewise for B with tileK rows of
    tileN / components.  The divisibility invariants are what makes the
    bounds agree. *)
Theorem loads_fill_the_declared_tiles
    (tileM tileN tileK components aComponents outputNumber : Z) :
  valid_tile tileM tileN tileK components aComponents outputNumber ->
  0 < tileM -> 0 < tileN -> 0 < tileK ->
  let colsA := tileK / aComponents in
  let colsB := tileN / components in
  tileM * tileK / aComponents = tileM * colsA /\
  tileK * tileN / components = tileK * colsB /\
  0 < colsA /\ 0 < colsB /\
  (forall t, 0 <= t < tileM * tileK / aComponents ->
     let '(inputRow, inputCol) := Wgsl.input_cell colsA t in
     0 <= inputRow < tileM /\ 0 <= inputCol < colsA /\
     0 <= inputCol * aComponents < tileK /\
     t = inputRow * colsA + inputCol) /\
  (forall r c, 0 <= r < tileM -> 0 <= c < colsA ->
     0 <= r * colsA + c < tileM * tileK / aComponents /\
     Wgsl.input_cell colsA (r * colsA + c) = (r, c)) /\
  (forall t, 0 <= t < tileK * tileN / components ->
     let '(inputRow, inputCol) := Wgsl.input_cell colsB t in
     0 <= inputRow < tileK /\ 0 <= inputCol < colsB /\
     0 <= inputCol * components < tileN /\
     t = inputRow * colsB + inputCol) /\
  (forall r c, 0 <= r < tileK -> 0 <= c < colsB ->
     0 <= r * colsB + c < tileK * tileN / components /\
     Wgsl.input_cell colsB (r * colsB + c) = (r, c)).
Proof.
  intros (Hc & Ha & Ho & HN & HM & HK) PM PN PK.
  apply guard_mod in HN, HM, HK. cbv zeta.
  destruct (exact_quotient tileK aComponents tileM Ha HK) as [EA QA].
  destruct (exact_quotient tileN components tileK Hc HN) as [EB QB].
  assert (CA : 0 < tileK / aComponents) by nia.
  assert (CB : 0 < tileN / components) by nia.
  rewrite EA, EB.
  destruct (input_cell_bijection tileM (tileK / aComponents) CA
              ltac:(lia)) as [A1 A2].
  destruct (input_cell_bijection tileK (tileN / components) CB
              ltac:(lia)) as [B1 B2].
  split; [reflexivity|]. split; [reflexivity|].
  split; [exact CA|]. split; [exact CB|].
  split; [|split; [exact A2|split; [|exact B2]]].
  - intros t Ht. specialize (A1 t Ht).
    destruct (Wgsl.input_cell (tileK / aComponents) t) as [r c].
    cbn [fst snd] in A1. destruct A1 as (R & C & E).
    repeat split; try lia; nia.
  - intros t Ht. specialize (B1 t Ht).
    destruct (Wgsl.input_cell (tileN / components) t) as [r c].
    cbn [fst snd] in B1. destruct B1 as (R & C & E).
    repeat split; try lia; nia.
Qed.

Lemma loads_fill_the_declared_tiles_witness :
  valid_tile 9 32 33 4 3 3 /\
  9 * 33 / 3 = 9 * (33 / 3) /\
  Wgsl.input_cell (33 / 3) 98 = (8, 10).
Proof.
  assert (V : valid_tile 9 32 33 4 3 3)
    by (unfold valid_tile, tile_invariants; repeat split; reflexivity).
  split; [exact V|].
  pose proof (loads_fill_the_declared_tiles 9 32 33 4 3 3 V
                ltac:(lia) ltac:(lia) ltac:(lia)) as H.
  cbv zeta in H. destruct H as (E & _).
  split; [exact E | reflexivity].
Defined.

(** X13. For a valid tile configuration, the accumulation phase stays
    inside the shared tiles and covers the output tile exactly.  The loop
    over k visits the multiples of aComponents below tileK, so the rows
    k .. k + aComponents - 1 of mm_Bsub and the column k / aComponents of
    mm_Asub exist; a thread index below
    (tileM / outputNumber) * (tileN / components) owns the rows
    localRow .. localRow + outputNumber - 1, all below tileM, at a column
    below tileN / components; and every row and column of the tile is owned
    by exactly one thread index and offset. *)
Theorem accumulation_stays_inside_the_tiles
    (tileM tileN tileK components aComponents outputNumber : Z) :
  valid_tile tileM tileN tileK components aComponents outputNumber ->
  0 < tileM < 2 ^ 31 -> 0 < tileN -> 0 < tileK < 2 ^ 31 ->
  let cols := tileN / components in
  let bound := (tileM / outputNumber) * cols in
  (forall k, In k (Wgsl.loop_indices 0 tileK aComponents)
             <-> 0 <= k < tileK /\ (aComponents | k)) /\
  (forall k i, In k (Wgsl.loop_indices 0 tileK aComponents) ->
     0 <= i < aComponents ->
     0 <= k + i < tileK /\ 0 <= k / aComponents < tileK / aComponents) /\
  (forall t i, 0 <= t < bound -> 0 <= i < outputNumber ->
     let '(localRow, localCol) := Wgsl.local_cell cols outputNumber t in
     0 <= localRow + i < tileM /\ 0 <= localCol < cols /\
     0 <= localCol * components < tileN) /\
  (forall row col, 0 <= row < tileM -> 0 <= col < cols ->
     let t := row / outputNumber * cols + col in
     let i := row mod outputNumber in
     0 <= t < bound /\ 0 <= i < outputNumber /\
     Wgsl.local_cell cols outputNumber t = (row - i, col) /\
     forall t' i', 0 <= t' < bound -> 0 <= i' < outputNumber ->
       Wgsl.local_cell cols outputNumber t' = (row - i', col) ->
       t' = t /\ i' = i).
Proof.
  intros (Hc & Ha & Ho & HN & HM & HK) PM PN PK.
  apply guard_mod in HN, HM, HK. cbv zeta.
  destruct (exact_quotient tileK aComponents 1 Ha HK) as [_ QK].
  destruct (exact_quotient tileN components 1 Hc HN) as [_ QN].
  destruct (exact_quotient tileM outputNumber 1 Ho HM) as [_ QM].
  assert (CN : 0 < tileN / components) by nia.
  assert (CM : 0 < tileM / outputNumber) by nia.
  assert (P31 : 2 ^ 31 < 2 ^ 32) by reflexivity.
  assert (CK : 0 < tileK / aComponents) by nia.
  assert (A31 : aComponents <= tileK).
  { rewrite <- QK. replace aComponents with (1 * aComponents) at 1 by lia.
    apply Z.mul_le_mono_nonneg_r; lia. }
  assert (L : forall k, In k (Wgsl.loop_indices 0 tileK aComponents)
                        <-> 0 <= k < tileK /\ (aComponents | k)).
  { intros k.
    destruct (strided_loops_partition_the_range tileK aComponents
                ltac:(lia) ltac:(lia) ltac:(lia)) as (S & _).
    rewrite (S 0 k) by lia. rewrite Z.sub_0_r.
    rewrite Z.mod_divide by lia. reflexivity. }
  assert (LC : forall t, 0 <= t < tileM / outputNumber * (tileN / components)
                 -> Wgsl.local_cell (tileN / components) outputNumber t
                    = (t / (tileN / components) * outputNumber,
                       t mod (tileN / components)) /\
                    0 <= t / (tileN / components) < tileM / outputNumber /\
                    0 <= t mod (tileN / components) < tileN / components).
  { intros t Ht.
    destruct (input_cell_bijection (tileM / outputNumber)
                (tileN / components) CN ltac:(lia)) as [B1 _].
    destruct (B1 t Ht) as (R & C & _). cbn [Wgsl.input_cell fst snd] in R, C.
    unfold Wgsl.local_cell. rewrite u32_small by nia. auto. }
  split; [exact L|]. split; [|split].
  - intros k i Hk Hi. apply L in Hk as [Hk [j ->]].
    rewrite Z.div_mul by lia.
    assert (0 <= j) by nia.
    assert (j < tileK / aComponents) by nia.
    split; [nia | lia].
  - intros t i Ht Hi. destruct (LC t Ht) as (-> & R & C).
    repeat split; try lia; nia.
  - intros row col Hrow Hcol.
    pose proof (Z.div_mod row outputNumber ltac:(lia)) as E.
    pose proof (Z.mod_pos_bound row outputNumber Ho) as B.
    assert (R0 : 0 <= row / outputNumber) by (apply Z.div_pos; lia).
    assert (R1 : row / outputNumber < tileM / outputNumber)
      by (apply Z.div_lt_upper_bound; [lia | nia]).
    destruct (input_cell_bijection (tileM / outputNumber)
                (tileN / components) CN ltac:(lia)) as [_ B2].
    destruct (B2 (row / outputNumber) col ltac:(lia) Hcol) as [T IC].
    cbn [Wgsl.input_cell] in IC. injection IC as ID IM.
    split; [exact T|]. split; [exact B|].
    split.
    { destruct (LC _ T) as (-> & _). rewrite ID, IM. f_equal. lia. }
    intros t' i' Ht' Hi' E'.
    destruct (LC t' Ht') as (E2 & R' & C'). rewrite E2 in E'.
    injection E' as Er Ec.
    assert (Q : t' / (tileN / components) = row / outputNumber /\
                i' = row mod outputNumber).
    { assert (row = t' / (tileN / components) * outputNumber + i') by lia.
      split.
      - apply (Z.div_unique row outputNumber _ i'); lia.
      - apply (Z.mod_unique row outputNumber
                 (t' / (tileN / components)) i'); lia. }
    destruct Q as [Q1 Q2]. split; [|exact Q2].
    pose proof (Z.div_mod t' (tileN / components) ltac:(lia)). nia.
Qed.

Lemma accumulation_stays_inside_the_tiles_witness :
  valid_tile 9 32 33 4 3 3 /\
  Wgsl.loop_indices 0 33 3 = [0; 3; 6; 9; 12; 15; 18; 21; 24; 27; 30] /\
  Wgsl.local_cell (32 / 4) 3 23 = (6, 7) /\
  (In 30 (Wgsl.loop_indices 0 33 3) <-> 0 <= 30 < 33 /\ (3 | 30)).
Proof.
  assert (V : valid_tile 9 32 33 4 3 3)
    by (unfold valid_tile, tile_invariants; repeat split; reflexivity).
  split; [exact V|]. split; [reflexivity|]. split; [reflexivity|].
  pose proof (accumulation_stays_inside_the_tiles 9 32 33 4 3 3 V
                ltac:(split; [lia | reflexivity]) ltac:(lia)
                ltac:(split; [lia | reflexivity])) as H.
  cbv zeta in H. destruct H as (L & _). apply L.
Defined.

(** X14. The workgroups a matmul program dispatches and the tile origins the
    kernel recovers from the workgroup index correspond one to one.  With
    the uniforms dimAOuter = M and dimBOuter = N (below 2^31) and a dispatch
    (n, 1, 1) below 2^32: the workgroup (x, 0, 0) has linear index x; every
    index below n yields a batch below the batch count and a tile origin
    inside the output, at multiples of tileM and tileN; every batch and
    tile is the origin of some index below n; and two indices with the same
    origin are equal.  The strides of the kernel are the ceilings that the
    constructor multiplied. *)
Theorem workgroups_and_tiles_correspond
    (batch M N K : Z) (tA tB : bool) (bias prelu : option TensorInfo)
    (act : option Activation) (p : MatMulLWS.MatMulLWSProgram) (n : Z) :
  MatMulLWS.constructor (batch, M, N) K tA tB bias act prelu = Ok p ->
  1 <= batch -> 1 <= M < 2 ^ 31 -> 1 <= N < 2 ^ 31 ->
  MatMulLWS.dispatch p = (n, 1, 1) -> n < 2 ^ 32 ->
  let tM := MatMulLWS.tileM p in
  let tN := MatMulLWS.tileN p in
  let origin := Wgsl.tile_origin tM tN M N in
  n = batch * Wgsl.stride M tM * Wgsl.stride N tN /\
  (forall x, 0 <= x < n -> Wgsl.virtualGlobalId (x, 0, 0) (n, 1, 1) = x) /\
  (forall id, 0 <= id < n ->
     0 <= Wgsl.batch (origin id) < batch /\
     0 <= Wgsl.tileRowStart (origin id) < M /\
     (tM | Wgsl.tileRowStart (origin id)) /\
     0 <= Wgsl.tileColStart (origin id) < N /\
     (tN | Wgsl.tileColStart (origin id))) /\
  (forall b i j,
     0 <= b < batch -> 0 <= i < Wgsl.stride M tM ->
     0 <= j < Wgsl.stride N tN ->
     let id := (b * Wgsl.stride M tM + i) * Wgsl.stride N tN + j in
     0 <= id < n /\
     origin id = {| Wgsl.batch := b;
                    Wgsl.tileRowStart := i * tM;
                    Wgsl.tileColStart := j * tN |}) /\
  (forall id id', 0 <= id < n -> 0 <= id' < n ->
     origin id = origin id' -> id = id').
Proof.
  intros Hp Hb HM HN Hd Hn. cbv zeta.
  pose proof (tile_pos M ltac:(lia)) as PM.
  pose proof (tile_pos N ltac:(lia)) as PN.
  destruct (matmul_constructor_fields _ _ _ _ _ _ _ _ _ _ Hp)
    as (TM & TN & _ & _ & _ & _ & D & _).
  cbv zeta in TM, TN, D. rewrite TM, TN. rewrite D in Hd.
  rewrite <- !stride_is_Math_ceil in Hd by lia.
  injection Hd as Hd.
  assert (TM0 : 0 < (if M <? 32 then M else 32)) by lia.
  assert (TN0 : 0 < (if N <? 32 then N else 32)) by lia.
  pose proof (Math_ceil_is_ceiling M _ TM0) as [M1 M2].
  pose proof (Math_ceil_is_ceiling N _ TN0) as [N1 N2].
  clear TM0 TN0.
  rewrite <- !stride_is_Math_ceil in M1, M2, N1, N2 by lia.
  revert Hd M1 M2 N1 N2 PM PN.
  generalize (if M <? 32 then M else 32) as tM.
  generalize (if N <? 32 then N else 32) as tN.
  intros tN tM.
  unfold Wgsl.tile_origin.
  generalize (Wgsl.stride M tM) as cM. generalize (Wgsl.stride N tN) as cN.
  intros cN cM Hd M1 M2 N1 N2 PM PN.
  assert (CM : 1 <= cM) by nia. assert (CN : 1 <= cN) by nia.
  assert (P31 : 2 ^ 31 < 2 ^ 32) by reflexivity.
  cbn [Wgsl.batch Wgsl.tileRowStart Wgsl.tileColStart].
  assert (Small : forall r c t d, 0 <= r < c -> 1 <= t -> t * (c - 1) < d ->
            d < 2 ^ 31 -> 0 <= r * t < d /\ Wgsl.u32 (r * t) = r * t).
  { intros r c t d Hr Ht Hc Hd'.
    assert (L : r * t <= (c - 1) * t)
      by (apply Z.mul_le_mono_nonneg_r; lia).
    assert (L0 : 0 <= r * t) by (apply Z.mul_nonneg_nonneg; lia).
    split; [lia|]. apply u32_small. lia. }
  assert (Dec : forall id, 0 <= id < n ->
            0 <= id mod cN < cN /\ 0 <= id / cN mod cM < cM /\
            0 <= id / cN / cM < batch /\
            id = (id / cN / cM * cM + id / cN mod cM) * cN + id mod cN).
  { intros id Hid.
    pose proof (Z.div_mod id cN ltac:(lia)) as E1.
    pose proof (Z.mod_pos_bound id cN ltac:(lia)) as B1.
    pose proof (Z.div_mod (id / cN) cM ltac:(lia)) as E2.
    pose proof (Z.mod_pos_bound (id / cN) cM ltac:(lia)) as B2.
    assert (Q0 : 0 <= id / cN) by (apply Z.div_pos; lia).
    assert (Q1 : id / cN < batch * cM)
      by (apply Z.div_lt_upper_bound; lia).
    assert (Q2 : 0 <= id / cN / cM) by (apply Z.div_pos; lia).
    assert (Q3 : id / cN / cM < batch)
      by (apply Z.div_lt_upper_bound; lia).
    assert (E3 : id / cN / cM * cM + id / cN mod cM = id / cN) by lia.
    rewrite E3. repeat split; lia. }
  split; [symmetry; exact Hd|]. split; [|split; [|split]].
  - intros x Hx. unfold Wgsl.virtualGlobalId.
    cbv beta iota zeta. change (0 * n) with 0.
    rewrite (u32_small 0) by lia. change (0 * 1) with 0.
    rewrite (u32_small 0) by lia. change (0 + 0) with 0.
    rewrite (u32_small 0) by lia. change (0 + x) with x.
    apply u32_small. lia.
  - intros id Hid. destruct (Dec id Hid) as (J & I & B & E).
    destruct (Small _ _ _ _ I (proj1 PM) M1 (proj2 HM)) as [SR UR].
    destruct (Small _ _ _ _ J (proj1 PN) N1 (proj2 HN)) as [SC UC].
    rewrite UR, UC.
    split; [exact B|]. split; [exact SR|].
    split; [now exists (id / cN mod cM)|].
    split; [exact SC|]. now exists (id mod cN).
  - intros b i j Hb' Hi Hj. cbv zeta.
    assert (R0 : 0 <= b * cM) by (apply Z.mul_nonneg_nonneg; lia).
    assert (R1 : b * cM <= (batch - 1) * cM)
      by (apply Z.mul_le_mono_nonneg_r; lia).
    assert (R2 : 0 <= (b * cM + i) * cN)
      by (apply Z.mul_nonneg_nonneg; lia).
    assert (R3 : (b * cM + i) * cN <= (batch * cM - 1) * cN)
      by (apply Z.mul_le_mono_nonneg_r; lia).
    split; [lia|].
    assert (E1 : ((b * cM + i) * cN + j) / cN = b * cM + i).
    { rewrite Z.div_add_l by lia. rewrite (Z.div_small j cN) by lia. lia. }
    assert (E2 : ((b * cM + i) * cN + j) mod cN = j).
    { rewrite Z.add_comm, Z.mod_add by lia. apply Z.mod_small. lia. }
    assert (E3 : (b * cM + i) / cM = b).
    { rewrite Z.div_add_l by lia. rewrite (Z.div_small i cM) by lia. lia. }
    assert (E4 : (b * cM + i) mod cM = i).
    { rewrite Z.add_comm, Z.mod_add by lia. apply Z.mod_small. lia. }
    rewrite E1, E2, E3, E4.
    destruct (Small _ _ _ _ Hi (proj1 PM) M1 (proj2 HM)) as [_ ->].
    destruct (Small _ _ _ _ Hj (proj1 PN) N1 (proj2 HN)) as [_ ->].
    reflexivity.
  - intros id id' Hid Hid' E.
    destruct (Dec id Hid) as (J & I & B & E0).
    destruct (Dec id' Hid') as (J' & I' & B' & E0').
    destruct (Small _ _ _ _ I (proj1 PM) M1 (proj2 HM)) as [_ UR].
    destruct (Small _ _ _ _ J (proj1 PN) N1 (proj2 HN)) as [_ UC].
    destruct (Small _ _ _ _ I' (proj1 PM) M1 (proj2 HM)) as [_ UR'].
    destruct (Small _ _ _ _ J' (proj1 PN) N1 (proj2 HN)) as [_ UC'].
    injection E as Eb Er Ec. rewrite UR, UR' in Er. rewrite UC, UC' in Ec.
    apply Z.mul_reg_r in Er; [|lia]. apply Z.mul_reg_r in Ec; [|lia].
    rewrite E0, E0', Eb, Er, Ec. reflexivity.
Qed.

Lemma workgroups_and_tiles_correspond_witness :
  exists p,
    MatMulLWS.constructor (2, 70, 40) 64 false false None None None = Ok p /\
    MatMulLWS.dispatch p = (12, 1, 1) /\
    Wgsl.tile_origin 32 32 70 40 11
    = {| Wgsl.batch := 1; Wgsl.tileRowStart := 64;
         Wgsl.tileColStart := 32 |} /\
    Wgsl.virtualGlobalId (11, 0, 0) (12, 1, 1) = 11.
Proof.
  eexists. split; [reflexivity|]. split; [reflexivity|].
  split; [reflexivity|].
  pose proof (workgroups_and_tiles_correspond 2 70 40 64 false false None
                None None _ 12 eq_refl ltac:(lia)
                ltac:(split; [lia | reflexivity])
                ltac:(split; [lia | reflexivity])
                eq_refl ltac:(reflexivity)) as H.
  cbv zeta in H. destruct H as (_ & V & _).
  apply V. lia.
Defined.
